(** * FWGS checkout orchestration: a shallow embedding of generalized_checkout.js

    The class [FWGSCheckout] drives a browser page through the checkout
    funnel.  Every [await]ed browser call either resolves with a value or
    rejects with an [Error]; the embedding makes that explicit:

    - the browser is a record of outcomes ([Page], [Frame], [Element],
      [Browser]): what each call answers on the page under test.  A call
      with the same arguments gets the same answer throughout a run; the
      lookups of the error monitor are the exception, they depend on the
      number of the check;
    - an asynchronous method is a computation in the monad [Run], which
      carries the list of calls made so far (the trace) and either the
      value the method resolves with or the error it rejects with;
    - [try]/[catch]/[finally] are the combinators [catch] and [finally].

    Strings are byte strings, a text outside ASCII in UTF-8; [trim]
    removes the white space and line terminators of ECMAScript, also
    those outside ASCII.  Time is not modelled: [waitForTimeout] and
    [setTimeout] are recorded in the trace with their delay.  The trace
    is the order in which the calls are made; the error monitor, which
    runs beside the click on the place-order button, makes the lookup of
    its first check before that click and its other calls after it.
    When that click rejects, nobody awaits the monitor any more and it
    goes on by itself, also after the browser is closed: what it still
    does is kept in one entry of the trace, [Detached].

    The settings page is embedded beside the script: the storage module
    (utils/storage.ts) over a [localStorage] that is a function from keys
    to items, the functions that format the card fields
    (PaymentForm.tsx) as functions on strings, and the handlers of the
    keyword rules (KeywordManager.tsx) as functions on the state of the
    component. *)

From Stdlib Require Import String Ascii List Arith NArith Bool Lia.
From ExtLib Require Import Structures.Monad Structures.MonadExc.
From Equations Require Import Equations.
Import ListNotations.
Import MonadNotation.
Local Open Scope string_scope.
Local Open Scope nat_scope.
Local Open Scope monad_scope.

(** ** JavaScript strings *)

Module JS.

(** The double quote, for selectors such as [input[id="expDate"]]. *)
Definition dq : string := String (ascii_of_nat 34) EmptyString.

(** The line feed. *)
Definition nl : string := String (ascii_of_nat 10) EmptyString.

(** [q s] is [s] between double quotes. *)
Definition q (s : string) : string := dq ++ s ++ dq.

Definition is_upper (c : ascii) : bool :=
  (65 <=? nat_of_ascii c) && (nat_of_ascii c <=? 90).

Definition lower_char (c : ascii) : ascii :=
  if is_upper c then ascii_of_nat (nat_of_ascii c + 32) else c.

(** [String.prototype.toLowerCase] on the letters A to Z.  The script
    lowers a text only to look for one of four ASCII keywords in it,
    and there the letters outside ASCII make no difference: they are
    lowered to letters outside ASCII, but for KELVIN SIGN, which gives
    [k], a letter of no keyword, and for I WITH DOT ABOVE, which gives
    [i] before a combining dot, and no keyword ends in [i]. *)
Fixpoint toLowerCase (s : string) : string :=
  match s with
  | EmptyString => EmptyString
  | String c r => String (lower_char c) (toLowerCase r)
  end.

(** [hay.includes(needle)] *)
Fixpoint includes (needle hay : string) : bool :=
  prefix needle hay ||
  match hay with
  | EmptyString => false
  | String _ r => includes needle r
  end.

(** The white space of the ASCII range: tab, line feed, vertical tab,
    form feed, carriage return and space. *)
Definition is_space (c : ascii) : bool :=
  let n := nat_of_ascii c in
  ((9 <=? n) && (n <=? 13)) || (n =? 32).

(** The text without its first [n] bytes. *)
Fixpoint drop (n : nat) (s : string) : string :=
  match n, s with
  | S n', String _ r => drop n' r
  | _, _ => s
  end.

(** The third byte of a white-space character that starts with the
    bytes [a] and [b]: U+1680, U+2000 to U+200A, U+2028, U+2029, U+202F,
    U+205F, U+3000 and U+FEFF. *)
Definition ws_third (a b c : nat) : bool :=
  ((a =? 225) && (b =? 154) && (c =? 128))
  || ((a =? 226) && (b =? 128)
      && (((128 <=? c) && (c <=? 138)) || (c =? 168) || (c =? 169) || (c =? 175)))
  || ((a =? 226) && (b =? 129) && (c =? 159))
  || ((a =? 227) && (b =? 128) && (c =? 128))
  || ((a =? 239) && (b =? 187) && (c =? 191)).

(** The number of bytes of the white-space character or line terminator
    of ECMAScript that [s] starts with, [0] when it starts with none:
    the six of the ASCII range, U+00A0 and the ones of [ws_third]. *)
Definition ws_len (s : string) : nat :=
  match s with
  | EmptyString => 0
  | String a r =>
      if is_space a then 1
      else
        match r with
        | EmptyString => 0
        | String b r' =>
            if (nat_of_ascii a =? 194) && (nat_of_ascii b =? 160) then 2
            else
              match r' with
              | EmptyString => 0
              | String c _ =>
                  if ws_third (nat_of_ascii a) (nat_of_ascii b) (nat_of_ascii c)
                  then 3 else 0
              end
        end
  end.

(** [trimStart], with [skip] bytes of a white-space character still to
    be passed over. *)
Fixpoint trimStartFrom (skip : nat) (s : string) : string :=
  match s with
  | EmptyString => EmptyString
  | String _ r =>
      match skip with
      | S k => trimStartFrom k r
      | 0 =>
          match ws_len s with
          | 0 => s
          | S k => trimStartFrom k r
          end
      end
  end.

Definition trimStart (s : string) : string := trimStartFrom 0 s.

(** The text is cut where nothing but white space follows. *)
Fixpoint trimEnd (s : string) : string :=
  match s with
  | EmptyString => EmptyString
  | String c r =>
      match trimStart (String c (trimEnd r)) with
      | EmptyString => EmptyString
      | _ => String c (trimEnd r)
      end
  end.

(** [String.prototype.trim] *)
Definition trim (s : string) : string := trimEnd (trimStart s).

(** Truthiness of a string: the empty string is falsy. *)
Definition nonempty (s : string) : bool :=
  match s with EmptyString => false | _ => true end.

(** Truthiness of a value that is a string or [undefined]/[null]. *)
Definition truthy (v : option string) : bool :=
  match v with Some s => nonempty s | None => false end.

(** [a || b] on such values. *)
Definition or (a b : option string) : option string :=
  if truthy a then a else b.

(** [a || 'literal'] with a non-empty literal: always a string. *)
Definition or_default (a : option string) (d : string) : string :=
  match a with
  | Some s => if nonempty s then s else d
  | None => d
  end.

(** [array.includes(value)] on strings *)
Definition array_includes (arr : list string) (v : string) : bool :=
  existsb (String.eqb v) arr.

(** Decimal rendering of a number inside a template literal. *)
Fixpoint digits (fuel n : nat) (acc : string) : string :=
  let d := String (ascii_of_nat (48 + n mod 10)) acc in
  match fuel with
  | 0 => d
  | S fuel' => if n <? 10 then d else digits fuel' (n / 10) d
  end.

Definition of_nat (n : nat) : string := digits n n EmptyString.

Definition of_bool (b : bool) : string := if b then "true" else "false".

End JS.

(** ** Outcomes, errors and the trace *)

(** The [message] of a thrown [Error]. *)
Definition Error := string.

(** What an awaited call does: resolve with a value or reject. *)
Definition result (A : Type) : Type := (Error + A)%type.
Definition Ok {A} (a : A) : result A := inr a.
Definition Throw {A} (e : Error) : result A := inl e.

(** The object handed to [onComplete] and [onError]. *)
Record CallbackArg := {
  success : bool;
  message : option string;
  error : option string
}.

(** The value [handlePayment] returns. *)
Record PaymentResult := {
  pr_success : bool;
  pr_error : option string
}.

(** The value the error monitor resolves with. *)
Record MonitorResult := {
  errorFound : bool;
  errorMessage : string;
  timing : N
}.

(** Code run inside the page by [page.evaluate]. *)
Inductive Script := TimerSetup | SelectShip | TimerStop.

(** The element a call acts on. *)
Inductive Target :=
| OnPage (selector : string)             (* page.locator(sel), page.click(sel) *)
| InFrame (selector : string)            (* frame.locator(sel) *)
| PageFirst (selector : string)          (* page.locator(sel).first() *)
| PageNth (selector : string) (i : nat)  (* (await page.locator(sel).all())[i] *)
| FrameFirst (selector : string)         (* frame.locator(sel).first() *)
| FrameNth (selector : string) (i : nat) (* (await frame.locator(sel).all())[i] *).

#[local] Set Warnings "-register-all".

(** One entry of the trace: a call on the browser, a console line, a
    timer or a callback, in the order in which the script makes them.
    [Detached calls] stands for a promise that was started and that
    nobody awaits any more: [calls] are the calls it still makes, in
    their order, while the script goes on and after it has ended; where
    they fall among the entries that follow is not determined. *)
Inductive Event :=
| ConsoleLog (line : string)
| ConsoleError (line : string)
| Launch (headless : bool)
| NewPage
| Goto (url : string)
| Evaluate (s : Script)
| Click (t : Target)
| Fill (t : Target) (value : string)
| WaitForTimeout (ms : N)
| WaitForSelector (selector : string) (timeout : N)
| WaitFor (t : Target) (state : string) (timeout : N)
| IsVisible (t : Target)
| IsEnabled (t : Target)
| GetAttribute (t : Target) (name : string)
| TextContent (t : Target)
| LocatorAll (t : Target)
| ContentFrame
| MonitorStart
| SetTimeout (ms : N)
| Screenshot
| BrowserClose
| OnComplete (arg : CallbackArg)
| OnError (arg : CallbackArg)
| Detached (calls : list Event).

#[local] Set Warnings "+register-all".

Definition Trace := list Event.

(** ** The monad of asynchronous methods *)

Definition Run (A : Type) : Type := (Trace * result A)%type.

Definition trace {A} (m : Run A) : Trace := fst m.
Definition outcome {A} (m : Run A) : result A := snd m.

Definition run_ret {A} (a : A) : Run A := ([], Ok a).

Definition run_bind {A B} (m : Run A) (k : A -> Run B) : Run B :=
  match m with
  | (t, inr a) => let r := k a in ((t ++ fst r)%list, snd r)
  | (t, inl e) => (t, inl e)
  end.

#[global] Instance Monad_Run : Monad Run :=
  {| ret := @run_ret; bind := @run_bind |}.

(** [throw new Error(e)] and [try { m } catch (e) { h e }]. *)
Definition run_raise {A} (e : Error) : Run A := ([], Throw e).

Definition run_catch {A} (m : Run A) (h : Error -> Run A) : Run A :=
  match m with
  | (t, inr a) => (t, inr a)
  | (t, inl e) => let r := h e in ((t ++ fst r)%list, snd r)
  end.

#[global] Instance Exc_Run : MonadExc Error Run :=
  {| raise := @run_raise; catch := @run_catch |}.

(** [try { m } finally { f }]: [f] runs on both paths; an error of [f]
    replaces the outcome of [m]. *)
Definition finally {A} (m : Run A) (f : Run unit) : Run A :=
  match m, f with
  | (t, r), (tf, inr _) => ((t ++ tf)%list, r)
  | (t, _), (tf, inl e) => ((t ++ tf)%list, inl e)
  end.

(** A call on the browser: recorded, then answered by the page. *)
Definition call {A} (ev : Event) (r : result A) : Run A := ([ev], r).

(** [const p = m(); await c; ... await p]: the promise [p] of an
    asynchronous method runs up to its first call when it is created,
    before [c] is called, and makes the other calls while [c] is pending
    or after it.  When [c] resolves, [p] is awaited; when [c] rejects,
    the statement that awaits [p] is never reached and [p] is left
    running. *)
Definition startedBefore {A B} (p : Run A) (c : Run B) : Run A :=
  match c with
  | (tc, inr _) => ((firstn 1 (trace p) ++ tc ++ skipn 1 (trace p))%list, outcome p)
  | (tc, inl e) =>
      ((firstn 1 (trace p) ++ tc ++ [Detached (skipn 1 (trace p))])%list, inl e)
  end.

(** [console.log] and [console.error] *)
Definition log (line : string) : Run unit := ([ConsoleLog line], Ok tt).
Definition log_error (line : string) : Run unit := ([ConsoleError line], Ok tt).

(** ** The browser, as the page under test answers *)

(** An element handle: what each call on it answers. *)
Record Element := {
  el_waitFor : result unit;
  el_click : result unit;
  el_fill : string -> result unit;
  el_isVisible : result bool;
  el_isEnabled : result bool;
  el_getAttribute : string -> result (option string);
  el_textContent : result (option string)
}.

(** The content frame of the payment iframe. *)
Record Frame := {
  fr_first : string -> Element;
  fr_all : string -> result (list Element)
}.

(** The page.  [pg_all k sel] is what [page.locator(sel).all()] answers
    during the [k]-th check of the error monitor: the only call the
    script repeats over time on a changing page. *)
Record Page := {
  pg_goto : string -> result unit;
  pg_evaluate : Script -> result unit;
  pg_click : string -> result unit;
  pg_fill : string -> string -> result unit;
  pg_waitForTimeout : N -> result unit;
  pg_waitForSelector : string -> N -> result unit;
  pg_locator : string -> Element;
  pg_first : string -> Element;
  pg_contentFrame : result (option Frame);
  pg_all : nat -> string -> result (list Element);
  pg_screenshot : result unit
}.

Record Browser := {
  br_newPage : result Page;
  br_close : result unit
}.

(** [chromium.launch({ headless, args })] *)
Record Chromium := {
  launch : bool -> result Browser
}.

(** A located element: where it was found and what it answers. *)
Definition Locator : Type := (Target * Element)%type.

Module Pw.

Definition goto (page : Page) (url : string) : Run unit :=
  call (Goto url) (pg_goto page url).
Definition evaluate (page : Page) (s : Script) : Run unit :=
  call (Evaluate s) (pg_evaluate page s).
Definition click (page : Page) (sel : string) : Run unit :=
  call (Click (OnPage sel)) (pg_click page sel).
Definition fill (page : Page) (sel value : string) : Run unit :=
  call (Fill (OnPage sel) value) (pg_fill page sel value).
Definition waitForTimeout (page : Page) (ms : N) : Run unit :=
  call (WaitForTimeout ms) (pg_waitForTimeout page ms).
Definition waitForSelector (page : Page) (sel : string) (timeout : N) : Run unit :=
  call (WaitForSelector sel timeout) (pg_waitForSelector page sel timeout).
Definition screenshot (page : Page) : Run unit :=
  call Screenshot (pg_screenshot page).

Definition locator (page : Page) (sel : string) : Locator :=
  (OnPage sel, pg_locator page sel).
Definition first (page : Page) (sel : string) : Locator :=
  (PageFirst sel, pg_first page sel).
Definition frame_first (frame : Frame) (sel : string) : Locator :=
  (FrameFirst sel, fr_first frame sel).

Definition l_waitFor (l : Locator) (state : string) (timeout : N) : Run unit :=
  call (WaitFor (fst l) state timeout) (el_waitFor (snd l)).
Definition l_click (l : Locator) : Run unit :=
  call (Click (fst l)) (el_click (snd l)).
Definition l_fill (l : Locator) (value : string) : Run unit :=
  call (Fill (fst l) value) (el_fill (snd l) value).
Definition isVisible (l : Locator) : Run bool :=
  call (IsVisible (fst l)) (el_isVisible (snd l)).
Definition isEnabled (l : Locator) : Run bool :=
  call (IsEnabled (fst l)) (el_isEnabled (snd l)).
Definition getAttribute (l : Locator) (name : string) : Run (option string) :=
  call (GetAttribute (fst l) name) (el_getAttribute (snd l) name).
Definition textContent (l : Locator) : Run (option string) :=
  call (TextContent (fst l)) (el_textContent (snd l)).

End Pw.

(** ** The class FWGSCheckout *)

Definition Callback : Type := CallbackArg -> result unit.

Record UserInfo := {
  u_firstName : string; u_lastName : string; u_email : string; u_phone : string
}.

Record ShippingInfo := {
  s_firstName : string; s_lastName : string; s_address : string;
  s_city : string; s_zipCode : string
}.

Record PaymentInfo := {
  p_cardholderName : string; p_cardNumber : string; p_cvv : string;
  p_expiryDate : string
}.

Record FWGSCheckout := {
  productUrl : option string;
  userInfo : UserInfo;
  shippingInfo : ShippingInfo;
  paymentInfo : PaymentInfo;
  headless : bool;
  onComplete : option Callback;
  onError : option Callback
}.

(** The [options] object of the constructor; an absent key is [None]. *)
Record Options := {
  o_productUrl : option string;
  o_firstName : option string; o_lastName : option string;
  o_email : option string; o_phone : option string;
  o_address : option string; o_city : option string; o_zipCode : option string;
  o_cardholderName : option string; o_cardNumber : option string;
  o_cvv : option string; o_expiryDate : option string;
  o_headless : bool;
  o_onComplete : option Callback;
  o_onError : option Callback
}.

(** [process.env] *)
Definition Env : Type := string -> option string.

(** The assignments of the constructor, before it validates. *)
Definition init (options : Options) (env : Env) : FWGSCheckout :=
  let pick o key d := JS.or_default (JS.or o (env key)) d in
  {| productUrl := JS.or (o_productUrl options) (env "PRODUCT_URL");
     userInfo :=
       {| u_firstName := pick (o_firstName options) "CHECKOUT_FIRST_NAME" "TEST_FIRST";
          u_lastName := pick (o_lastName options) "CHECKOUT_LAST_NAME" "TEST_LAST";
          u_email := pick (o_email options) "CHECKOUT_EMAIL" "test@example.com";
          u_phone := pick (o_phone options) "CHECKOUT_PHONE" "1234567890" |};
     shippingInfo :=
       {| s_firstName := pick (o_firstName options) "CHECKOUT_FIRST_NAME" "TEST_FIRST";
          s_lastName := pick (o_lastName options) "CHECKOUT_LAST_NAME" "TEST_LAST";
          s_address := pick (o_address options) "CHECKOUT_ADDRESS" "520 CHESTNUT ST";
          s_city := pick (o_city options) "CHECKOUT_CITY" "PHILADELPHIA";
          s_zipCode := pick (o_zipCode options) "CHECKOUT_ZIP" "19106" |};
     paymentInfo :=
       {| p_cardholderName :=
            pick (o_cardholderName options) "CHECKOUT_CARDHOLDER_NAME" "TEST CARDHOLDER";
          p_cardNumber := pick (o_cardNumber options) "CHECKOUT_CARD_NUMBER" "4111111111111111";
          p_cvv := pick (o_cvv options) "CHECKOUT_CVV" "123";
          p_expiryDate := pick (o_expiryDate options) "CHECKOUT_EXPIRY" "12/25" |};
     headless :=
       o_headless options
       || match env "CHECKOUT_HEADLESS" with
          | Some v => String.eqb v "true"
          | None => false
          end
       || false;
     onComplete := o_onComplete options;
     onError := o_onError options |}.

Definition testValues : list string :=
  ["TEST_FIRST"; "TEST_LAST"; "test@example.com"; "1234567890"; "123 TEST ST";
   "TEST CITY"; "12345"; "TEST CARDHOLDER"; "4111111111111111"; "123"; "12/25"].

Definition currentValues (this : FWGSCheckout) : list string :=
  [u_firstName (userInfo this); u_lastName (userInfo this);
   u_email (userInfo this); u_phone (userInfo this);
   s_address (shippingInfo this); s_city (shippingInfo this);
   s_zipCode (shippingInfo this);
   p_cardholderName (paymentInfo this); p_cardNumber (paymentInfo this);
   p_cvv (paymentInfo this); p_expiryDate (paymentInfo this)].

Definition usingTestData (this : FWGSCheckout) : bool :=
  existsb (fun value => JS.array_includes testValues value) (currentValues this).

Definition warningLines : list string :=
  [JS.nl ++ "⚠️  WARNING: Using placeholder/test data for checkout!";
   "📝 To use real information, set these environment variables:";
   "   CHECKOUT_FIRST_NAME, CHECKOUT_LAST_NAME, CHECKOUT_EMAIL";
   "   CHECKOUT_PHONE, CHECKOUT_ADDRESS, CHECKOUT_CITY, CHECKOUT_ZIP";
   "   CHECKOUT_CARDHOLDER_NAME, CHECKOUT_CARD_NUMBER, CHECKOUT_CVV, CHECKOUT_EXPIRY";
   "🚫 This will likely result in checkout failure with test data." ++ JS.nl].

Definition okLine : string := "✅ Using configured personal information for checkout".

Fixpoint log_all (lines : list string) : Run unit :=
  match lines with
  | [] => ret tt
  | l :: rest => log l ;; log_all rest
  end.

Definition validateConfiguration (this : FWGSCheckout) : Run unit :=
  if usingTestData this then log_all warningLines else log okLine.

(** [new FWGSCheckout(options)] *)
Definition constructor (options : Options) (env : Env) : Run FWGSCheckout :=
  let this := init options env in
  validateConfiguration this ;;
  ret this.

(** *** Selectors *)

Module Sel.
Definition attr (tag name value : string) : string :=
  tag ++ "[" ++ name ++ "=" ++ JS.q value ++ "]".

Definition ageYes := attr "button" "aria-label" "Yes, Enter into the site".
Definition availability := "button.link:has-text(" ++ JS.q "Click to see availability" ++ ")".
Definition fulfillmentDialog :=
  "div[role=" ++ JS.q "dialog" ++ "][aria-labelledby=" ++ JS.q "fulfillmentMethod" ++ "]".
Definition addToCart := "div.pdp__container button.add-to-cart-button".
Definition cart := attr "button" "aria-label" "Cart".
Definition cartLink := "button.cart-link".
Definition checkoutButton := "button:has-text(" ++ JS.q "Checkout" ++ ")".
Definition checkoutAnchor := "a:has-text(" ++ JS.q "Checkout" ++ ")".
Definition contact (field : string) := attr "input" "id" ("contact_info_profile-" ++ field).
Definition submit :=
  attr "button" "type" "submit" ++ ":visible:not([disabled]):not(.address__button--hidden)".
Definition address (field : string) := attr "input" "id" ("standardOrderAddressForm-" ++ field).
Definition continueToPayment :=
  attr "button" "aria-label" "Continue to Payment" ++ ":not([disabled])".
Definition validationDialog :=
  "div[role=" ++ JS.q "dialog" ++ "][aria-labelledby=" ++ JS.q "validationModal" ++ "]".
Definition useThisAddress :=
  "div.shipping-modal__suggested-address button.button:has-text("
  ++ JS.q "Use this Address" ++ ")".
Definition cardholder := attr "input" "id" "input_general".
Definition iframe := "iframe".
Definition cardField :=
  attr "input" "type" "text" ++ ", " ++ attr "input" "type" "tel"
  ++ ", input:not([type=" ++ JS.q "hidden" ++ "])".
Definition input := "input".
Definition expDate := attr "input" "id" "expDate".
Definition placeOrder := attr "button" "id" "place-order-button".
End Sel.

(** *** Browser session and timer overlay *)

(** [page.setDefaultTimeout] and [page.setDefaultNavigationTimeout] are
    synchronous settings; they answer nothing. *)
Definition createBrowser (chromium : Chromium) (this : FWGSCheckout)
  : Run (Browser * Page) :=
  browser <- call (Launch (headless this)) (launch chromium (headless this)) ;;
  page <- call NewPage (br_newPage browser) ;;
  ret (browser, page).

Definition addSimpleTimer (page : Page) : Run unit :=
  catch (Pw.evaluate page TimerSetup)
        (fun _ => log "Timer setup failed, continuing without timer").

Definition stopTimer (page : Page) : Run unit :=
  catch (Pw.evaluate page TimerStop ;; log "⏰ Timer stopped")
        (fun _ => log "Timer stop failed, but continuing...").

(** *** Cart to checkout *)

(** The three ways to reach the checkout page, in declared order. *)
Definition strategyTargets : list string :=
  [Sel.cartLink; Sel.checkoutButton; Sel.checkoutAnchor].

Definition strategies (page : Page) : list (Run unit) :=
  map (fun sel => Pw.l_click (Pw.locator page sel)) strategyTargets.

(** The [for ... of strategies] loop; the result is [checkoutClicked]. *)
Fixpoint tryStrategies (strategies : list (Run unit)) : Run bool :=
  match strategies with
  | [] => ret false
  | strategy :: rest =>
      clicked <- catch (strategy ;; ret true) (fun _ => ret false) ;;
      if clicked then ret true else tryStrategies rest
  end.

Definition navigateToCheckout (page : Page) : Run unit :=
  Pw.click page Sel.cart ;;
  Pw.waitForTimeout page 2000%N ;;
  checkoutClicked <- tryStrategies (strategies page) ;;
  (if negb checkoutClicked
   then raise "Could not find checkout button"
   else ret tt) ;;
  Pw.waitForTimeout page 2000%N.

(** *** Contact and shipping forms *)

Definition fillContactInfo (page : Page) (this : FWGSCheckout) : Run unit :=
  log "📝 Filling contact info..." ;;
  Pw.waitForSelector page (Sel.contact "firstName") 8000%N ;;
  Pw.waitForTimeout page 1000%N ;;
  Pw.fill page (Sel.contact "firstName") (u_firstName (userInfo this)) ;;
  Pw.waitForTimeout page 150%N ;;
  Pw.fill page (Sel.contact "lastName") (u_lastName (userInfo this)) ;;
  Pw.waitForTimeout page 100%N ;;
  Pw.fill page (Sel.contact "email") (u_email (userInfo this)) ;;
  Pw.waitForTimeout page 50%N ;;
  Pw.fill page (Sel.contact "phoneNumber") (u_phone (userInfo this)) ;;
  Pw.waitForTimeout page 200%N ;;
  let submitButton := Pw.first page Sel.submit in
  Pw.l_waitFor submitButton "visible" 8000%N ;;
  Pw.l_click submitButton ;;
  Pw.waitForSelector page (Sel.address "firstName") 15000%N ;;
  log "✅ Contact info submitted successfully".

(** The optional address-validation step: the [try] block of
    [fillShippingInfo]. *)
Definition confirmSuggestedAddress (page : Page) : Run unit :=
  Pw.waitForSelector page Sel.validationDialog 8000%N ;;
  let useAddressButton := Pw.locator page Sel.useThisAddress in
  Pw.l_waitFor useAddressButton "visible" 4000%N ;;
  Pw.l_click useAddressButton ;;
  Pw.waitForTimeout page 3000%N.

(** The statements of [fillShippingInfo] up to the click on
    "Continue to Payment". *)
Definition submitShippingForm (page : Page) (this : FWGSCheckout) : Run unit :=
  log "🏠 Filling shipping address..." ;;
  let shippingForm := Pw.locator page (Sel.address "firstName") in
  Pw.l_waitFor shippingForm "visible" 8000%N ;;
  Pw.fill page (Sel.address "firstName") (s_firstName (shippingInfo this)) ;;
  Pw.waitForTimeout page 125%N ;;
  Pw.fill page (Sel.address "lastName") (s_lastName (shippingInfo this)) ;;
  Pw.waitForTimeout page 100%N ;;
  Pw.fill page (Sel.address "streetAddress") (s_address (shippingInfo this)) ;;
  Pw.waitForTimeout page 100%N ;;
  Pw.fill page (Sel.address "labelCity") (s_city (shippingInfo this)) ;;
  Pw.waitForTimeout page 150%N ;;
  Pw.fill page (Sel.address "labelZipCode") (s_zipCode (shippingInfo this)) ;;
  Pw.waitForTimeout page 100%N ;;
  let continueButton := Pw.locator page Sel.continueToPayment in
  Pw.l_waitFor continueButton "visible" 4000%N ;;
  Pw.l_click continueButton.

Definition fillShippingInfo (page : Page) (this : FWGSCheckout) : Run unit :=
  submitShippingForm page this ;;
  catch (confirmSuggestedAddress page)
        (fun _ => log "No address validation needed") ;;
  Pw.waitForSelector page Sel.cardholder 15000%N ;;
  log "✅ Shipping info submitted successfully".

(** *** Payment: card number, CVV, expiry *)

Definition openPaymentFrame (page : Page) (this : FWGSCheckout) : Run Frame :=
  log "💳 Processing payment..." ;;
  Pw.fill page Sel.cardholder (p_cardholderName (paymentInfo this)) ;;
  Pw.waitForTimeout page 300%N ;;
  let iframe := Pw.first page Sel.iframe in
  Pw.l_waitFor iframe "attached" 3000%N ;;
  Pw.waitForTimeout page 800%N ;;
  frame <- call ContentFrame (pg_contentFrame page) ;;
  match frame with
  | None => raise "Could not access iframe content"
  | Some frame => ret frame
  end.

Definition enterCardNumber (page : Page) (frame : Frame) (this : FWGSCheckout)
  : Run unit :=
  log "💳 Entering card number..." ;;
  let cardField := Pw.frame_first frame Sel.cardField in
  visible <- Pw.isVisible cardField ;;
  if visible : bool then
    Pw.l_click cardField ;;
    Pw.waitForTimeout page 200%N ;;
    Pw.l_fill cardField "" ;;
    Pw.waitForTimeout page 800%N ;;
    Pw.l_fill cardField (p_cardNumber (paymentInfo this)) ;;
    Pw.waitForTimeout page 400%N ;;
    log "✅ Card number entered"
  else ret tt.

(** [await input.getAttribute(name) || ''] *)
Definition attributeOrEmpty (l : Locator) (name : string) : Run string :=
  v <- Pw.getAttribute l name ;;
  ret (JS.or_default v "" : string).

(** The test that makes input [i] the CVV field. *)
Definition cvvCandidate (isVisible isEnabled : bool) (type : string) (i : nat) : bool :=
  isVisible && isEnabled && negb (String.eqb type "hidden") && (0 <? i).

(** The body of the [try] block for [allInputs[i]]; [true] when the CVV
    was entered (the iteration that sets [cvvEntered] and breaks). *)
Definition tryInput (page : Page) (cvv : string) (i : nat) (el : Element) : Run bool :=
  let input : Locator := (FrameNth Sel.input i, el) in
  isVisible <- Pw.isVisible input ;;
  isEnabled <- Pw.isEnabled input ;;
  type <- attributeOrEmpty input "type" ;;
  name <- attributeOrEmpty input "name" ;;
  id <- attributeOrEmpty input "id" ;;
  log ("Input " ++ JS.of_nat i ++ ": visible=" ++ JS.of_bool isVisible
       ++ ", enabled=" ++ JS.of_bool isEnabled ++ ", type=" ++ JS.q type
       ++ ", name=" ++ JS.q name ++ ", id=" ++ JS.q id) ;;
  if cvvCandidate isVisible isEnabled type i then
    Pw.l_click input ;;
    Pw.waitForTimeout page 300%N ;;
    Pw.l_fill input "" ;;
    Pw.waitForTimeout page 200%N ;;
    Pw.l_fill input cvv ;;
    Pw.waitForTimeout page 400%N ;;
    log ("✅ CVV entered in field " ++ JS.of_nat i) ;;
    ret true
  else ret false.

(** The loop over [allInputs], from index [i] on.  The result is the
    index of the field in which the CVV was entered ([cvvEntered = true]),
    or [None] when the loop ends with [cvvEntered = false]. *)
Fixpoint cvvLoop (page : Page) (cvv : string) (i : nat) (allInputs : list Element)
  : Run (option nat) :=
  match allInputs with
  | [] => ret None
  | el :: rest =>
      entered <- catch (tryInput page cvv i el)
                       (fun e => log ("Skipping input " ++ JS.of_nat i ++ ": " ++ e) ;;
                                 ret false) ;;
      if entered : bool then ret (Some i) else cvvLoop page cvv (S i) rest
  end.

Definition cvvSelectors : list string :=
  ["input[placeholder*=" ++ JS.q "CVV" ++ "]";
   "input[placeholder*=" ++ JS.q "CVC" ++ "]";
   "input[placeholder*=" ++ JS.q "Security" ++ "]";
   "input[maxlength=" ++ JS.q "3" ++ "]";
   "input[maxlength=" ++ JS.q "4" ++ "]"].

Definition tryCvvSelector (page : Page) (frame : Frame) (cvv selector : string)
  : Run bool :=
  let cvvField := Pw.frame_first frame selector in
  visible <- Pw.isVisible cvvField ;;
  if visible : bool then
    Pw.l_click cvvField ;;
    Pw.waitForTimeout page 300%N ;;
    Pw.l_fill cvvField cvv ;;
    Pw.waitForTimeout page 300%N ;;
    log ("✅ CVV entered using selector: " ++ selector) ;;
    ret true
  else ret false.

(** The loop over [cvvSelectors]; the result is [cvvEntered]. *)
Fixpoint cvvFallback (page : Page) (frame : Frame) (cvv : string)
         (selectors : list string) : Run bool :=
  match selectors with
  | [] => ret false
  | selector :: rest =>
      entered <- catch (tryCvvSelector page frame cvv selector) (fun _ => ret false) ;;
      if entered : bool then ret true else cvvFallback page frame cvv rest
  end.

(** The CVV part of [handlePayment]; the result is the index of the
    input the first loop chose, if any, and the final [cvvEntered]. *)
Definition enterCvv (page : Page) (frame : Frame) (this : FWGSCheckout)
  : Run (option nat * bool) :=
  log "🔐 Entering CVV..." ;;
  allInputs <- call (LocatorAll (InFrame Sel.input)) (fr_all frame Sel.input) ;;
  log ("Found " ++ JS.of_nat (length allInputs) ++ " input fields in iframe") ;;
  chosen <- cvvLoop page (p_cvv (paymentInfo this)) 0 allInputs ;;
  cvvEntered <-
    match chosen with
    | Some _ => ret true
    | None =>
        log "⚠️ Could not find CVV field, trying alternative selectors..." ;;
        cvvFallback page frame (p_cvv (paymentInfo this)) cvvSelectors
    end ;;
  (if negb cvvEntered
   then log "⚠️ Warning: Could not enter CVV, continuing anyway..."
   else ret tt) ;;
  ret (chosen, cvvEntered).

Definition enterExpiry (page : Page) (this : FWGSCheckout) : Run unit :=
  log "📅 Entering expiry date..." ;;
  let expiryField := Pw.locator page Sel.expDate in
  Pw.l_click expiryField ;;
  Pw.waitForTimeout page 300%N ;;
  Pw.l_fill expiryField (p_expiryDate (paymentInfo this)) ;;
  Pw.waitForTimeout page 300%N ;;
  log "✅ Expiry date entered".

(** *** The error monitor *)

Definition maxChecks : nat := 50.

Definition errorSelectors : list string :=
  [".payment-error"; ".card-error"; ".error-message"; "[role=" ++ JS.q "alert" ++ "]"].

Definition errorKeywords : list string := ["invalid"; "declined"; "error"; "failed"].

(** [text.toLowerCase().includes('invalid') || ... || ...includes('failed')] *)
Definition hasErrorKeyword (text : string) : bool :=
  existsb (fun kw => JS.includes kw (JS.toLowerCase text)) errorKeywords.

(** [text && text.trim() && (...)], on the answer of [textContent()]. *)
Definition isErrorText (text : option string) : bool :=
  match text with
  | Some text => JS.nonempty text && JS.nonempty (JS.trim text) && hasErrorKeyword text
  | None => false
  end.

(** The inner loop over [errorElements], from index [i] on; [Some m] is
    the early exit with [errorMessage = m]. *)
Fixpoint scanElements (selector : string) (i : nat) (errorElements : list Element)
  : Run (option string) :=
  match errorElements with
  | [] => ret None
  | el :: rest =>
      let errorEl : Locator := (PageNth selector i, el) in
      visible <- Pw.isVisible errorEl ;;
      if visible : bool then
        text <- Pw.textContent errorEl ;;
        if isErrorText text
        then ret (Some (JS.trim (JS.or_default text "")))
        else scanElements selector (S i) rest
      else scanElements selector (S i) rest
  end.

(** The outer loop over [errorSelectors], during check number [k]. *)
Fixpoint scanSelectors (page : Page) (k : nat) (selectors : list string)
  : Run (option string) :=
  match selectors with
  | [] => ret None
  | selector :: rest =>
      errorElements <- call (LocatorAll (OnPage selector)) (pg_all page k selector) ;;
      found <- scanElements selector 0 errorElements ;;
      match found with
      | Some m => ret (Some m)
      | None => scanSelectors page k rest
      end
  end.

(** One scan of the page: the [try] block of [checkForErrors].  A call
    that rejects ends the scan like a scan without a match: both paths
    go on to [setTimeout(checkForErrors, 200)]. *)
Definition scanPage (page : Page) (k : nat) : Run (option string) :=
  catch (scanSelectors page k errorSelectors) (fun _ => ret None).

(** [checkForErrors], with the variables of the enclosing promise
    ([errorFound], [errorMessage], [checkCount]) as arguments; the value
    is what the promise resolves with. *)
#[local] Opaque maxChecks.
Equations? checkForErrors (page : Page) (errorFound : bool) (errorMessage : string)
           (checkCount : nat) : Run MonitorResult
  by wf (maxChecks - checkCount) lt :=
  checkForErrors page errorFound errorMessage checkCount
    with sumbool_of_bool (errorFound || (maxChecks <=? checkCount)) := {
    | left _ =>
        ret {| errorFound := errorFound; errorMessage := errorMessage;
               timing := N.of_nat checkCount * 200 |}
    | right Hgo =>
        run_bind (scanPage page (S checkCount)) (fun found =>
        match found with
        | Some text =>
            run_bind (log ("🚨 Payment error detected: " ++ JS.q text)) (fun _ =>
            ret {| errorFound := true; errorMessage := text;
                   timing := N.of_nat (S checkCount) * 200 |})
        | None =>
            run_bind (call (SetTimeout 200) (Ok tt)) (fun _ =>
            checkForErrors page errorFound errorMessage (S checkCount))
        end)
    }.
Proof.
  apply orb_false_iff in Hgo. destruct Hgo as [_ Hgo].
  apply Nat.leb_gt in Hgo. lia.
Qed.
#[local] Transparent maxChecks.

Definition monitorPaymentErrors (page : Page) : Run MonitorResult :=
  checkForErrors page false "" 0.

(** *** Placing the order *)

Definition paymentCompleted : Run PaymentResult :=
  log "✅ Payment processing completed" ;;
  ret {| pr_success := true; pr_error := None |}.

(** The monitor is created before the click and awaited after it: the
    lookup of its first check is made before the click, its other calls
    after the click is made, and when the click rejects the monitor
    goes on unawaited. *)
Definition placeOrder (page : Page) (this : FWGSCheckout) : Run PaymentResult :=
  let placeOrderButton := Pw.locator page Sel.placeOrder in
  Pw.l_waitFor placeOrderButton "visible" 2000%N ;;
  enabled <- Pw.isEnabled placeOrderButton ;;
  if enabled : bool then
    log "🎯 Placing order..." ;;
    call MonitorStart (Ok tt) ;;
    result <- startedBefore (monitorPaymentErrors page) (Pw.l_click placeOrderButton) ;;
    if errorFound result then
      stopTimer page ;;
      log ("❌ Payment failed: " ++ errorMessage result) ;;
      ret {| pr_success := false; pr_error := Some (errorMessage result) |}
    else paymentCompleted
  else paymentCompleted.

(** The statements of [handlePayment] from the card number to the
    expiry date, once it holds the frame. *)
Definition enterCardDetails (page : Page) (frame : Frame) (this : FWGSCheckout)
  : Run unit :=
  enterCardNumber page frame this ;;
  enterCvv page frame this ;;
  enterExpiry page this.

(** The statements of [handlePayment] before the place-order block. *)
Definition enterPaymentDetails (page : Page) (this : FWGSCheckout) : Run unit :=
  frame <- openPaymentFrame page this ;;
  enterCardDetails page frame this.

Definition handlePayment (page : Page) (this : FWGSCheckout) : Run PaymentResult :=
  enterPaymentDetails page this ;;
  placeOrder page this.

(** *** The run *)

(** From the product page to the cart: the first statements of the
    [try] block of [executeCheckout]. *)
Definition addToCart (page : Page) (url : string) : Run unit :=
  Pw.goto page url ;;
  addSimpleTimer page ;;
  log "🔞 Handling age verification..." ;;
  Pw.click page Sel.ageYes ;;
  Pw.waitForTimeout page 300%N ;;
  log "📦 Checking availability and selecting shipping..." ;;
  Pw.click page Sel.availability ;;
  Pw.waitForSelector page Sel.fulfillmentDialog 3000%N ;;
  Pw.evaluate page SelectShip ;;
  log "🛒 Adding to cart..." ;;
  Pw.click page Sel.addToCart ;;
  Pw.waitForTimeout page 500%N.

(** [if (this.onComplete) await this.onComplete(arg)], and the same for
    [onError]. *)
Definition notify (ev : CallbackArg -> Event) (cb : option Callback) (arg : CallbackArg)
  : Run unit :=
  match cb with
  | Some f => call (ev arg) (f arg)
  | None => ret tt
  end.

Definition completedArg : CallbackArg :=
  {| success := true; message := Some "Checkout completed"; error := None |}.

Definition failedArg (e : Error) : CallbackArg :=
  {| success := false; message := None; error := Some e |}.

(** The [try] block up to [fillContactInfo]. *)
Definition reachShipping (page : Page) (url : string) (this : FWGSCheckout) : Run unit :=
  addToCart page url ;;
  log "🛒 Opening cart..." ;;
  navigateToCheckout page ;;
  fillContactInfo page this.

(** The [try] block up to [fillShippingInfo]. *)
Definition reachPayment (page : Page) (url : string) (this : FWGSCheckout) : Run unit :=
  reachShipping page url this ;;
  fillShippingInfo page this.

(** The stages of the funnel: the [try] block up to [handlePayment]. *)
Definition funnel (page : Page) (url : string) (this : FWGSCheckout)
  : Run PaymentResult :=
  reachPayment page url this ;;
  handlePayment page this.

(** The [try] block: the value [handlePayment] returns is dropped. *)
Definition checkoutSteps (page : Page) (url : string) (this : FWGSCheckout) : Run unit :=
  funnel page url this ;;
  notify OnComplete (onComplete this) completedArg.

(** The [catch] block. *)
Definition reportFailure (page : Page) (this : FWGSCheckout) (e : Error) : Run unit :=
  log_error ("❌ Checkout Error: " ++ e) ;;
  Pw.screenshot page ;;
  notify OnError (onError this) (failedArg e) ;;
  raise e.

(** The [try]/[catch] statement. *)
Definition guardedSteps (page : Page) (url : string) (this : FWGSCheckout) : Run unit :=
  catch (checkoutSteps page url this) (reportFailure page this).

Definition missingUrl : Error :=
  "Product URL is required. Set PRODUCT_URL environment variable or pass productUrl option.".

Definition executeCheckout (chromium : Chromium) (this : FWGSCheckout) : Run unit :=
  match productUrl this with
  | Some url =>
      if JS.nonempty url then
        log ("🎯 Starting checkout for: " ++ url) ;;
        bp <- createBrowser chromium this ;;
        let '(browser, page) := bp in
        finally (guardedSteps page url this)
                (call BrowserClose (br_close browser))
      else raise missingUrl
  | None => raise missingUrl
  end.

(** ** Pages for concrete runs *)

Module Scenario.

(** An element that is there, visible and enabled, and accepts every
    action. *)
Definition present : Element :=
  {| el_waitFor := Ok tt; el_click := Ok tt; el_fill := fun _ => Ok tt;
     el_isVisible := Ok true; el_isEnabled := Ok true;
     el_getAttribute := fun _ => Ok None; el_textContent := Ok None |}.

(** An element that is not on the page: probes answer [false], actions
    time out. *)
Definition absent : Element :=
  {| el_waitFor := Throw "Timeout exceeded"; el_click := Throw "Timeout exceeded";
     el_fill := fun _ => Throw "Timeout exceeded";
     el_isVisible := Ok false; el_isEnabled := Throw "Timeout exceeded";
     el_getAttribute := fun _ => Throw "Timeout exceeded";
     el_textContent := Throw "Timeout exceeded" |}.

(** [<input type="text">], visible and enabled. *)
Definition textInput : Element :=
  {| el_waitFor := Ok tt; el_click := Ok tt; el_fill := fun _ => Ok tt;
     el_isVisible := Ok true; el_isEnabled := Ok true;
     el_getAttribute := fun name => Ok (if String.eqb name "type" then Some "text" else None);
     el_textContent := Ok None |}.

(** [<input type="hidden">]: not visible, not actionable. *)
Definition hiddenInput : Element :=
  {| el_waitFor := Throw "Timeout exceeded"; el_click := Throw "Timeout exceeded";
     el_fill := fun _ => Throw "Timeout exceeded";
     el_isVisible := Ok false; el_isEnabled := Ok true;
     el_getAttribute := fun name => Ok (if String.eqb name "type" then Some "hidden" else None);
     el_textContent := Ok None |}.

(** A visible banner with the given text. *)
Definition banner (text : string) : Element :=
  {| el_waitFor := Ok tt; el_click := Ok tt; el_fill := fun _ => Throw "Not an input";
     el_isVisible := Ok true; el_isEnabled := Ok true;
     el_getAttribute := fun _ => Ok None; el_textContent := Ok (Some text) |}.

(** The payment frame with the given inputs; the first one that is not
    of type hidden answers for the card-field selector, no input
    matches the placeholder and maxlength selectors. *)
Definition frameOf (inputs : list Element) : Frame :=
  {| fr_first := fun sel =>
       if String.eqb sel Sel.cardField
       then hd absent (filter (fun el =>
              match el_getAttribute el "type" with
              | inr (Some "hidden") => false
              | _ => true
              end) inputs)
       else absent;
     fr_all := fun _ => Ok inputs |}.

(** A page on which every step of the funnel succeeds, without an
    address-validation dialog; [alerts k sel] is what the lookup of
    [sel] answers during check [k] of the error monitor, and
    [placeOrderButton] is the place-order button. *)
Definition shop (inputs : list Element) (placeOrderButton : Element)
           (alerts : nat -> string -> result (list Element)) : Page :=
  {| pg_goto := fun _ => Ok tt;
     pg_evaluate := fun _ => Ok tt;
     pg_click := fun _ => Ok tt;
     pg_fill := fun _ _ => Ok tt;
     pg_waitForTimeout := fun _ => Ok tt;
     pg_waitForSelector := fun sel _ =>
       if String.eqb sel Sel.validationDialog then Throw "Timeout 8000ms exceeded" else Ok tt;
     pg_locator := fun sel =>
       if String.eqb sel Sel.placeOrder then placeOrderButton
       else if String.eqb sel Sel.useThisAddress then absent
       else present;
     pg_first := fun _ => present;
     pg_contentFrame := Ok (Some (frameOf inputs));
     pg_all := alerts;
     pg_screenshot := Ok tt |}.

Definition chromiumFor (page : Page) : Chromium :=
  {| launch := fun _ => Ok {| br_newPage := Ok page; br_close := Ok tt |} |}.

Definition noAlerts : nat -> string -> result (list Element) := fun _ _ => Ok [].

(** "Card declined" shows up in [.payment-error] from check 5 on. *)
Definition declinedAt5 : nat -> string -> result (list Element) :=
  fun k sel =>
    if (5 <=? k) && String.eqb sel ".payment-error"
    then Ok [banner "Card declined"] else Ok [].




(** The place-order button, visible but disabled. *)
Definition disabledButton : Element :=
  {| el_waitFor := Ok tt; el_click := Throw "Element is not enabled";
     el_fill := fun _ => Throw "Not an input";
     el_isVisible := Ok true; el_isEnabled := Ok false;
     el_getAttribute := fun _ => Ok None; el_textContent := Ok None |}.

(** The place-order button under an overlay: visible and enabled, but
    the click on it times out. *)
Definition coveredButton : Element :=
  {| el_waitFor := Ok tt; el_click := Throw "Timeout 30000ms exceeded";
     el_fill := fun _ => Throw "Not an input";
     el_isVisible := Ok true; el_isEnabled := Ok true;
     el_getAttribute := fun _ => Ok None; el_textContent := Ok None |}.

(** The same page with other answers of [page.locator(sel)]. *)
Definition withLocator (page : Page) (loc : string -> Element) : Page :=
  {| pg_goto := pg_goto page; pg_evaluate := pg_evaluate page;
     pg_click := pg_click page; pg_fill := pg_fill page;
     pg_waitForTimeout := pg_waitForTimeout page;
     pg_waitForSelector := pg_waitForSelector page;
     pg_locator := loc; pg_first := pg_first page;
     pg_contentFrame := pg_contentFrame page;
     pg_all := pg_all page; pg_screenshot := pg_screenshot page |}.

(** The inputs of the example: hidden, text, text, hidden. *)
Definition exampleInputs : list Element :=
  [hiddenInput; textInput; textInput; hiddenInput].

Definition cardForm : list Element := [textInput; textInput].

Definition buyer : Options :=
  {| o_productUrl := Some "https://www.finewineandgoodspirits.com/product/1";
     o_firstName := Some "Ada"; o_lastName := Some "Lovelace";
     o_email := Some "ada@example.org"; o_phone := Some "2155550100";
     o_address := Some "1 Main St"; o_city := Some "Pittsburgh";
     o_zipCode := Some "15222";
     o_cardholderName := Some "Ada Lovelace";
     o_cardNumber := Some "5555555555554444";
     o_cvv := Some "737"; o_expiryDate := Some "03/30";
     o_headless := true;
     o_onComplete := Some (fun _ => Ok tt);
     o_onError := Some (fun _ => Ok tt) |}.

Definition noEnv : Env := fun _ => None.

(** The same options without a product URL. *)
Definition buyerWithoutUrl : Options :=
  {| o_productUrl := None;
     o_firstName := o_firstName buyer; o_lastName := o_lastName buyer;
     o_email := o_email buyer; o_phone := o_phone buyer;
     o_address := o_address buyer; o_city := o_city buyer;
     o_zipCode := o_zipCode buyer;
     o_cardholderName := o_cardholderName buyer;
     o_cardNumber := o_cardNumber buyer;
     o_cvv := o_cvv buyer; o_expiryDate := o_expiryDate buyer;
     o_headless := true;
     o_onComplete := o_onComplete buyer;
     o_onError := o_onError buyer |}.

(** The same request without the buyer's data: the constructor falls
    back on its placeholders. *)
Definition placeholderBuyer : Options :=
  {| o_productUrl := o_productUrl buyer;
     o_firstName := None; o_lastName := None; o_email := None; o_phone := None;
     o_address := None; o_city := None; o_zipCode := None;
     o_cardholderName := None; o_cardNumber := None;
     o_cvv := None; o_expiryDate := None;
     o_headless := true;
     o_onComplete := o_onComplete buyer;
     o_onError := o_onError buyer |}.

(** The checkout object of [buyer]. *)
Definition checkout : FWGSCheckout := init buyer noEnv.

(** The shop in which the payment is declined at check 5. *)
Definition decliningShop : Page := shop cardForm present declinedAt5.

(** The shop without any error banner. *)
Definition quietShop : Page := shop cardForm present noAlerts.

(** The shop whose place-order button cannot be clicked. *)
Definition coveredButtonShop : Page := shop cardForm coveredButton noAlerts.


(** The shop in which only the third way to the checkout works. *)
Definition anchorOnlyShop : Page :=
  withLocator quietShop (fun sel =>
    if String.eqb sel Sel.cartLink || String.eqb sel Sel.checkoutButton
    then absent else pg_locator quietShop sel).

End Scenario.

(** ** Predicates on traces *)

(** [emits P m]: every entry of the trace of [m] satisfies [P]. *)
Definition emits (P : Event -> bool) {A} (m : Run A) : Prop :=
  forallb P (trace m) = true.

(** Entries the loops of the script may leave: anything but the
    callbacks, the session calls, the start of the monitor and clicks
    addressed to the page by selector. *)
Definition loopEvent (ev : Event) : bool :=
  match ev with
  | OnComplete _ | OnError _ | BrowserClose | Screenshot | Launch _ | NewPage
  | MonitorStart | Goto _ | Click (OnPage _) | Detached _ => false
  | _ => true
  end.

(** Entries of the script itself: anything but the calls of a promise
    that was left running. *)
Definition settled (ev : Event) : bool :=
  match ev with Detached _ => false | _ => true end.

(** Entries a stage of the funnel may leave: anything but the callbacks,
    the screenshot and the session calls. *)
Definition stageEvent (ev : Event) : bool :=
  match ev with
  | OnComplete _ | OnError _ | BrowserClose | Screenshot | Launch _ | NewPage => false
  | _ => true
  end.

(** Entries that may come before the place-order block: those of a
    stage, except the start of the monitor and a click on the
    place-order button. *)
Definition beforeOrderEvent (ev : Event) : bool :=
  stageEvent ev &&
  match ev with
  | MonitorStart => false
  | Click (OnPage sel) => negb (String.eqb sel Sel.placeOrder)
  | _ => true
  end.

(** Entries the error monitor may leave: lookups and probes of page
    elements, its console line and its timer, always set to 200 ms. *)
Definition monitorEvent (ev : Event) : bool :=
  match ev with
  | LocatorAll (OnPage _) | IsVisible (PageNth _ _) | TextContent (PageNth _ _)
  | ConsoleLog _ => true
  | SetTimeout ms => N.eqb ms 200
  | _ => false
  end.

(** Entries the scan of one list of elements may leave. *)
Definition probeEvent (ev : Event) : bool :=
  match ev with
  | IsVisible (PageNth _ _) | TextContent (PageNth _ _) => true
  | _ => false
  end.

(** The lookup that opens a check of the monitor: the first selector. *)
Definition checkStart (ev : Event) : bool :=
  match ev with
  | LocatorAll (OnPage sel) => String.eqb sel ".payment-error"
  | _ => false
  end.

(** How often an entry that satisfies [P] occurs. *)
Definition count (P : Event -> bool) (t : Trace) : nat := length (filter P t).

Definition isOnComplete (ev : Event) : bool :=
  match ev with OnComplete _ => true | _ => false end.
Definition isOnError (ev : Event) : bool :=
  match ev with OnError _ => true | _ => false end.
Definition isBrowserClose (ev : Event) : bool :=
  match ev with BrowserClose => true | _ => false end.

(** ** What the page shows to the error monitor *)

(** An element shows an error with [text]: it is visible and its text
    is not empty and holds one of the keywords, whatever the case. *)
Definition showsError (el : Element) (text : string) : Prop :=
  el_isVisible el = Ok true
  /\ el_textContent el = Ok (Some text)
  /\ text <> ""
  /\ hasErrorKeyword text = true.

Definition showsErrorb (el : Element) : bool :=
  match el_isVisible el, el_textContent el with
  | inr true, inr (Some text) => JS.nonempty text && hasErrorKeyword text
  | _, _ => false
  end.

(** The text of an element that answers [textContent()] with a string. *)
Definition textOf (el : Element) : string :=
  match el_textContent el with
  | inr (Some text) => text
  | _ => ""
  end.

(** The elements the error selectors match during check [k], in the
    order of the scan. *)
Definition errorElementsAt (page : Page) (k : nat) : list Element :=
  flat_map (fun sel => match pg_all page k sel with
                       | inr els => els
                       | inl _ => []
                       end) errorSelectors.

(** During check [k] every call of the scan is answered: the lookups,
    the visibility probe of each element and the text of each visible
    one. *)
Definition answersAt (page : Page) (k : nat) : Prop :=
  forall sel, In sel errorSelectors ->
    exists els, pg_all page k sel = Ok els
      /\ Forall (fun el => exists v, el_isVisible el = Ok v
                 /\ (v = true -> exists t, el_textContent el = Ok t)) els.

(** Every call that the scan of check [k] makes is answered: the [try]
    block of [checkForErrors] gets to a match or to the end of the
    selectors, and not to its [catch].  Calls the scan does not make,
    behind a match, are not asked about. *)
Definition scanCompletes (page : Page) (k : nat) : Prop :=
  exists found, outcome (scanSelectors page k errorSelectors) = Ok found.

(** The first of the checks [c+1 .. c+n] whose scan ends with a match,
    and the message of that match. *)
Fixpoint firstMatch (page : Page) (c n : nat) : option (nat * string) :=
  match n with
  | 0 => None
  | S n' =>
      match outcome (scanPage page (S c)) with
      | inr (Some m) => Some (S c, m)
      | _ => firstMatch page (S c) n'
      end
  end.

(** What the monitor resolves with when it is not interrupted. *)
Definition unconfirmed : MonitorResult :=
  {| errorFound := false; errorMessage := ""; timing := 10000 |}.

(** ** Auxiliary notions of the statements *)

(** An entry without the text that was typed. *)
Definition erase (ev : Event) : Event :=
  match ev with
  | Fill t _ => Fill t ""
  | _ => ev
  end.

(** Two runs proceed alike: they make the same calls in the same order,
    up to the texts typed into the fields, and end alike. *)
Definition sameCourse {A} (m1 m2 : Run A) : Prop :=
  outcome m1 = outcome m2 /\ map erase (trace m1) = map erase (trace m2).

(** Two checkout objects for the same request: they differ in the
    buyer's contact, shipping and payment data at most. *)
Definition sameRequest (this other : FWGSCheckout) : Prop :=
  productUrl this = productUrl other /\ headless this = headless other
  /\ onComplete this = onComplete other /\ onError this = onError other.

(** [fill] succeeds or fails on the state of the field, not on the text
    it is given: the answer is the same for every text. *)
Definition takesAnyText (el : Element) : Prop :=
  forall v w, el_fill el v = el_fill el w.

Definition frameTakesAnyText (frame : Frame) : Prop :=
  (forall sel, takesAnyText (fr_first frame sel))
  /\ (forall sel els, fr_all frame sel = Ok els -> Forall takesAnyText els).

Definition pageTakesAnyText (page : Page) : Prop :=
  (forall sel v w, pg_fill page sel v = pg_fill page sel w)
  /\ (forall sel, takesAnyText (pg_locator page sel))
  /\ (forall frame, pg_contentFrame page = Ok (Some frame) -> frameTakesAnyText frame).

(** The same of the page of the browser that [chromium.launch] gives. *)
Definition browserTakesAnyText (chromium : Chromium) (h : bool) : Prop :=
  forall browser page,
    launch chromium h = Ok browser -> br_newPage browser = Ok page ->
    pageTakesAnyText page.

(** Waiting for the payment page: the last statements of
    [fillShippingInfo]. *)
Definition awaitPaymentPage (page : Page) : Run unit :=
  Pw.waitForSelector page Sel.cardholder 15000%N ;;
  log "✅ Shipping info submitted successfully".

(** The clicks of the first [n] strategies. *)
Definition strategyClicks (n : nat) : Trace :=
  map (fun sel => Click (OnPage sel)) (firstn n strategyTargets).

(** The CVV and expiry statements that follow the card-number block. *)
Definition afterCardNumber (page : Page) (frame : Frame) (this : FWGSCheckout)
  : Run unit :=
  enterCvv page frame this ;;
  enterExpiry page this.

(** The test of the loop on the answers of input [i]: [false] when a
    probe of the test rejects. *)
Definition cvvEligible (i : nat) (el : Element) : bool :=
  match el_isVisible el, el_isEnabled el, el_getAttribute el "type" with
  | inr v, inr e, inr ty => cvvCandidate v e (JS.or_default ty "") i
  | _, _, _ => false
  end.

(** The input answers the five probes of the loop. *)
Definition inputAnswers (el : Element) : Prop :=
  (exists v, el_isVisible el = Ok v)
  /\ (exists e, el_isEnabled el = Ok e)
  /\ (exists a, el_getAttribute el "type" = Ok a)
  /\ (exists a, el_getAttribute el "name" = Ok a)
  /\ (exists a, el_getAttribute el "id" = Ok a).

(** The input takes the click and the two fills of the loop. *)
Definition inputAccepts (cvv : string) (el : Element) : Prop :=
  el_click el = Ok tt /\ el_fill el "" = Ok tt /\ el_fill el cvv = Ok tt.

(** The pauses of the loop resolve. *)
Definition pausesResolve (page : Page) : Prop :=
  pg_waitForTimeout page 300%N = Ok tt
  /\ pg_waitForTimeout page 200%N = Ok tt
  /\ pg_waitForTimeout page 400%N = Ok tt.

(** Input [i] is one the loop may take for the CVV: not the first, visible,
    enabled and not of type hidden. *)
Definition cvvField (i : nat) (el : Element) : Prop :=
  1 <= i /\ el_isVisible el = Ok true /\ el_isEnabled el = Ok true
  /\ exists ty, el_getAttribute el "type" = Ok ty /\ JS.or_default ty "" <> "hidden".

(** A byte that a white-space character can hold: white space of the
    ASCII range, or a byte outside ASCII. *)
Definition ws_byte (c : ascii) : bool :=
  JS.is_space c || (128 <=? nat_of_ascii c).

(** The string holds such bytes only, as a string of white space does. *)
Fixpoint all_space (s : string) : bool :=
  match s with
  | EmptyString => true
  | String c r => ws_byte c && all_space r
  end.

(** Elements that answer their probes. *)
Definition answering (el : Element) : Prop :=
  exists v, el_isVisible el = Ok v /\ (v = true -> exists t, el_textContent el = Ok t).

(** The index that the loop chooses on inputs that answer and accept:
    the first one that passes the test. *)
Fixpoint firstEligible (i : nat) (inputs : list Element) : option nat :=
  match inputs with
  | [] => None
  | el :: rest => if cvvEligible i el then Some i else firstEligible (S i) rest
  end.

(** What the monitor resolves with. *)
Definition monitorOutcome (page : Page) (msg : string) (c n : nat) : MonitorResult :=
  match firstMatch page c n with
  | Some (k, m) =>
      {| errorFound := true; errorMessage := m; timing := N.of_nat k * 200 |}
  | None =>
      {| errorFound := false; errorMessage := msg;
         timing := N.of_nat maxChecks * 200 |}
  end.

(** How many checks the monitor makes. *)
Definition monitorChecks (page : Page) (c n : nat) : nat :=
  match firstMatch page c n with
  | Some (k, _) => k - c
  | None => n
  end.

(** A timer set by the monitor. *)
Definition isTimer (ev : Event) : bool :=
  match ev with SetTimeout _ => true | _ => false end.

(** An entry of a check after its first lookup. *)
Definition insideCheck (ev : Event) : bool :=
  negb (checkStart ev) && negb (isTimer ev).

(** The calls of the checks [c+1 .. c+n]: the scan of a check, then the
    console line of the match that ends the poll, or the timer that
    leads to the next check. *)
Fixpoint pollTrace (page : Page) (c n : nat) : Trace :=
  match n with
  | 0 => []
  | S n' =>
      (trace (scanPage page (S c))
       ++ match outcome (scanPage page (S c)) with
          | inr (Some m) => [ConsoleLog ("🚨 Payment error detected: " ++ JS.q m)]
          | _ => SetTimeout 200 :: pollTrace page (S c) n'
          end)%list
  end.

(** Does the [try] block throw: a stage rejected, or [onComplete]
    itself did. *)
Definition tryBlockThrows (page : Page) (url : string) (this : FWGSCheckout) : bool :=
  match outcome (funnel page url this), onComplete this with
  | inl _, _ => true
  | inr _, Some f => match f completedArg with inl _ => true | inr _ => false end
  | inr _, None => false
  end.

(** ** The storage module (utils/storage.ts) *)

Module Storage.

(** [localStorage]: string values under string keys.  The storage
    takes every item: a quota that makes [setItem] throw is not
    modelled. *)
Definition LocalStorage : Type := string -> option string.

Definition getItem (ls : LocalStorage) (key : string) : option string := ls key.

Definition setItem (ls : LocalStorage) (key value : string) : LocalStorage :=
  fun k => if String.eqb k key then Some value else ls k.

Definition removeItem (ls : LocalStorage) (key : string) : LocalStorage :=
  fun k => if String.eqb k key then None else ls k.

(** The values of the platform's JSON codec: [JSON.stringify],
    [JSON.parse], which rejects a text that is not JSON, and the empty
    array [[]]. *)
Record Platform := {
  Json : Type;
  stringify : Json -> string;
  parse : string -> result Json;
  emptyArray : Json
}.

Definition USER_INFO : string := "fwgs_user_info".
Definition SHIPPING_INFO : string := "fwgs_shipping_info".
Definition PAYMENT_INFO : string := "fwgs_payment_info".
Definition MONITOR_CONFIG : string := "fwgs_monitor_config".
Definition KEYWORD_RULES : string := "fwgs_keyword_rules".

(** [Object.values(STORAGE_KEYS)] *)
Definition STORAGE_KEYS : list string :=
  [USER_INFO; SHIPPING_INFO; PAYMENT_INFO; MONITOR_CONFIG; KEYWORD_RULES].

(** [data ? JSON.parse(data) : null], for the item under [key]. *)
Definition parseOrNull (J : Platform) (ls : LocalStorage) (key : string)
  : result (option (Json J)) :=
  match getItem ls key with
  | Some data =>
      if JS.nonempty data
      then match parse J data with
           | inr v => Ok (Some v)
           | inl e => Throw e
           end
      else Ok None
  | None => Ok None
  end.

Definition getUserInfo (J : Platform) (ls : LocalStorage) : result (option (Json J)) :=
  parseOrNull J ls USER_INFO.

Definition setUserInfo (J : Platform) (info : Json J) (ls : LocalStorage) : LocalStorage :=
  setItem ls USER_INFO (stringify J info).

Definition getShippingInfo (J : Platform) (ls : LocalStorage) : result (option (Json J)) :=
  parseOrNull J ls SHIPPING_INFO.

Definition setShippingInfo (J : Platform) (info : Json J) (ls : LocalStorage)
  : LocalStorage :=
  setItem ls SHIPPING_INFO (stringify J info).

Definition getPaymentInfo (J : Platform) (ls : LocalStorage) : result (option (Json J)) :=
  parseOrNull J ls PAYMENT_INFO.

Definition setPaymentInfo (J : Platform) (info : Json J) (ls : LocalStorage)
  : LocalStorage :=
  setItem ls PAYMENT_INFO (stringify J info).

Definition getMonitorConfig (J : Platform) (ls : LocalStorage) : result (option (Json J)) :=
  parseOrNull J ls MONITOR_CONFIG.

Definition setMonitorConfig (J : Platform) (config : Json J) (ls : LocalStorage)
  : LocalStorage :=
  setItem ls MONITOR_CONFIG (stringify J config).

(** [data ? JSON.parse(data) : []] *)
Definition getKeywordRules (J : Platform) (ls : LocalStorage) : result (Json J) :=
  match getItem ls KEYWORD_RULES with
  | Some data => if JS.nonempty data then parse J data else Ok (emptyArray J)
  | None => Ok (emptyArray J)
  end.

Definition setKeywordRules (J : Platform) (rules : Json J) (ls : LocalStorage)
  : LocalStorage :=
  setItem ls KEYWORD_RULES (stringify J rules).

(** [Object.values(STORAGE_KEYS).forEach(key => localStorage.removeItem(key))] *)
Definition clearAll (ls : LocalStorage) : LocalStorage :=
  fold_left removeItem STORAGE_KEYS ls.

End Storage.

(** ** More pages and objects for concrete runs *)

Module Cases.

(** A browser that cannot be launched. *)
Definition noChromium : Chromium :=
  {| launch := fun _ => Throw "Failed to launch browser" |}.

(** A browser that launches but opens no page. *)
Definition noPageChromium : Chromium :=
  {| launch := fun _ => Ok {| br_newPage := Throw "Target closed"; br_close := Ok tt |} |}.

(** The same page with another answer of [contentFrame()]. *)
Definition withContentFrame (page : Page) (frame : result (option Frame)) : Page :=
  {| pg_goto := pg_goto page; pg_evaluate := pg_evaluate page;
     pg_click := pg_click page; pg_fill := pg_fill page;
     pg_waitForTimeout := pg_waitForTimeout page;
     pg_waitForSelector := pg_waitForSelector page;
     pg_locator := pg_locator page; pg_first := pg_first page;
     pg_contentFrame := frame;
     pg_all := pg_all page; pg_screenshot := pg_screenshot page |}.

(** The same page with other answers of [waitForSelector]. *)
Definition withWaitForSelector (page : Page) (w : string -> N -> result unit) : Page :=
  {| pg_goto := pg_goto page; pg_evaluate := pg_evaluate page;
     pg_click := pg_click page; pg_fill := pg_fill page;
     pg_waitForTimeout := pg_waitForTimeout page;
     pg_waitForSelector := w;
     pg_locator := pg_locator page; pg_first := pg_first page;
     pg_contentFrame := pg_contentFrame page;
     pg_all := pg_all page; pg_screenshot := pg_screenshot page |}.

(** The same page with another answer of [screenshot()]. *)
Definition withScreenshot (page : Page) (shot : result unit) : Page :=
  {| pg_goto := pg_goto page; pg_evaluate := pg_evaluate page;
     pg_click := pg_click page; pg_fill := pg_fill page;
     pg_waitForTimeout := pg_waitForTimeout page;
     pg_waitForSelector := pg_waitForSelector page;
     pg_locator := pg_locator page; pg_first := pg_first page;
     pg_contentFrame := pg_contentFrame page;
     pg_all := pg_all page; pg_screenshot := shot |}.

(** The same page with other answers of [evaluate]. *)
Definition withEvaluate (page : Page) (ev : Script -> result unit) : Page :=
  {| pg_goto := pg_goto page; pg_evaluate := ev;
     pg_click := pg_click page; pg_fill := pg_fill page;
     pg_waitForTimeout := pg_waitForTimeout page;
     pg_waitForSelector := pg_waitForSelector page;
     pg_locator := pg_locator page; pg_first := pg_first page;
     pg_contentFrame := pg_contentFrame page;
     pg_all := pg_all page; pg_screenshot := pg_screenshot page |}.

(** The shop whose payment iframe has no content frame. *)
Definition frameless : Page := withContentFrame Scenario.quietShop (Ok None).

(** The shop on which the contact form never shows up. *)
Definition noContactForm : Page :=
  withWaitForSelector Scenario.quietShop (fun sel timeout =>
    if String.eqb sel (Sel.contact "firstName")
    then Throw "Timeout 8000ms exceeded"
    else pg_waitForSelector Scenario.quietShop sel timeout).

(** The same, and the screenshot fails as well. *)
Definition noContactFormNoShot : Page :=
  withScreenshot noContactForm (Throw "Target closed").

(** The declining shop on which the timer overlay cannot be touched. *)
Definition decliningNoTimer : Page :=
  withEvaluate Scenario.decliningShop (fun s =>
    match s with
    | SelectShip => Ok tt
    | _ => Throw "Execution context was destroyed"
    end).

(** The buyer of [Scenario.buyer] without a shipping address. *)
Definition buyerWithoutAddress : Options :=
  {| o_productUrl := o_productUrl Scenario.buyer;
     o_firstName := o_firstName Scenario.buyer; o_lastName := o_lastName Scenario.buyer;
     o_email := o_email Scenario.buyer; o_phone := o_phone Scenario.buyer;
     o_address := None; o_city := None; o_zipCode := None;
     o_cardholderName := o_cardholderName Scenario.buyer;
     o_cardNumber := o_cardNumber Scenario.buyer;
     o_cvv := o_cvv Scenario.buyer; o_expiryDate := o_expiryDate Scenario.buyer;
     o_headless := true;
     o_onComplete := o_onComplete Scenario.buyer;
     o_onError := o_onError Scenario.buyer |}.

(** The buyer whose [onComplete] rejects. *)
Definition buyerFailingOnComplete : Options :=
  {| o_productUrl := o_productUrl Scenario.buyer;
     o_firstName := o_firstName Scenario.buyer; o_lastName := o_lastName Scenario.buyer;
     o_email := o_email Scenario.buyer; o_phone := o_phone Scenario.buyer;
     o_address := o_address Scenario.buyer; o_city := o_city Scenario.buyer;
     o_zipCode := o_zipCode Scenario.buyer;
     o_cardholderName := o_cardholderName Scenario.buyer;
     o_cardNumber := o_cardNumber Scenario.buyer;
     o_cvv := o_cvv Scenario.buyer; o_expiryDate := o_expiryDate Scenario.buyer;
     o_headless := true;
     o_onComplete := Some (fun _ => Throw "webhook down");
     o_onError := o_onError Scenario.buyer |}.

(** The value of an attribute of an input, the empty text when it has
    none. *)
Definition attribute (el : Element) (name : string) : string :=
  match el_getAttribute el name with
  | inr (Some v) => v
  | _ => EmptyString
  end.

(** Does an input match a selector that the script uses inside the
    payment frame?  [input] matches every input.  The card-field
    selector is a list of three alternatives: an input of type text, one
    of type tel, and any input whose type is not hidden.  The fallback
    selectors of the CVV look for a part of the placeholder and for the
    maximum length. *)
Definition matchesSelector (sel : string) (el : Element) : bool :=
  if String.eqb sel Sel.input then true
  else if String.eqb sel Sel.cardField then
    String.eqb (attribute el "type") "text" || String.eqb (attribute el "type") "tel"
    || negb (String.eqb (attribute el "type") "hidden")
  else if String.eqb sel ("input[placeholder*=" ++ JS.q "CVV" ++ "]") then
    JS.includes "CVV" (attribute el "placeholder")
  else if String.eqb sel ("input[placeholder*=" ++ JS.q "CVC" ++ "]") then
    JS.includes "CVC" (attribute el "placeholder")
  else if String.eqb sel ("input[placeholder*=" ++ JS.q "Security" ++ "]") then
    JS.includes "Security" (attribute el "placeholder")
  else if String.eqb sel ("input[maxlength=" ++ JS.q "3" ++ "]") then
    String.eqb (attribute el "maxlength") "3"
  else if String.eqb sel ("input[maxlength=" ++ JS.q "4" ++ "]") then
    String.eqb (attribute el "maxlength") "4"
  else false.

(** The payment frame whose document holds the given inputs, in this
    order: [locator(sel).all()] gives the inputs that match, in document
    order, and [locator(sel).first()] the first of them, an element
    that is not there when none matches. *)
Definition documentFrame (inputs : list Element) : Frame :=
  {| fr_first := fun sel => hd Scenario.absent (filter (matchesSelector sel) inputs);
     fr_all := fun sel => Ok (filter (matchesSelector sel) inputs) |}.

(** The index of the first input from [i] on that [f] holds of. *)
Fixpoint firstIndex (f : Element -> bool) (i : nat) (inputs : list Element)
  : option nat :=
  match inputs with
  | [] => None
  | el :: rest => if f el then Some i else firstIndex f (S i) rest
  end.

(** The input of the document that a target inside the frame stands
    for, by its index. *)
Definition inputOf (inputs : list Element) (t : Target) : option nat :=
  match t with
  | FrameNth sel i => if String.eqb sel Sel.input then Some i else None
  | FrameFirst sel => firstIndex (matchesSelector sel) 0 inputs
  | _ => None
  end.

(** The texts that a run types into input [i] of the document, in the
    order of its calls; the last of them is what the field holds in the
    end. *)
Definition typedInto (inputs : list Element) (i : nat) (t : Trace) : list string :=
  flat_map (fun ev =>
              match ev with
              | Fill target v =>
                  match inputOf inputs target with
                  | Some j => if j =? i then [v] else []
                  | None => []
                  end
              | _ => []
              end) t.

(** [<input type="text" maxlength="4">], visible and enabled: the only
    field of a frame that asks for the security code. *)
Definition securityCodeInput : Element :=
  {| el_waitFor := Ok tt; el_click := Ok tt; el_fill := fun _ => Ok tt;
     el_isVisible := Ok true; el_isEnabled := Ok true;
     el_getAttribute := fun name =>
       Ok (if String.eqb name "type" then Some "text"
           else if String.eqb name "maxlength" then Some "4" else None);
     el_textContent := Ok None |}.

(** A frame in which no input is there for the loop and only the field
    with maximum length 3 is visible. *)
Definition maxlengthFrame : Frame :=
  {| fr_first := fun sel =>
       if String.eqb sel ("input[maxlength=" ++ JS.q "3" ++ "]")
       then Scenario.textInput else Scenario.absent;
     fr_all := fun _ => Ok [] |}.

(** The segments of a text between double quotes. *)
Fixpoint segments (s : string) (cur : string) : list string :=
  match s with
  | EmptyString => [cur]
  | String c r =>
      if Ascii.eqb c (ascii_of_nat 34)
      then cur :: segments r EmptyString
      else segments r (cur ++ String c EmptyString)
  end.

Fixpoint oddSegments (l : list string) : list string :=
  match l with
  | _ :: x :: rest => x :: oddSegments rest
  | _ => []
  end.

(** A codec for arrays of strings without quotes and backslashes. *)
Definition stringArrays : Storage.Platform :=
  {| Storage.Json := list string;
     Storage.stringify := fun l =>
       "[" ++ String.concat "," (map JS.q l) ++ "]";
     Storage.parse := fun s =>
       match s with
       | String "[" _ => Ok (oddSegments (segments s EmptyString))
       | _ => Throw "Unexpected token"
       end;
     Storage.emptyArray := [] |}.

(** An empty [localStorage]. *)
Definition emptyStorage : Storage.LocalStorage := fun _ => None.

(** The shop on which the address dialog shows up without the button
    to take the suggested address. *)
Definition dialogWithoutButton : Page :=
  withWaitForSelector Scenario.quietShop (fun _ _ => Ok tt).

End Cases.

(** ** Further notions of the statements *)

(** The target is inside the payment frame. *)
Definition frameTarget (t : Target) : bool :=
  match t with
  | InFrame _ | FrameFirst _ | FrameNth _ _ => true
  | _ => false
  end.

(** Entries of the payment stage: anything on the cardholder, expiry or
    place-order elements, on the iframe or inside it, and the monitor. *)
Definition paymentEvent (ev : Event) : bool :=
  match ev with
  | Fill (OnPage sel) _ => String.eqb sel Sel.cardholder || String.eqb sel Sel.expDate
  | Click (OnPage sel) => String.eqb sel Sel.expDate || String.eqb sel Sel.placeOrder
  | WaitFor (OnPage sel) _ _ => String.eqb sel Sel.placeOrder
  | IsEnabled (OnPage sel) => String.eqb sel Sel.placeOrder
  | WaitFor (PageFirst sel) _ _ => String.eqb sel Sel.iframe
  | Click t | Fill t _ | WaitFor t _ _ | IsVisible t | IsEnabled t
  | GetAttribute t _ | TextContent t | LocatorAll t => frameTarget t
  | ContentFrame | MonitorStart | SetTimeout _ => true
  | _ => false
  end.

(** Entries allowed before the payment stage. *)
Definition notPaymentEvent (ev : Event) : bool := negb (paymentEvent ev).

(** A probe of a fallback field. *)
Definition isFallbackProbe (ev : Event) : bool :=
  match ev with
  | IsVisible (FrameFirst _) => true
  | _ => false
  end.

(** Where the payment stage may type: the cardholder name and the
    expiry date into their fields of the page, and the empty text, the
    card number and the CVV into elements of the payment frame. *)
Definition typedInPlace (this : FWGSCheckout) (ev : Event) : bool :=
  match ev with
  | Fill (OnPage sel) v =>
      (String.eqb sel Sel.cardholder && String.eqb v (p_cardholderName (paymentInfo this)))
      || (String.eqb sel Sel.expDate && String.eqb v (p_expiryDate (paymentInfo this)))
  | Fill t v =>
      frameTarget t
      && (String.eqb v EmptyString || String.eqb v (p_cardNumber (paymentInfo this))
          || String.eqb v (p_cvv (paymentInfo this)))
  | _ => true
  end.

(** [no_space s]: no byte of [s] is one a white-space character can
    hold. *)
Fixpoint no_space (s : string) : bool :=
  match s with
  | EmptyString => true
  | String c r => negb (ws_byte c) && no_space r
  end.

(** ** The payment form of the settings page (PaymentForm.tsx)

    The three functions that format the card fields.  [\s], [\d] and
    [\D] are the classes of the regular expressions; every byte outside
    the ASCII range is a non-digit, so the digits that the functions
    keep are the same whatever the text holds beside them. *)

Module PaymentForm.

(** The class [\d], that is [[0-9]]. *)
Definition is_digit (c : ascii) : bool :=
  (48 <=? nat_of_ascii c) && (nat_of_ascii c <=? 57).

(** The class [\D], that is [[^0-9]]. *)
Definition nondigit (c : ascii) : bool := negb (is_digit c).

(** [s.replace(/[class]/g, '')]; with [+] after the class as well. *)
Fixpoint removeAll (class : ascii -> bool) (s : string) : string :=
  match s with
  | EmptyString => EmptyString
  | String c r => if class c then removeAll class r else String c (removeAll class r)
  end.

(** The longest run of digits at the start of [s], up to [n] of them. *)
Fixpoint digitRun (n : nat) (s : string) : string :=
  match n, s with
  | S n', String c r => if is_digit c then String c (digitRun n' r) else EmptyString
  | _, _ => EmptyString
  end.

(** [matches && matches[0]] for [matches = v.match(/\d{4,16}/g)]: the
    leftmost run of at least 4 digits, cut after 16; [None] is [null]. *)
Fixpoint firstDigits (v : string) : option string :=
  match v with
  | EmptyString => None
  | String _ r =>
      let m := digitRun 16 v in
      if 4 <=? String.length m then Some m else firstDigits r
  end.

(** [s.substring(a, b)] for [a <= b]. *)
Definition substring (a b : nat) (s : string) : string := String.substring a (b - a) s.

(** [s.slice(-n)] *)
Definition sliceLast (n : nat) (s : string) : string :=
  String.substring (String.length s - n) n s.

(** The loop [for (let i = 0, len = match.length; i < len; i += 4)],
    from [i] on; the value is what it pushes on [parts]. *)
Equations? cardParts (m : string) (i : nat) : list string
  by wf (String.length m - i) lt :=
  cardParts m i with lt_dec i (String.length m) := {
    | left _ => substring i (i + 4) m :: cardParts m (i + 4)
    | right _ => []
  }.
Proof. lia. Qed.

Definition formatCardNumber (value : string) : string :=
  let v := removeAll (fun c => negb (is_digit c)) (removeAll JS.is_space value) in
  let matches := firstDigits v in
  let match_ := match matches with Some m => m | None => EmptyString end in
  let parts := cardParts match_ 0 in
  match parts with
  | _ :: _ => String.concat " " parts
  | [] => v
  end.

Definition formatExpiryDate (value : string) : string :=
  let v := removeAll (fun c => negb (is_digit c)) value in
  if 2 <=? String.length v
  then substring 0 2 v ++ "/" ++ substring 2 4 v
  else v.

(** [\s] is the white space of the ASCII range here and the length is
    the number of bytes: this is the function of the component on ASCII
    texts.  The statements apply it to what [formatCardNumber] returns,
    the text the card field stores, which holds digits and spaces only. *)
Definition maskCardNumber (cardNumber : string) : string :=
  if negb (JS.nonempty cardNumber) then EmptyString
  else
    let cleaned := removeAll JS.is_space cardNumber in
    if String.length cleaned <=? 4 then cardNumber
    else "**** **** **** " ++ sliceLast 4 cleaned.

(** The digits of a text, in order. *)
Definition digitsOf (s : string) : string := removeAll (fun c => negb (is_digit c)) s.

(** The first [n] characters. *)
Fixpoint take (n : nat) (s : string) : string :=
  match n, s with
  | S n', String c r => String c (take n' r)
  | _, _ => EmptyString
  end.

(** The text without its first [n] characters. *)
Fixpoint drop (n : nat) (s : string) : string :=
  match n, s with
  | S n', String _ r => drop n' r
  | _, _ => s
  end.

Fixpoint allChars (P : ascii -> bool) (s : string) : bool :=
  match s with
  | EmptyString => true
  | String c r => P c && allChars P r
  end.

(** A text cut in pieces of four characters, the last one shorter when
    the length is no multiple of four. *)
Fixpoint chunks4 (s : string) : list string :=
  match s with
  | String a (String b (String c (String d r))) =>
      String a (String b (String c (String d EmptyString))) :: chunks4 r
  | EmptyString => []
  | _ => [s]
  end.

End PaymentForm.

(** ** The keyword rules of the settings page (KeywordManager.tsx)

    A component is its state; a handler maps the state of the render
    in which it was created to the next state.  [confirm] and
    [Date.now] are arguments of the handlers that call them. *)

Module KeywordManager.

Inductive MatchMode := any | all.

Record KeywordRule := {
  r_id : string;
  r_keywords : list string;
  r_matchMode : MatchMode;
  r_searchFields : list string;
  r_enabled : bool;
  r_name : string;
  r_description : option string
}.

(** [{ ...r, enabled }] *)
Definition withEnabled (r : KeywordRule) (enabled : bool) : KeywordRule :=
  {| r_id := r_id r; r_keywords := r_keywords r; r_matchMode := r_matchMode r;
     r_searchFields := r_searchFields r; r_enabled := enabled;
     r_name := r_name r; r_description := r_description r |}.

(** [{ ...prev, keywords }] *)
Definition withKeywords (r : KeywordRule) (keywords : list string) : KeywordRule :=
  {| r_id := r_id r; r_keywords := keywords; r_matchMode := r_matchMode r;
     r_searchFields := r_searchFields r; r_enabled := r_enabled r;
     r_name := r_name r; r_description := r_description r |}.

(** [{ ...prev, searchFields }] *)
Definition withSearchFields (r : KeywordRule) (searchFields : list string) : KeywordRule :=
  {| r_id := r_id r; r_keywords := r_keywords r; r_matchMode := r_matchMode r;
     r_searchFields := searchFields; r_enabled := r_enabled r;
     r_name := r_name r; r_description := r_description r |}.

(** [JSON.stringify] and [JSON.parse] on arrays of rules. *)
Record Codec := {
  stringify : list KeywordRule -> string;
  parse : string -> result (list KeywordRule)
}.

Definition platform (c : Codec) : Storage.Platform :=
  {| Storage.Json := list KeywordRule;
     Storage.stringify := stringify c;
     Storage.parse := parse c;
     Storage.emptyArray := [] |}.

(** The state of [KeywordManager], with the [localStorage] it writes. *)
Record State := {
  rules : list KeywordRule;
  editingRule : option KeywordRule;
  isCreating : bool;
  localStorage : Storage.LocalStorage
}.

(** The first render and its effect, which loads the saved rules. *)
Definition mount (c : Codec) (ls : Storage.LocalStorage) : result State :=
  match Storage.getKeywordRules (platform c) ls with
  | inr savedRules =>
      Ok {| rules := savedRules; editingRule := None; isCreating := false;
            localStorage := ls |}
  | inl e => Throw e
  end.

Definition saveRules (c : Codec) (newRules : list KeywordRule) (st : State) : State :=
  {| rules := newRules; editingRule := editingRule st; isCreating := isCreating st;
     localStorage := Storage.setKeywordRules (platform c) newRules (localStorage st) |}.

(** [now] is [Date.now().toString()]. *)
Definition createNewRule (now : string) : KeywordRule :=
  {| r_id := now; r_name := EmptyString; r_keywords := []; r_matchMode := any;
     r_searchFields := ["name"; "page_url"]; r_enabled := true;
     r_description := Some EmptyString |}.

Definition handleCreateRule (now : string) (st : State) : State :=
  {| rules := rules st; editingRule := Some (createNewRule now); isCreating := true;
     localStorage := localStorage st |}.

Definition handleSaveRule (c : Codec) (rule : KeywordRule) (st : State) : State :=
  let st' :=
    if isCreating st then
      let saved := saveRules c (rules st ++ [rule]) st in
      {| rules := rules saved; editingRule := editingRule saved; isCreating := false;
         localStorage := localStorage saved |}
    else
      saveRules c (map (fun r => if String.eqb (r_id r) (r_id rule) then rule else r)
                       (rules st)) st in
  {| rules := rules st'; editingRule := None; isCreating := isCreating st';
     localStorage := localStorage st' |}.

(** [confirmed] is the answer of [confirm(...)]. *)
Definition handleDeleteRule (c : Codec) (confirmed : bool) (ruleId : string) (st : State)
  : State :=
  if confirmed
  then saveRules c (filter (fun r => negb (String.eqb (r_id r) ruleId)) (rules st)) st
  else st.

Definition handleToggleRule (c : Codec) (ruleId : string) (st : State) : State :=
  saveRules c (map (fun r => if String.eqb (r_id r) ruleId
                             then withEnabled r (negb (r_enabled r)) else r)
                   (rules st)) st.

Definition handleCancelEdit (st : State) : State :=
  {| rules := rules st; editingRule := None; isCreating := false;
     localStorage := localStorage st |}.

(** The state of [KeywordRuleEditor]. *)
Record Editor := {
  editedRule : KeywordRule;
  newKeyword : string
}.

(** What [handleSubmit] does: an [alert], or the call of [onSave]. *)
Inductive Submitted :=
| Alert (message : string)
| OnSave (rule : KeywordRule).

Definition handleSubmit (ed : Editor) : Submitted :=
  if negb (JS.nonempty (JS.trim (r_name (editedRule ed))))
  then Alert "Please enter a rule name"
  else if length (r_keywords (editedRule ed)) =? 0
  then Alert "Please add at least one keyword"
  else OnSave (editedRule ed).

(** A keyword can hold any letter of Unicode: [toLowerCase] is
    [String.prototype.toLowerCase] as the engine has it, a parameter. *)
Definition addKeyword (toLowerCase : string -> string) (ed : Editor) : Editor :=
  if JS.nonempty (JS.trim (newKeyword ed))
     && negb (JS.array_includes (r_keywords (editedRule ed))
                                (toLowerCase (JS.trim (newKeyword ed))))
  then {| editedRule :=
            withKeywords (editedRule ed)
              (r_keywords (editedRule ed) ++ [toLowerCase (JS.trim (newKeyword ed))]);
          newKeyword := EmptyString |}
  else ed.

Definition removeKeyword (keyword : string) (ed : Editor) : Editor :=
  {| editedRule :=
       withKeywords (editedRule ed)
         (filter (fun k => negb (String.eqb k keyword)) (r_keywords (editedRule ed)));
     newKeyword := newKeyword ed |}.

Definition toggleSearchField (field : string) (ed : Editor) : Editor :=
  {| editedRule :=
       withSearchFields (editedRule ed)
         (if JS.array_includes (r_searchFields (editedRule ed)) field
          then filter (fun f => negb (String.eqb f field)) (r_searchFields (editedRule ed))
          else r_searchFields (editedRule ed) ++ [field]);
     newKeyword := newKeyword ed |}.

(** *** Notions of the statements *)

(** What the user does on the page.  A rule is saved by the editor
    only: [handleSaveRule] is the [onSave] of [handleSubmit]. *)
Inductive Action :=
| CreateRule (now : string)
| Submit (ed : Editor)
| DeleteRule (confirmed : bool) (ruleId : string)
| ToggleRule (ruleId : string)
| CancelEdit.

Definition step (c : Codec) (a : Action) (st : State) : State :=
  match a with
  | CreateRule now => handleCreateRule now st
  | Submit ed =>
      match handleSubmit ed with
      | OnSave rule => handleSaveRule c rule st
      | Alert _ => st
      end
  | DeleteRule confirmed ruleId => handleDeleteRule c confirmed ruleId st
  | ToggleRule ruleId => handleToggleRule c ruleId st
  | CancelEdit => handleCancelEdit st
  end.

(** The rules on the page are the rules a reload would show. *)
Definition inSync (c : Codec) (st : State) : Prop :=
  exists st', mount c (localStorage st) = Ok st' /\ rules st' = rules st.

(** [JSON.parse] reads the array back from its text. *)
Definition readable (c : Codec) (rs : list KeywordRule) : Prop :=
  parse c (stringify c rs) = Ok rs /\ stringify c rs <> EmptyString.

(** A rule with a name and a keyword. *)
Definition complete (r : KeywordRule) : Prop :=
  JS.trim (r_name r) <> EmptyString /\ r_keywords r <> [].

(** A keyword as [addKeyword] stores it: the lower-case form of a text
    that is not empty and has no white space at its ends. *)
Definition normalized (toLowerCase : string -> string) (k : string) : Prop :=
  exists t, t <> EmptyString /\ JS.trim t = t /\ k = toLowerCase t.

End KeywordManager.

(** ** Rules and editors for concrete runs *)

Module RuleCases.
Import KeywordManager.

(** A codec for rules as [createNewRule] makes them, enabled or not:
    of every rule it writes the id and a sign for the flag. *)
Definition render (r : KeywordRule) : string :=
  r_id r ++ (if r_enabled r then "+" else "-").

Fixpoint parseRules (s cur : string) : list KeywordRule :=
  match s with
  | EmptyString => []
  | String ch r =>
      if Ascii.eqb ch "+" then withEnabled (createNewRule cur) true :: parseRules r EmptyString
      else if Ascii.eqb ch "-"
           then withEnabled (createNewRule cur) false :: parseRules r EmptyString
           else parseRules r (cur ++ String ch EmptyString)
  end.

Definition freshRules : Codec :=
  {| stringify := fun rs => "[" ++ String.concat EmptyString (map render rs);
     parse := fun s =>
       match s with
       | String "[" r => Ok (parseRules r EmptyString)
       | _ => Throw "Unexpected token"
       end |}.

(** The page with one new rule, saved. *)
Definition oneRule : State :=
  {| rules := [createNewRule "1700000000000"]; editingRule := None; isCreating := false;
     localStorage :=
       Storage.setKeywordRules (platform freshRules) [createNewRule "1700000000000"]
                               Cases.emptyStorage |}.

Definition bourbon : KeywordRule :=
  {| r_id := "1700000000001"; r_keywords := ["bourbon"; "rye"]; r_matchMode := any;
     r_searchFields := ["name"; "page_url"]; r_enabled := true;
     r_name := "Premium Bourbon"; r_description := None |}.

(** The page with the rule [bourbon], and the editor open on it. *)
Definition bourbonPage : State :=
  {| rules := [bourbon]; editingRule := Some bourbon; isCreating := false;
     localStorage := Cases.emptyStorage |}.

(** U+00A0, the no-break space, and U+2028, the line separator, in
    UTF-8. *)
Definition noBreakSpace : string :=
  String (ascii_of_nat 194) (String (ascii_of_nat 160) EmptyString).
Definition lineSeparator : string :=
  String (ascii_of_nat 226) (String (ascii_of_nat 128)
    (String (ascii_of_nat 168) EmptyString)).

(** The editor on a rule whose name is a no-break space, with another
    one typed in as a keyword. *)
Definition blankEditor : Editor :=
  {| editedRule :=
       {| r_id := "1700000000002"; r_keywords := ["bourbon"]; r_matchMode := any;
          r_searchFields := ["name"]; r_enabled := true;
          r_name := noBreakSpace; r_description := None |};
     newKeyword := noBreakSpace |}.

(** The editor on [bourbon], with a keyword typed in. *)
Definition bourbonEditor : Editor :=
  {| editedRule := bourbon; newKeyword := "  Pappy " |}.

End RuleCases.

(** * Properties *)

(** ** Reasoning about runs *)

Section RunLemmas.
Context {A B : Type}.

Lemma bind_ok (m : Run A) (k : A -> Run B) (a : A) :
  outcome m = Ok a ->
  bind m k = ((trace m ++ trace (k a))%list, outcome (k a)).
Proof.
  destruct m as [t [e | a']]; cbn; intros H; inversion H; subst; reflexivity.
Qed.

Lemma bind_throw (m : Run A) (k : A -> Run B) (e : Error) :
  outcome m = Throw e ->
  bind m k = (trace m, Throw e).
Proof.
  destruct m as [t [e' | a]]; cbn; intros H; inversion H; subst; reflexivity.
Qed.

Lemma catch_ok (m : Run A) (h : Error -> Run A) (a : A) :
  outcome m = Ok a -> catch m h = m.
Proof.
  destruct m as [t [e | a']]; cbn; intros H; inversion H; subst; reflexivity.
Qed.

Lemma catch_throw (m : Run A) (h : Error -> Run A) (e : Error) :
  outcome m = Throw e ->
  catch m h = ((trace m ++ trace (h e))%list, outcome (h e)).
Proof.
  destruct m as [t [e' | a]]; cbn; intros H; inversion H; subst; reflexivity.
Qed.

Lemma catch_trace_ret (m : Run A) (a : A) :
  trace (catch m (fun _ => ret a)) = trace m.
Proof. destruct m as [t [e | a']]; cbn; rewrite ?app_nil_r; reflexivity. Qed.

Lemma run_eta (m : Run A) : m = (trace m, outcome m).
Proof. destruct m; reflexivity. Qed.

End RunLemmas.

Section Emits.
Variable P : Event -> bool.

Lemma emits_ret {A} (a : A) : emits P (ret a).
Proof. reflexivity. Qed.

Lemma emits_raise {A} (e : Error) : emits P (raise e : Run A).
Proof. reflexivity. Qed.

Lemma emits_call {A} (ev : Event) (r : result A) :
  P ev = true -> emits P (call ev r).
Proof. unfold emits; cbn. intros ->. reflexivity. Qed.

Lemma emits_log (line : string) : P (ConsoleLog line) = true -> emits P (log line).
Proof. unfold emits; cbn. intros ->. reflexivity. Qed.

Lemma emits_bind {A B} (m : Run A) (k : A -> Run B) :
  emits P m -> (forall a, emits P (k a)) -> emits P (bind m k).
Proof.
  unfold emits. destruct m as [t [e | a]]; cbn; intros Hm Hk; [assumption |].
  rewrite forallb_app, Hm. apply Hk.
Qed.

Lemma emits_catch {A} (m : Run A) (h : Error -> Run A) :
  emits P m -> (forall e, emits P (h e)) -> emits P (catch m h).
Proof.
  unfold emits. destruct m as [t [e | a]]; cbn; intros Hm Hh; [| assumption].
  rewrite forallb_app, Hm. apply Hh.
Qed.

Lemma emits_finally {A} (m : Run A) (f : Run unit) :
  emits P m -> emits P f -> emits P (finally m f).
Proof.
  unfold emits, finally. destruct m as [t r], f as [tf [e | u]]; cbn;
    intros Hm Hf; rewrite forallb_app, Hm, Hf; reflexivity.
Qed.

Lemma forallb_firstn (n : nat) (t : Trace) :
  forallb P t = true -> forallb P (firstn n t) = true.
Proof.
  revert n. induction t as [| ev t IH]; intros [| n]; cbn; try reflexivity.
  intros H. apply andb_true_iff in H. destruct H as [-> H]. apply IH, H.
Qed.

Lemma forallb_skipn (n : nat) (t : Trace) :
  forallb P t = true -> forallb P (skipn n t) = true.
Proof.
  revert n. induction t as [| ev t IH]; intros [| n]; cbn; try reflexivity.
  - intros H. exact H.
  - intros H. apply andb_true_iff in H. apply IH, H.
Qed.

Lemma emits_startedBefore {A B} (p : Run A) (c : Run B) :
  (forall calls, P (Detached calls) = true) ->
  emits P p -> emits P c -> emits P (startedBefore p c).
Proof.
  unfold emits, startedBefore. destruct c as [tc [e | b]]; cbn [trace fst];
    intros Hd Hp Hc; rewrite !forallb_app, (forallb_firstn 1 _ Hp), Hc; cbn [andb].
  - cbn [forallb]. rewrite Hd. reflexivity.
  - apply forallb_skipn, Hp.
Qed.

Lemma emits_startedBefore_ok {A B} (p : Run A) (c : Run B) (b : B) :
  outcome c = Ok b -> emits P p -> emits P c -> emits P (startedBefore p c).
Proof.
  unfold emits, startedBefore. destruct c as [tc [e | b']]; cbn [trace fst outcome snd];
    intros Hok Hp Hc; [discriminate Hok |].
  rewrite !forallb_app, (forallb_firstn 1 _ Hp), Hc. apply forallb_skipn, Hp.
Qed.

End Emits.

(** Decompose a straight-line method into its calls. *)
Ltac emits_step :=
  match goal with
  | |- emits _ (bind _ _) => apply emits_bind; [| intros]
  | |- emits _ (catch _ _) => apply emits_catch; [| intros]
  | |- emits _ (startedBefore _ _) =>
      apply emits_startedBefore; [intros; reflexivity | |]
  | |- emits _ (ret _) => apply emits_ret
  | |- emits _ (raise _) => apply emits_raise
  | |- emits _ (call _ _) => apply emits_call; reflexivity
  | |- emits _ (log _) => apply emits_log; reflexivity
  | |- emits _ (if ?b then _ else _) => destruct b
  | |- emits _ (match ?x with _ => _ end) => destruct x
  | |- emits _ (let _ := _ in _) => cbv zeta
  | H : _ |- emits _ _ => apply H
  | |- emits _ _ =>
      progress unfold Pw.goto, Pw.evaluate, Pw.click, Pw.fill, Pw.waitForTimeout,
        Pw.waitForSelector, Pw.screenshot, Pw.l_waitFor, Pw.l_click, Pw.l_fill,
        Pw.isVisible, Pw.isEnabled, Pw.getAttribute, Pw.textContent,
        Pw.locator, Pw.first, Pw.frame_first, fst, snd
  end.

Ltac emits_auto := repeat emits_step.

Lemma emits_weaken (P Q : Event -> bool) {A} (m : Run A) :
  (forall ev, P ev = true -> Q ev = true) -> emits P m -> emits Q m.
Proof.
  unfold emits. intros HPQ. induction (trace m) as [| ev t IH]; cbn; [reflexivity |].
  intros H. apply andb_true_iff in H. destruct H as [Hev Ht].
  rewrite (HPQ _ Hev). apply IH, Ht.
Qed.

Lemma checkForErrors_step (page : Page) (found : bool) (msg : string) (c : nat) :
  checkForErrors page found msg c =
  if found || (maxChecks <=? c)
  then ret {| errorFound := found; errorMessage := msg; timing := N.of_nat c * 200 |}
  else
    found' <- scanPage page (S c) ;;
    match found' with
    | Some text =>
        log ("🚨 Payment error detected: " ++ JS.q text) ;;
        ret {| errorFound := true; errorMessage := text;
               timing := N.of_nat (S c) * 200 |}
    | None =>
        call (SetTimeout 200) (Ok tt) ;;
        checkForErrors page found msg (S c)
    end.
Proof.
  rewrite checkForErrors_equation_1. unfold checkForErrors_unfold_clause_1.
  destruct (sumbool_of_bool (found || (maxChecks <=? c))) as [H | H];
    rewrite H; reflexivity.
Qed.

Lemma emits_probes (selector : string) (els : list Element) :
  forall i, emits probeEvent (scanElements selector i els).
Proof.
  induction els as [| el rest IH]; intros i; cbn [scanElements]; emits_auto.
Qed.

Lemma emits_scanElements (selector : string) (els : list Element) (i : nat) :
  emits monitorEvent (scanElements selector i els).
Proof.
  apply (emits_weaken probeEvent); [| apply emits_probes].
  intros ev; destruct ev; try discriminate;
    match goal with t : Target |- _ => destruct t end; cbn; congruence.
Qed.

Lemma scanSelectors_cons (page : Page) (k : nat) (sel : string) (rest : list string) :
  scanSelectors page k (sel :: rest) =
  (errorElements <- call (LocatorAll (OnPage sel)) (pg_all page k sel) ;;
   found <- scanElements sel 0 errorElements ;;
   match found with
   | Some m => ret (Some m)
   | None => scanSelectors page k rest
   end).
Proof. reflexivity. Qed.

Lemma emits_scanSelectors (page : Page) (k : nat) (sels : list string) :
  emits monitorEvent (scanSelectors page k sels).
Proof.
  induction sels as [| sel rest IH]; cbn [scanSelectors]; emits_auto.
  apply emits_scanElements.
Qed.

Lemma emits_scanPage (page : Page) (k : nat) : emits monitorEvent (scanPage page k).
Proof. unfold scanPage. emits_auto. apply emits_scanSelectors. Qed.

Lemma emits_checkForErrors (page : Page) (found : bool) (msg : string) :
  forall n c, maxChecks - c <= n -> emits monitorEvent (checkForErrors page found msg c).
Proof.
  induction n as [| n IH]; intros c Hc; rewrite checkForErrors_step.
  - replace (maxChecks <=? c) with true by (symmetry; apply Nat.leb_le; lia).
    rewrite orb_true_r. apply emits_ret.
  - destruct (found || (maxChecks <=? c)) eqn:Hstop; [apply emits_ret |].
    apply orb_false_iff in Hstop. destruct Hstop as [_ Hlt].
    apply Nat.leb_gt in Hlt.
    apply emits_bind; [apply emits_scanPage | intros [text |]]; emits_auto.
    lia.
Qed.

Lemma emits_tryInput (page : Page) (cvv : string) (i : nat) (el : Element) :
  emits loopEvent (tryInput page cvv i el).
Proof. unfold tryInput, attributeOrEmpty. emits_auto. Qed.

Lemma emits_cvvLoop (page : Page) (cvv : string) (inputs : list Element) :
  forall i, emits loopEvent (cvvLoop page cvv i inputs).
Proof.
  induction inputs as [| el rest IH]; intros i; cbn [cvvLoop]; emits_auto.
  apply emits_tryInput.
Qed.

Lemma emits_cvvFallback (page : Page) (frame : Frame) (cvv : string)
      (selectors : list string) :
  emits loopEvent (cvvFallback page frame cvv selectors).
Proof.
  induction selectors as [| sel rest IH]; cbn [cvvFallback]; emits_auto.
  unfold tryCvvSelector. emits_auto.
Qed.

(** What the loops leave is allowed wherever stage entries are. *)
Ltac loop_kind :=
  let ev := fresh "ev" in
  intros ev; destruct ev;
  try match goal with t : Target |- _ => destruct t end;
  cbn; intros; first [reflexivity | discriminate].

Ltac emits_loop :=
  match goal with
  | |- emits loopEvent _ => fail 1
  | |- emits _ (cvvLoop _ _ _ _) =>
      apply (emits_weaken loopEvent); [loop_kind | apply emits_cvvLoop]
  | |- emits _ (cvvFallback _ _ _ _) =>
      apply (emits_weaken loopEvent); [loop_kind | apply emits_cvvFallback]
  | |- emits _ (checkForErrors _ _ _ _) =>
      apply (emits_weaken monitorEvent);
      [loop_kind | eapply emits_checkForErrors; apply Nat.le_refl]
  end.

Ltac emits_stage := repeat first [emits_loop | emits_step].

Section StageTraces.
Variables (page : Page) (url : string) (this : FWGSCheckout).

Lemma emits_reachShipping : emits beforeOrderEvent (reachShipping page url this).
Proof.
  unfold reachShipping, addToCart, addSimpleTimer, navigateToCheckout,
    fillContactInfo, strategies, strategyTargets.
  cbn [map tryStrategies]. emits_stage.
Qed.

Lemma emits_fillShippingInfo : emits beforeOrderEvent (fillShippingInfo page this).
Proof.
  unfold fillShippingInfo, submitShippingForm, confirmSuggestedAddress. emits_stage.
Qed.

Lemma emits_reachPayment : emits beforeOrderEvent (reachPayment page url this).
Proof.
  unfold reachPayment. apply emits_bind; intros;
    [apply emits_reachShipping | apply emits_fillShippingInfo].
Qed.

Lemma emits_enterPaymentDetails :
  emits beforeOrderEvent (enterPaymentDetails page this).
Proof.
  unfold enterPaymentDetails, openPaymentFrame, enterCardDetails, enterCardNumber,
    enterCvv, enterExpiry.
  emits_stage.
Qed.

Lemma emits_placeOrder : emits stageEvent (placeOrder page this).
Proof.
  unfold placeOrder, monitorPaymentErrors, stopTimer, paymentCompleted. emits_stage.
Qed.

Lemma beforeOrder_stage (ev : Event) :
  beforeOrderEvent ev = true -> stageEvent ev = true.
Proof. unfold beforeOrderEvent. intros H. apply andb_true_iff in H. apply H. Qed.

Lemma emits_funnel : emits stageEvent (funnel page url this).
Proof.
  unfold funnel, handlePayment.
  apply emits_bind; intros.
  - apply (emits_weaken beforeOrderEvent); [apply beforeOrder_stage |].
    apply emits_reachPayment.
  - apply emits_bind; intros; [| apply emits_placeOrder].
    apply (emits_weaken beforeOrderEvent); [apply beforeOrder_stage |].
    apply emits_enterPaymentDetails.
Qed.

End StageTraces.

(** ** The constructor *)

Lemma log_all_run (lines : list string) :
  log_all lines = (map ConsoleLog lines, Ok tt).
Proof.
  induction lines as [| l rest IH]; [reflexivity |].
  cbn [log_all]. cbn. rewrite IH. reflexivity.
Qed.

Lemma validateConfiguration_run (this : FWGSCheckout) :
  validateConfiguration this =
  (map ConsoleLog (if usingTestData this then warningLines else [okLine]), Ok tt).
Proof.
  unfold validateConfiguration. destruct (usingTestData this).
  - apply log_all_run.
  - reflexivity.
Qed.

Lemma usingTestData_spec (this : FWGSCheckout) :
  usingTestData this = true <->
  exists value, In value (currentValues this) /\ In value testValues.
Proof.
  unfold usingTestData, JS.array_includes. rewrite existsb_exists. split.
  - intros [v [Hv Ht]]. exists v. split; [assumption |].
    apply existsb_exists in Ht. destruct Ht as [w [Hw Heq]].
    apply String.eqb_eq in Heq. subst. assumption.
  - intros [v [Hv Ht]]. exists v. split; [assumption |].
    apply existsb_exists. exists v. split; [assumption | apply String.eqb_refl].
Qed.

(** *** Runs that differ in the buyer's data *)

Section SameCourse.

Lemma sameCourse_refl {A} (m : Run A) : sameCourse m m.
Proof. split; reflexivity. Qed.

Lemma sameCourse_bind {A B} (m1 m2 : Run A) (k1 k2 : A -> Run B) :
  sameCourse m1 m2 ->
  (forall a, outcome m1 = Ok a -> sameCourse (k1 a) (k2 a)) ->
  sameCourse (bind m1 k1) (bind m2 k2).
Proof.
  destruct m1 as [t1 [e1 | a1]], m2 as [t2 [e2 | a2]]; unfold sameCourse;
    cbn; intros [Ho Ht] Hk; try discriminate Ho.
  - injection Ho as <-. split; [reflexivity | exact Ht].
  - injection Ho as <-. destruct (Hk a1 eq_refl) as [Ho' Ht'].
    unfold trace, outcome in Ho', Ht'.
    split; [exact Ho' |]. rewrite !map_app, Ht, Ht'. reflexivity.
Qed.

Lemma sameCourse_catch {A} (m1 m2 : Run A) (h1 h2 : Error -> Run A) :
  sameCourse m1 m2 ->
  (forall e, outcome m1 = Throw e -> sameCourse (h1 e) (h2 e)) ->
  sameCourse (catch m1 h1) (catch m2 h2).
Proof.
  destruct m1 as [t1 [e1 | a1]], m2 as [t2 [e2 | a2]]; unfold sameCourse;
    cbn; intros [Ho Ht] Hh; try discriminate Ho.
  - injection Ho as <-. destruct (Hh e1 eq_refl) as [Ho' Ht'].
    unfold trace, outcome in Ho', Ht'.
    split; [exact Ho' |]. rewrite !map_app, Ht, Ht'. reflexivity.
  - split; assumption.
Qed.

Lemma sameCourse_finally {A} (m1 m2 : Run A) (f : Run unit) :
  sameCourse m1 m2 -> sameCourse (finally m1 f) (finally m2 f).
Proof.
  destruct m1 as [t1 r1], m2 as [t2 r2], f as [tf [e | u]]; unfold sameCourse;
    cbn; intros [Ho Ht]; rewrite !map_app, Ht; split; first [reflexivity | exact Ho].
Qed.

Lemma sameCourse_fill (page : Page) (sel v w : string) :
  pageTakesAnyText page -> sameCourse (Pw.fill page sel v) (Pw.fill page sel w).
Proof.
  intros [Hfill _]. unfold sameCourse, Pw.fill, call. cbn.
  rewrite (Hfill sel v w). split; reflexivity.
Qed.

Lemma sameCourse_l_fill (l : Locator) (v w : string) :
  takesAnyText (snd l) -> sameCourse (Pw.l_fill l v) (Pw.l_fill l w).
Proof.
  intros Hfill. unfold sameCourse, Pw.l_fill, call. cbn.
  rewrite (Hfill v w). split; reflexivity.
Qed.

End SameCourse.

(** Decompose two runs of the same method. *)
Ltac course_step :=
  match goal with
  | |- sameCourse ?m ?m => apply sameCourse_refl
  | |- sameCourse (bind _ _) (bind _ _) => apply sameCourse_bind; [| intros ? ?]
  | |- sameCourse (catch _ _) (catch _ _) => apply sameCourse_catch; [| intros ? ?]
  | |- sameCourse (Pw.fill _ _ _) (Pw.fill _ _ _) =>
      apply sameCourse_fill; assumption
  | |- sameCourse (Pw.l_fill _ _) (Pw.l_fill _ _) => apply sameCourse_l_fill
  | |- sameCourse (if ?b then _ else _) (if ?b then _ else _) => destruct b
  | |- sameCourse (match ?x with _ => _ end) (match ?x with _ => _ end) => destruct x
  end.

Section Placeholders.
Variables (page : Page) (url : string) (this other : FWGSCheckout).
Hypothesis Hpage : pageTakesAnyText page.

Lemma sameCourse_reachPayment :
  sameCourse (reachPayment page url this) (reachPayment page url other).
Proof.
  unfold reachPayment, reachShipping, fillContactInfo, fillShippingInfo,
    submitShippingForm.
  cbv zeta. repeat course_step.
Qed.

Lemma sameCourse_tryInput (cvv cvv' : string) (i : nat) (el : Element) :
  takesAnyText el ->
  sameCourse (tryInput page cvv i el) (tryInput page cvv' i el).
Proof.
  intros Hel. unfold tryInput. cbv zeta. repeat course_step. exact Hel.
Qed.

Lemma sameCourse_cvvLoop (cvv cvv' : string) (inputs : list Element) :
  Forall takesAnyText inputs ->
  forall i, sameCourse (cvvLoop page cvv i inputs) (cvvLoop page cvv' i inputs).
Proof.
  induction 1 as [| el rest Hel _ IH]; intros i; cbn [cvvLoop].
  - apply sameCourse_refl.
  - apply sameCourse_bind.
    + apply sameCourse_catch; [apply sameCourse_tryInput, Hel |].
      intros e _. apply sameCourse_refl.
    + intros [|] _; [apply sameCourse_refl | apply IH].
Qed.

Lemma sameCourse_cvvFallback (frame : Frame) (cvv cvv' : string)
      (selectors : list string) :
  frameTakesAnyText frame ->
  sameCourse (cvvFallback page frame cvv selectors)
             (cvvFallback page frame cvv' selectors).
Proof.
  intros [Hfirst _]. induction selectors as [| sel rest IH]; cbn [cvvFallback].
  - apply sameCourse_refl.
  - apply sameCourse_bind.
    + apply sameCourse_catch; [| intros e _; apply sameCourse_refl].
      unfold tryCvvSelector. cbv zeta. repeat course_step. apply Hfirst.
    + intros [|] _; [apply sameCourse_refl | apply IH].
Qed.

Lemma sameCourse_enterCardDetails (frame : Frame) :
  frameTakesAnyText frame ->
  sameCourse (enterCardDetails page frame this) (enterCardDetails page frame other).
Proof.
  intros Hframe. unfold enterCardDetails. apply sameCourse_bind.
  { unfold enterCardNumber. cbv zeta. repeat course_step. apply Hframe. }
  intros _ _. apply sameCourse_bind.
  { unfold enterCvv. apply sameCourse_bind; [apply sameCourse_refl |].
    intros _ _. apply sameCourse_bind; [apply sameCourse_refl |].
    intros inputs Hinputs. apply sameCourse_bind; [apply sameCourse_refl |].
    intros _ _. apply sameCourse_bind.
    { apply sameCourse_cvvLoop. apply (proj2 Hframe Sel.input inputs Hinputs). }
    intros chosen _. apply sameCourse_bind; [| intros; apply sameCourse_refl].
    destruct chosen as [i |]; [apply sameCourse_refl |].
    apply sameCourse_bind; [apply sameCourse_refl |].
    intros _ _. apply sameCourse_cvvFallback, Hframe. }
  intros _ _. unfold enterExpiry. cbv zeta. repeat course_step.
  apply (proj1 (proj2 Hpage)).
Qed.

Lemma openPaymentFrame_frame (obj : FWGSCheckout) (frame : Frame) :
  outcome (openPaymentFrame page obj) = Ok frame ->
  pg_contentFrame page = Ok (Some frame).
Proof.
  unfold openPaymentFrame, Pw.fill, Pw.waitForTimeout, Pw.l_waitFor, Pw.first, call, log.
  cbn [fst snd].
  destruct (pg_fill page Sel.cardholder _) as [e | []]; [discriminate |].
  destruct (pg_waitForTimeout page 300%N) as [e | []]; [discriminate |].
  destruct (el_waitFor (pg_first page Sel.iframe)) as [e | []]; [discriminate |].
  destruct (pg_waitForTimeout page 800%N) as [e | []]; [discriminate |].
  destruct (pg_contentFrame page) as [e | [fr |]]; [discriminate | | discriminate].
  cbn. intros H. injection H as <-. reflexivity.
Qed.

Lemma sameCourse_funnel :
  sameCourse (funnel page url this) (funnel page url other).
Proof.
  unfold funnel, handlePayment. apply sameCourse_bind; [apply sameCourse_reachPayment |].
  intros _ _. apply sameCourse_bind; [| intros; apply sameCourse_refl].
  unfold enterPaymentDetails. apply sameCourse_bind.
  { unfold openPaymentFrame. cbv zeta. repeat course_step. }
  intros frame Hframe. apply sameCourse_enterCardDetails.
  apply (proj2 (proj2 Hpage) frame), (openPaymentFrame_frame this frame Hframe).
Qed.

Lemma sameCourse_guardedSteps :
  onComplete this = onComplete other -> onError this = onError other ->
  sameCourse (guardedSteps page url this) (guardedSteps page url other).
Proof.
  intros Hc He. unfold guardedSteps, checkoutSteps, reportFailure.
  rewrite Hc, He. apply sameCourse_catch; [| intros; apply sameCourse_refl].
  apply sameCourse_bind; [apply sameCourse_funnel | intros; apply sameCourse_refl].
Qed.

End Placeholders.

(** Whatever data the two objects hold, their runs take the same
    course. *)
Lemma sameCourse_executeCheckout (chromium : Chromium) (this other : FWGSCheckout) :
  sameRequest this other ->
  browserTakesAnyText chromium (headless this) ->
  sameCourse (executeCheckout chromium this) (executeCheckout chromium other).
Proof.
  intros [Hurl [Hh [Hc He]]] Hbrowser. unfold executeCheckout. rewrite <- Hurl.
  destruct (productUrl this) as [url |]; [| apply sameCourse_refl].
  destruct (JS.nonempty url); [| apply sameCourse_refl].
  apply sameCourse_bind; [apply sameCourse_refl |]. intros _ _.
  unfold createBrowser in *. rewrite <- Hh.
  apply sameCourse_bind; [apply sameCourse_refl |].
  intros [browser page] Hbp. apply sameCourse_finally.
  apply sameCourse_guardedSteps; [| exact Hc | exact He].
  apply (Hbrowser browser page).
  - unfold call in Hbp. cbn in Hbp.
    destruct (launch chromium (headless this)) as [e | b]; [discriminate Hbp |].
    cbn in Hbp. destruct (br_newPage b) as [e | pg]; [discriminate Hbp |].
    cbn in Hbp. injection Hbp as <- _. reflexivity.
  - unfold call in Hbp. cbn in Hbp.
    destruct (launch chromium (headless this)) as [e | b]; [discriminate Hbp |].
    cbn in Hbp. destruct (br_newPage b) as [e | pg] eqn:Hpg; [discriminate Hbp |].
    cbn in Hbp. injection Hbp as <- <-. exact Hpg.
Qed.

(** C10. Constructing a [FWGSCheckout] never fails on placeholder data:
    [validateConfiguration] resolves for every object and leaves console
    lines only, the warning exactly when one of the eleven checked values
    is a known placeholder; the constructor returns the object as
    assigned, whatever the check found.  The run that follows proceeds
    in the same way whether or not the object holds placeholder data:
    it makes the same calls in the same order and ends alike as the run
    of any other object for the same request (product URL, headless
    flag and callbacks), whatever data that one holds; the two runs
    differ in the texts they type at most.  This is about the script:
    the browser's [fill] answers by the state of the field, not by the
    text, and the page is assumed to answer the two runs alike. *)
Theorem constructor_only_warns_on_placeholder_data
        (options : Options) (env : Env) :
  let this := init options env in
  outcome (validateConfiguration this) = Ok tt
  /\ outcome (constructor options env) = Ok this
  /\ trace (constructor options env)
     = map ConsoleLog (if usingTestData this then warningLines else [okLine])
  /\ (usingTestData this = true <->
      exists value, In value (currentValues this) /\ In value testValues)
  /\ forall chromium other,
       sameRequest this other ->
       browserTakesAnyText chromium (headless this) ->
       outcome (executeCheckout chromium this) = outcome (executeCheckout chromium other)
       /\ map erase (trace (executeCheckout chromium this))
          = map erase (trace (executeCheckout chromium other)).
Proof.
  intros this.
  assert (Hc : constructor options env =
               (map ConsoleLog (if usingTestData this then warningLines else [okLine]),
                Ok this)).
  { unfold constructor. fold this. rewrite validateConfiguration_run.
    cbn. rewrite app_nil_r. reflexivity. }
  split; [rewrite validateConfiguration_run; reflexivity |].
  split; [rewrite Hc; reflexivity |].
  split; [rewrite Hc; reflexivity |].
  split; [apply usingTestData_spec |].
  intros chromium other Hsame Hbrowser.
  apply (sameCourse_executeCheckout chromium this other Hsame Hbrowser).
Qed.

(** ** Cart to checkout: the strategy list *)

Section Strategies.

(** Strategies that all raise are all tried, and the loop ends with
    [checkoutClicked = false]. *)
Lemma tryStrategies_all_fail (l : list (Run unit)) :
  Forall (fun s => exists e, outcome s = Throw e) l ->
  tryStrategies l = (concat (map trace l), Ok false).
Proof.
  induction 1 as [| s rest [e He] _ IH]; [reflexivity |].
  cbn [tryStrategies map concat].
  destruct s as [t [e' | u]]; cbn in He; [| discriminate].
  cbn. rewrite IH. cbn. rewrite app_nil_r. reflexivity.
Qed.

(** The first strategy that resolves ends the loop: what comes after
    it in the list plays no part in the run. *)
Lemma tryStrategies_first_success (pre post : list (Run unit)) (s : Run unit) :
  Forall (fun s => exists e, outcome s = Throw e) pre ->
  outcome s = Ok tt ->
  tryStrategies (pre ++ s :: post) = ((concat (map trace pre) ++ trace s)%list, Ok true).
Proof.
  intros Hpre Hs. induction Hpre as [| f rest [e He] _ IH].
  - cbn [app tryStrategies map concat].
    destruct s as [t [e' | []]]; cbn in Hs; [discriminate |].
    cbn. rewrite !app_nil_r. reflexivity.
  - cbn [app tryStrategies map concat].
    destruct f as [t [e' | u]]; cbn in He; [| discriminate].
    cbn. rewrite IH. cbn. rewrite app_nil_r, app_assoc. reflexivity.
Qed.

End Strategies.

Lemma strategies_trace (page : Page) (l : list string) :
  concat (map trace (map (fun sel => Pw.l_click (Pw.locator page sel)) l))
  = map (fun sel => Click (OnPage sel)) l.
Proof. induction l as [| sel rest IH]; cbn; [| rewrite <- IH]; reflexivity. Qed.

Lemma strategies_split (page : Page) (k : nat) (sel : string) :
  nth_error strategyTargets k = Some sel ->
  strategies page =
  (map (fun sel => Pw.l_click (Pw.locator page sel)) (firstn k strategyTargets)
   ++ Pw.l_click (Pw.locator page sel)
   :: map (fun sel => Pw.l_click (Pw.locator page sel)) (skipn (S k) strategyTargets))%list.
Proof.
  unfold strategies. intros Hk.
  destruct k as [| [| [| k]]]; cbn in Hk; inversion Hk; subst; try reflexivity.
  destruct k; discriminate.
Qed.

(** C6. The three cart-to-checkout strategies are tried in declared
    order.  When the strategies before the one at position [k] raise and
    that one resolves, [navigateToCheckout] resolves and has clicked
    exactly the strategy targets up to and including it, whatever the
    later ones would do: they are never attempted.  When all three raise,
    it rejects with "Could not find checkout button" after having tried
    all three. *)
Theorem navigateToCheckout_first_working_strategy (page : Page) :
  pg_click page Sel.cart = Ok tt ->
  pg_waitForTimeout page 2000%N = Ok tt ->
  (forall k sel,
      nth_error strategyTargets k = Some sel ->
      (forall j sel', j < k -> nth_error strategyTargets j = Some sel' ->
                      exists e, el_click (pg_locator page sel') = Throw e) ->
      el_click (pg_locator page sel) = Ok tt ->
      navigateToCheckout page =
      (([Click (OnPage Sel.cart); WaitForTimeout 2000] ++ strategyClicks (S k)
        ++ [WaitForTimeout 2000])%list, Ok tt))
  /\ ((forall sel, In sel strategyTargets ->
                   exists e, el_click (pg_locator page sel) = Throw e) ->
      navigateToCheckout page =
      (([Click (OnPage Sel.cart); WaitForTimeout 2000] ++ strategyClicks 3)%list,
       Throw "Could not find checkout button")).
Proof.
  intros Hcart Hwait. split.
  - intros k sel Hk Hpre Hok.
    unfold navigateToCheckout.
    rewrite (strategies_split page k sel Hk).
    rewrite tryStrategies_first_success; cycle 1.
    + apply Forall_forall. intros s Hs. apply in_map_iff in Hs.
      destruct Hs as [sel' [<- Hin]].
      apply In_nth_error in Hin. destruct Hin as [j Hj].
      assert (Hjk : j < k).
      { assert (j < length (firstn k strategyTargets))
          by (apply nth_error_Some; congruence).
        rewrite length_firstn in H. lia. }
      rewrite nth_error_firstn in Hj.
      destruct (Nat.ltb_spec j k); [| lia].
      apply (Hpre j sel' Hjk Hj).
    + exact Hok.
    + rewrite strategies_trace.
      unfold Pw.click, Pw.waitForTimeout, call. rewrite Hcart, Hwait. cbn.
      unfold strategyClicks.
      destruct k as [| [| [| k]]]; cbn in Hk; inversion Hk; subst; try reflexivity.
      destruct k; discriminate.
  - intros Hall. unfold navigateToCheckout.
    rewrite tryStrategies_all_fail.
    + unfold strategies. rewrite strategies_trace.
      unfold Pw.click, Pw.waitForTimeout, call. rewrite Hcart, Hwait. cbn.
      reflexivity.
    + apply Forall_forall. intros s Hs. apply in_map_iff in Hs.
      destruct Hs as [sel' [<- Hin]]. apply (Hall sel' Hin).
Qed.

(** ** The optional address validation *)

(** C7. When the validation dialog does not show up within its 8 s
    timeout, [fillShippingInfo] does not reject on that account: after
    the wait for the dialog it only logs that no validation was needed
    and goes on to wait for the payment page; when that page is there,
    the stage resolves and the run continues with [handlePayment]. *)
Theorem missing_validation_dialog_is_skipped
        (page : Page) (url : string) (this : FWGSCheckout) (e : Error) :
  outcome (submitShippingForm page this) = Ok tt ->
  pg_waitForSelector page Sel.validationDialog 8000%N = Throw e ->
  fillShippingInfo page this =
    ((trace (submitShippingForm page this)
      ++ [WaitForSelector Sel.validationDialog 8000;
          ConsoleLog "No address validation needed"]
      ++ trace (awaitPaymentPage page))%list,
     outcome (awaitPaymentPage page))
  /\ (pg_waitForSelector page Sel.cardholder 15000%N = Ok tt ->
      outcome (fillShippingInfo page this) = Ok tt
      /\ (outcome (reachShipping page url this) = Ok tt ->
          funnel page url this =
            ((trace (reachShipping page url this)
              ++ trace (fillShippingInfo page this)
              ++ trace (handlePayment page this))%list,
             outcome (handlePayment page this)))).
Proof.
  intros Hform Hdialog.
  assert (Hskip : catch (confirmSuggestedAddress page)
                        (fun _ => log "No address validation needed")
                  = ([WaitForSelector Sel.validationDialog 8000;
                      ConsoleLog "No address validation needed"], Ok tt)).
  { unfold confirmSuggestedAddress, Pw.waitForSelector, call.
    rewrite Hdialog. reflexivity. }
  assert (Hfill : fillShippingInfo page this =
    ((trace (submitShippingForm page this)
      ++ [WaitForSelector Sel.validationDialog 8000;
          ConsoleLog "No address validation needed"]
      ++ trace (awaitPaymentPage page))%list,
     outcome (awaitPaymentPage page))).
  { unfold fillShippingInfo. rewrite (bind_ok _ _ tt Hform).
    rewrite Hskip. reflexivity. }
  split; [exact Hfill |].
  intros Hpay.
  assert (Hok : outcome (fillShippingInfo page this) = Ok tt).
  { rewrite Hfill. unfold awaitPaymentPage, Pw.waitForSelector, call.
    rewrite Hpay. reflexivity. }
  split; [exact Hok |].
  intros Hreach. unfold funnel.
  assert (Hrp : outcome (reachPayment page url this) = Ok tt).
  { unfold reachPayment. rewrite (bind_ok _ _ tt Hreach). exact Hok. }
  rewrite (bind_ok _ _ tt Hrp). unfold reachPayment at 1.
  rewrite (bind_ok _ _ tt Hreach). cbn [trace fst].
  rewrite <- app_assoc. reflexivity.
Qed.

(** ** Payment: the card-number field *)

(** C9. When the first non-hidden input of the payment frame is not
    visible, the card-number block does nothing but log its start and
    probe the field: no click, no fill, no error; the payment stage goes
    on with the CVV handling. *)
Theorem invisible_card_field_is_skipped
        (page : Page) (this : FWGSCheckout) (frame : Frame) :
  outcome (openPaymentFrame page this) = Ok frame ->
  el_isVisible (fr_first frame Sel.cardField) = Ok false ->
  enterCardNumber page frame this =
    ([ConsoleLog "💳 Entering card number..."; IsVisible (FrameFirst Sel.cardField)],
     Ok tt)
  /\ enterPaymentDetails page this =
       ((trace (openPaymentFrame page this)
         ++ [ConsoleLog "💳 Entering card number...";
             IsVisible (FrameFirst Sel.cardField)]
         ++ trace (afterCardNumber page frame this))%list,
        outcome (afterCardNumber page frame this)).
Proof.
  intros Hframe Hvis.
  assert (Hcard : enterCardNumber page frame this =
    ([ConsoleLog "💳 Entering card number..."; IsVisible (FrameFirst Sel.cardField)],
     Ok tt)).
  { unfold enterCardNumber, Pw.isVisible, Pw.frame_first, call. cbn [fst snd].
    rewrite Hvis. reflexivity. }
  split; [exact Hcard |].
  unfold enterPaymentDetails. rewrite (bind_ok _ _ frame Hframe).
  unfold enterCardDetails. rewrite Hcard. reflexivity.
Qed.

(** ** The shape of a run *)

Section Counting.
Variable Q : Event -> bool.

Lemma count_app (a b : Trace) : count Q (a ++ b)%list = count Q a + count Q b.
Proof. unfold count. rewrite filter_app, length_app. reflexivity. Qed.

Lemma count_cons (ev : Event) (t : Trace) :
  count Q (ev :: t) = (if Q ev then 1 else 0) + count Q t.
Proof. unfold count. cbn. destruct (Q ev); reflexivity. Qed.

Lemma count_nil : count Q [] = 0.
Proof. reflexivity. Qed.

(** A trace all of whose entries satisfy [P] holds no entry of a kind
    that [P] excludes. *)
Lemma count_excluded (P : Event -> bool) (t : Trace) :
  (forall ev, P ev = true -> Q ev = false) ->
  forallb P t = true -> count Q t = 0.
Proof.
  intros HPQ. induction t as [| ev t IH]; [reflexivity |].
  cbn [forallb]. intros H. apply andb_true_iff in H. destruct H as [Hev Ht].
  rewrite count_cons, (HPQ _ Hev), (IH Ht). reflexivity.
Qed.

End Counting.

Lemma not_in_excluded (P : Event -> bool) (t : Trace) (ev : Event) :
  P ev = false -> forallb P t = true -> ~ In ev t.
Proof.
  intros Hev Ht Hin. rewrite forallb_forall in Ht.
  rewrite (Ht _ Hin) in Hev. discriminate.
Qed.

Lemma finally_call {A} (m : Run A) (ev : Event) (r : result unit) :
  finally m (call ev r) =
  ((trace m ++ [ev])%list,
   match r with inr _ => outcome m | inl e => Throw e end).
Proof. destruct m as [t o], r as [e | u]; reflexivity. Qed.

Section RunShape.
Variables (chromium : Chromium) (this : FWGSCheckout) (browser : Browser)
          (page : Page) (url : string).
Hypothesis Hurl : productUrl this = Some url.
Hypothesis Hne : JS.nonempty url = true.
Hypothesis Hlaunch : launch chromium (headless this) = Ok browser.
Hypothesis Hpage : br_newPage browser = Ok page.

Lemma createBrowser_run :
  createBrowser chromium this = ([Launch (headless this); NewPage], Ok (browser, page)).
Proof.
  unfold createBrowser, call. rewrite Hlaunch.
  change (bind ([Launch (headless this)], Ok browser) ?k)
    with (run_bind ([Launch (headless this)], Ok browser) k).
  unfold run_bind, Ok. rewrite Hpage. reflexivity.
Qed.

(** A run that got its browser: the start, the guarded steps, the
    release. *)
Lemma executeCheckout_run :
  let guarded := guardedSteps page url this in
  executeCheckout chromium this =
  ((ConsoleLog ("🎯 Starting checkout for: " ++ url)
    :: Launch (headless this) :: NewPage :: trace guarded ++ [BrowserClose])%list,
   match br_close browser with
   | inr _ => outcome guarded
   | inl e => Throw e
   end).
Proof.
  intros guarded. unfold executeCheckout. rewrite Hurl, Hne.
  rewrite (bind_ok (log _) _ tt eq_refl).
  rewrite (bind_ok _ _ (browser, page)) by (rewrite createBrowser_run; reflexivity).
  rewrite createBrowser_run. fold guarded. rewrite finally_call.
  reflexivity.
Qed.

End RunShape.

Section Callbacks.
Variables (page : Page) (url : string) (this : FWGSCheckout).

Lemma notify_run (ev : CallbackArg -> Event) (cb : option Callback) (arg : CallbackArg) :
  notify ev cb arg =
  match cb with
  | Some f => ([ev arg], f arg)
  | None => ([], Ok tt)
  end.
Proof. destruct cb; reflexivity. Qed.

Lemma checkoutSteps_ok (r : PaymentResult) :
  outcome (funnel page url this) = Ok r ->
  checkoutSteps page url this =
  ((trace (funnel page url this)
    ++ trace (notify OnComplete (onComplete this) completedArg))%list,
   outcome (notify OnComplete (onComplete this) completedArg)).
Proof. intros H. unfold checkoutSteps. apply (bind_ok _ _ r H). Qed.

Lemma checkoutSteps_throw (e : Error) :
  outcome (funnel page url this) = Throw e ->
  checkoutSteps page url this = (trace (funnel page url this), Throw e).
Proof. intros H. unfold checkoutSteps. apply (bind_throw _ _ e H). Qed.

Lemma reportFailure_run (e : Error) :
  reportFailure page this e =
  match pg_screenshot page with
  | inr _ =>
      ((ConsoleError ("❌ Checkout Error: " ++ e) :: Screenshot
        :: trace (notify OnError (onError this) (failedArg e)))%list,
       match outcome (notify OnError (onError this) (failedArg e)) with
       | inr _ => Throw e
       | inl e' => Throw e'
       end)
  | inl e' => ([ConsoleError ("❌ Checkout Error: " ++ e); Screenshot], Throw e')
  end.
Proof.
  unfold reportFailure, Pw.screenshot, call, log_error.
  destruct (pg_screenshot page) as [e' | []]; [reflexivity |].
  destruct (notify OnError (onError this) (failedArg e)) as [t [e' | []]];
    cbn; rewrite ?app_nil_r; reflexivity.
Qed.

(** The [catch] block never calls [onComplete], calls [onError] at
    most once and does not release the browser. *)
Lemma reportFailure_counts (e : Error) :
  count isOnComplete (trace (reportFailure page this e)) = 0
  /\ count isBrowserClose (trace (reportFailure page this e)) = 0
  /\ count isOnError (trace (reportFailure page this e))
     = match pg_screenshot page, onError this with
       | inr _, Some _ => 1
       | _, _ => 0
       end.
Proof.
  rewrite reportFailure_run, notify_run.
  destruct (pg_screenshot page) as [e' | []], (onError this); repeat split.
Qed.

Lemma funnel_counts :
  count isOnComplete (trace (funnel page url this)) = 0
  /\ count isOnError (trace (funnel page url this)) = 0
  /\ count isBrowserClose (trace (funnel page url this)) = 0.
Proof.
  pose proof (emits_funnel page url this) as H. unfold emits in H.
  repeat split; apply (count_excluded _ stageEvent); try exact H;
    intros ev; destruct ev; cbn; congruence.
Qed.

End Callbacks.

(** ** Terminal callbacks and the release of the browser *)

Section Terminal.
Variables (chromium : Chromium) (this : FWGSCheckout) (browser : Browser)
          (page : Page) (url : string).

Lemma guarded_counts :
  count isBrowserClose (trace (guardedSteps page url this)) = 0
  /\ count isOnComplete (trace (guardedSteps page url this))
     = match outcome (funnel page url this), onComplete this with
       | inr _, Some _ => 1
       | _, _ => 0
       end
  /\ count isOnError (trace (guardedSteps page url this))
     = match tryBlockThrows page url this, pg_screenshot page, onError this with
       | true, inr _, Some _ => 1
       | _, _, _ => 0
       end.
Proof.
  destruct (funnel_counts page url this) as [Fc [Fe Fb]].
  unfold guardedSteps, tryBlockThrows.
  destruct (outcome (funnel page url this)) as [e | r] eqn:Hf.
  - rewrite (checkoutSteps_throw _ _ _ e Hf).
    rewrite (catch_throw _ _ e) by reflexivity. cbn [trace fst].
    destruct (reportFailure_counts page this e) as [Rc [Rb Re]].
    rewrite !count_app, Fc, Fe, Fb, Rc, Rb, Re.
    destruct (pg_screenshot page), (onError this); repeat split.
  - rewrite (checkoutSteps_ok _ _ _ r Hf). rewrite notify_run.
    destruct (onComplete this) as [f |].
    + destruct (f completedArg) as [e | []] eqn:Hcb.
      * rewrite (catch_throw _ _ e) by reflexivity. cbn [trace fst].
        destruct (reportFailure_counts page this e) as [Rc [Rb Re]].
        rewrite !count_app, Fc, Fe, Fb, Rc, Rb, Re.
        destruct (pg_screenshot page), (onError this); repeat split.
      * rewrite (catch_ok _ _ tt) by reflexivity. cbn [trace fst].
        rewrite !count_app, Fc, Fe, Fb.
        destruct (pg_screenshot page), (onError this); repeat split.
    + rewrite (catch_ok _ _ tt) by reflexivity. cbn [trace fst].
      rewrite !count_app, Fc, Fe, Fb.
      destruct (pg_screenshot page), (onError this); repeat split.
Qed.

Lemma guarded_complete (r : PaymentResult) (f : Callback) :
  outcome (funnel page url this) = Ok r ->
  onComplete this = Some f ->
  In (OnComplete completedArg) (trace (guardedSteps page url this)).
Proof.
  intros Hf Hcb. unfold guardedSteps.
  rewrite (checkoutSteps_ok _ _ _ r Hf), notify_run, Hcb.
  destruct (f completedArg) as [e | []].
  - rewrite (catch_throw _ _ e) by reflexivity. cbn [trace fst].
    apply in_or_app. left. apply in_or_app. right. left. reflexivity.
  - rewrite (catch_ok _ _ tt) by reflexivity. cbn [trace fst].
    apply in_or_app. right. left. reflexivity.
Qed.

Lemma guarded_error (e : Error) (f : Callback) :
  outcome (funnel page url this) = Throw e ->
  pg_screenshot page = Ok tt ->
  onError this = Some f ->
  In (OnError (failedArg e)) (trace (guardedSteps page url this)).
Proof.
  intros Hf Hshot Hcb. unfold guardedSteps.
  rewrite (checkoutSteps_throw _ _ _ e Hf).
  rewrite (catch_throw _ _ e) by reflexivity. cbn [trace fst].
  rewrite reportFailure_run, Hshot, notify_run, Hcb.
  apply in_or_app. right. right. right. left. reflexivity.
Qed.

End Terminal.

(** ** A monitor that is left running *)

Section Detachment.
Variables (page : Page) (url : string) (this : FWGSCheckout).

Lemma settled_not_in (t : Trace) (calls : list Event) :
  forallb settled t = true -> ~ In (Detached calls) t.
Proof.
  intros H Hin. rewrite forallb_forall in H. specialize (H _ Hin). discriminate H.
Qed.

Lemma monitor_kind_settled (ev : Event) : monitorEvent ev = true -> settled ev = true.
Proof. destruct ev; intros H; first [reflexivity | discriminate H]. Qed.

Lemma emits_settled_monitor : emits settled (monitorPaymentErrors page).
Proof.
  apply (emits_weaken monitorEvent); [apply monitor_kind_settled |].
  unfold monitorPaymentErrors. eapply emits_checkForErrors. apply Nat.le_refl.
Qed.

Lemma emits_settled_reachPayment : emits settled (reachPayment page url this).
Proof.
  unfold reachPayment, reachShipping, addToCart, addSimpleTimer, navigateToCheckout,
    fillContactInfo, strategies, strategyTargets, fillShippingInfo,
    submitShippingForm, confirmSuggestedAddress.
  cbn [map tryStrategies]. emits_stage.
Qed.

Lemma emits_settled_enterPaymentDetails :
  emits settled (enterPaymentDetails page this).
Proof.
  unfold enterPaymentDetails, openPaymentFrame, enterCardDetails, enterCardNumber,
    enterCvv, enterExpiry.
  emits_stage.
Qed.

Lemma emits_settled_result (r : MonitorResult) :
  emits settled
    (if errorFound r
     then stopTimer page ;;
          log ("❌ Payment failed: " ++ errorMessage r) ;;
          ret {| pr_success := false; pr_error := Some (errorMessage r) |}
     else paymentCompleted).
Proof. unfold stopTimer, paymentCompleted. emits_auto. Qed.

(** The place-order block leaves the monitor running only when the
    click on the button rejects; the block then rejects with the error
    of the click, and what the monitor still does is all but the first
    lookup of its checks. *)
Lemma placeOrder_detached (calls : list Event) :
  In (Detached calls) (trace (placeOrder page this)) ->
  calls = skipn 1 (trace (monitorPaymentErrors page))
  /\ exists e, el_click (pg_locator page Sel.placeOrder) = Throw e
               /\ outcome (placeOrder page this) = Throw e.
Proof.
  unfold placeOrder, Pw.l_waitFor, Pw.isEnabled, Pw.l_click, Pw.locator, call.
  cbn [fst snd].
  destruct (el_waitFor (pg_locator page Sel.placeOrder)) as [e | []].
  { rewrite (bind_throw (_, Throw e) _ e eq_refl). intros [H | []]. discriminate H. }
  rewrite (bind_ok (_, Ok tt) _ tt eq_refl).
  destruct (el_isEnabled (pg_locator page Sel.placeOrder)) as [e | [|]].
  { rewrite (bind_throw (_, Throw e) _ e eq_refl).
    intros [H | [H | []]]; discriminate H. }
  2:{ rewrite (bind_ok (_, Ok false) _ false eq_refl).
      intros [H | [H | [H | []]]]; discriminate H. }
  rewrite (bind_ok (_, Ok true) _ true eq_refl).
  rewrite (bind_ok (log _) _ tt eq_refl).
  rewrite (bind_ok (_, Ok tt) _ tt eq_refl).
  pose proof emits_settled_monitor as Hmon. unfold emits in Hmon.
  destruct (el_click (pg_locator page Sel.placeOrder)) as [e | []].
  - unfold startedBefore, Throw. cbv iota beta.
    rewrite (bind_throw _ _ e) by reflexivity.
    cbn [trace outcome fst snd log app].
    intros [H | [H | [H | [H | H]]]]; try discriminate H.
    apply in_app_or in H. destruct H as [H | H].
    { exfalso. apply (settled_not_in _ calls (forallb_firstn settled 1 _ Hmon) H). }
    destruct H as [H | [H | []]]; [discriminate H |].
    injection H as <-. split; [reflexivity |]. exists e. split; reflexivity.
  - destruct (outcome (monitorPaymentErrors page)) as [e | r] eqn:Hout.
    + unfold startedBefore, Ok. cbv iota beta.
      rewrite (bind_throw _ _ e) by (cbn [outcome snd]; exact Hout).
      cbn [trace outcome fst snd log app].
      intros [H | [H | [H | [H | H]]]]; try discriminate H.
      exfalso. apply in_app_or in H. destruct H as [H | [H | H]].
      * apply (settled_not_in _ calls (forallb_firstn settled 1 _ Hmon) H).
      * discriminate H.
      * apply (settled_not_in _ calls (forallb_skipn settled 1 _ Hmon) H).
    + unfold startedBefore, Ok. cbv iota beta.
      rewrite (bind_ok _ _ r) by (cbn [outcome snd]; exact Hout).
      cbn [trace outcome fst snd log app].
      intros [H | [H | [H | [H | H]]]]; try discriminate H.
      exfalso. apply in_app_or in H. destruct H as [H | H].
      { apply in_app_or in H. destruct H as [H | [H | H]].
        - apply (settled_not_in _ calls (forallb_firstn settled 1 _ Hmon) H).
        - discriminate H.
        - apply (settled_not_in _ calls (forallb_skipn settled 1 _ Hmon) H). }
      apply (settled_not_in _ calls (emits_settled_result r) H).
Qed.

(** The click on the enabled button rejects: the block rejects with
    the error of the click and leaves the monitor running. *)
Lemma placeOrder_rejected_click (e : Error) :
  el_waitFor (pg_locator page Sel.placeOrder) = Ok tt ->
  el_isEnabled (pg_locator page Sel.placeOrder) = Ok true ->
  el_click (pg_locator page Sel.placeOrder) = Throw e ->
  placeOrder page this =
  (([WaitFor (OnPage Sel.placeOrder) "visible" 2000; IsEnabled (OnPage Sel.placeOrder);
     ConsoleLog "🎯 Placing order..."; MonitorStart]
    ++ firstn 1 (trace (monitorPaymentErrors page))
    ++ [Click (OnPage Sel.placeOrder);
        Detached (skipn 1 (trace (monitorPaymentErrors page)))])%list,
   Throw e).
Proof.
  intros Hvisible Henabled Hclick.
  unfold placeOrder, Pw.l_waitFor, Pw.isEnabled, Pw.l_click, Pw.locator, call.
  cbn [fst snd]. rewrite Hvisible, Henabled, Hclick.
  rewrite (bind_ok (_, Ok tt) _ tt eq_refl).
  rewrite (bind_ok (_, Ok true) _ true eq_refl).
  rewrite (bind_ok (log _) _ tt eq_refl).
  rewrite (bind_ok (_, Ok tt) _ tt eq_refl).
  unfold startedBefore, Throw. cbv iota beta.
  rewrite (bind_throw _ _ e) by reflexivity.
  cbn [trace outcome fst snd log app]. reflexivity.
Qed.

Lemma funnel_rejected_click (e : Error) :
  outcome (reachPayment page url this) = Ok tt ->
  outcome (enterPaymentDetails page this) = Ok tt ->
  el_waitFor (pg_locator page Sel.placeOrder) = Ok tt ->
  el_isEnabled (pg_locator page Sel.placeOrder) = Ok true ->
  el_click (pg_locator page Sel.placeOrder) = Throw e ->
  outcome (funnel page url this) = Throw e
  /\ In (Detached (skipn 1 (trace (monitorPaymentErrors page))))
        (trace (funnel page url this)).
Proof.
  intros Hreach Hdetails Hvisible Henabled Hclick.
  unfold funnel, handlePayment.
  rewrite (bind_ok _ _ tt Hreach), (bind_ok _ _ tt Hdetails).
  rewrite (placeOrder_rejected_click e Hvisible Henabled Hclick).
  cbn [trace outcome fst snd]. split; [reflexivity |].
  apply in_or_app. right. apply in_or_app. right.
  apply in_or_app. right. apply in_or_app. right. right. left. reflexivity.
Qed.

Lemma guarded_keeps_funnel (ev : Event) :
  In ev (trace (funnel page url this)) -> In ev (trace (guardedSteps page url this)).
Proof.
  intros Hin. unfold guardedSteps.
  destruct (outcome (funnel page url this)) as [e | r] eqn:Hf.
  - rewrite (checkoutSteps_throw _ _ _ e Hf).
    rewrite (catch_throw _ _ e) by reflexivity. cbn [trace fst].
    apply in_or_app. left. exact Hin.
  - rewrite (checkoutSteps_ok _ _ _ r Hf).
    destruct (outcome (notify OnComplete (onComplete this) completedArg))
      as [e | []] eqn:Hn.
    + rewrite (catch_throw _ _ e) by reflexivity. cbn [trace fst].
      apply in_or_app. left. apply in_or_app. left. exact Hin.
    + rewrite (catch_ok _ _ tt) by reflexivity. cbn [trace fst].
      apply in_or_app. left. exact Hin.
Qed.

Lemma funnel_detached (calls : list Event) :
  In (Detached calls) (trace (funnel page url this)) ->
  calls = skipn 1 (trace (monitorPaymentErrors page))
  /\ exists e, el_click (pg_locator page Sel.placeOrder) = Throw e
               /\ outcome (funnel page url this) = Throw e.
Proof.
  unfold funnel, handlePayment.
  pose proof emits_settled_reachPayment as H1.
  pose proof emits_settled_enterPaymentDetails as H2.
  destruct (outcome (reachPayment page url this)) as [e | []] eqn:Hreach.
  { rewrite (bind_throw _ _ e Hreach). intros H.
    exfalso. apply (settled_not_in _ calls H1 H). }
  rewrite (bind_ok _ _ tt Hreach). cbn [trace outcome fst snd].
  destruct (outcome (enterPaymentDetails page this)) as [e | []] eqn:Hdetails.
  { rewrite (bind_throw _ _ e Hdetails). intros H. exfalso.
    apply in_app_or in H. destruct H as [H | H];
      [apply (settled_not_in _ calls H1 H) | apply (settled_not_in _ calls H2 H)]. }
  rewrite (bind_ok _ _ tt Hdetails). cbn [trace outcome fst snd].
  intros H. apply in_app_or in H. destruct H as [H | H];
    [exfalso; apply (settled_not_in _ calls H1 H) |].
  apply in_app_or in H. destruct H as [H | H];
    [exfalso; apply (settled_not_in _ calls H2 H) |].
  apply (placeOrder_detached calls H).
Qed.

Lemma emits_settled_reportFailure (e : Error) :
  emits settled (reportFailure page this e).
Proof.
  rewrite reportFailure_run, notify_run.
  destruct (pg_screenshot page) as [e' | []], (onError this); reflexivity.
Qed.

Lemma guarded_detached (calls : list Event) :
  In (Detached calls) (trace (guardedSteps page url this)) ->
  In (Detached calls) (trace (funnel page url this)).
Proof.
  unfold guardedSteps.
  destruct (outcome (funnel page url this)) as [e | r] eqn:Hf.
  - rewrite (checkoutSteps_throw _ _ _ e Hf).
    rewrite (catch_throw _ _ e) by reflexivity. cbn [trace fst].
    intros H. apply in_app_or in H. destruct H as [H | H]; [exact H |].
    exfalso. apply (settled_not_in _ calls (emits_settled_reportFailure e) H).
  - rewrite (checkoutSteps_ok _ _ _ r Hf). rewrite notify_run.
    destruct (onComplete this) as [f |].
    + destruct (f completedArg) as [e | []].
      * rewrite (catch_throw _ _ e) by reflexivity. cbn [trace fst].
        intros H. apply in_app_or in H. destruct H as [H | H].
        { apply in_app_or in H. destruct H as [H | [H | []]];
            [exact H | discriminate H]. }
        exfalso. apply (settled_not_in _ calls (emits_settled_reportFailure e) H).
      * rewrite (catch_ok _ _ tt) by reflexivity. cbn [trace fst].
        intros H. apply in_app_or in H. destruct H as [H | [H | []]];
          [exact H | discriminate H].
    + rewrite (catch_ok _ _ tt) by reflexivity. cbn [trace fst].
      rewrite app_nil_r. intros H. exact H.
Qed.

End Detachment.

Lemma count_start (Q : Event -> bool) (line : string) (h : bool) (t : Trace) :
  Q (ConsoleLog line) = false -> Q (Launch h) = false -> Q NewPage = false ->
  count Q (ConsoleLog line :: Launch h :: NewPage :: t) = count Q t.
Proof. intros H1 H2 H3. rewrite !count_cons, H1, H2, H3. reflexivity. Qed.

(** C3, as the script has it.  A run that passed the product-URL guard
    and got its browser releases it exactly once, on every path, and
    after every other call the run itself makes; [onComplete] and
    [onError] are each called at most once; when the stages resolve
    with a successful payment result and the configured [onComplete]
    resolves, it is the only callback; when a stage rejects, the
    screenshot is taken and [onError] is configured, [onError] is the
    only callback and gets the message of the error.  The only calls
    that can follow the release are those of an error monitor that was
    left running: the lookups, probes and timers of its checks after
    the first lookup.  That happens when the click on the place-order
    button rejects, and only then; the stages then reject with the
    error of that click. *)
Theorem executeCheckout_callbacks_and_release
        (chromium : Chromium) (this : FWGSCheckout) (browser : Browser)
        (page : Page) (url : string) :
  productUrl this = Some url -> JS.nonempty url = true ->
  launch chromium (headless this) = Ok browser ->
  br_newPage browser = Ok page ->
  let t := trace (executeCheckout chromium this) in
  (exists t', t = (t' ++ [BrowserClose])%list /\ count isBrowserClose t' = 0)
  /\ count isBrowserClose t = 1
  /\ count isOnComplete t <= 1
  /\ count isOnError t <= 1
  /\ (forall calls,
         In (Detached calls) t ->
         calls = skipn 1 (trace (monitorPaymentErrors page))
         /\ forallb monitorEvent calls = true
         /\ exists e, el_click (pg_locator page Sel.placeOrder) = Throw e
                      /\ outcome (funnel page url this) = Throw e)
  /\ (forall e,
         outcome (reachPayment page url this) = Ok tt ->
         outcome (enterPaymentDetails page this) = Ok tt ->
         el_waitFor (pg_locator page Sel.placeOrder) = Ok tt ->
         el_isEnabled (pg_locator page Sel.placeOrder) = Ok true ->
         el_click (pg_locator page Sel.placeOrder) = Throw e ->
         In (Detached (skipn 1 (trace (monitorPaymentErrors page)))) t
         /\ outcome (funnel page url this) = Throw e)
  /\ (forall r f,
         outcome (funnel page url this) = Ok r -> pr_success r = true ->
         onComplete this = Some f -> f completedArg = Ok tt ->
         count isOnComplete t = 1 /\ count isOnError t = 0
         /\ In (OnComplete completedArg) t
         /\ forallb settled t = true)
  /\ (forall e f,
         outcome (funnel page url this) = Throw e ->
         pg_screenshot page = Ok tt -> onError this = Some f ->
         count isOnComplete t = 0 /\ count isOnError t = 1
         /\ In (OnError (failedArg e)) t).
Proof.
  intros Hurl Hne Hlaunch Hpage t.
  pose proof (executeCheckout_run chromium this browser page url
                                  Hurl Hne Hlaunch Hpage) as Hrun.
  cbv zeta in Hrun.
  destruct (guarded_counts this page url) as [Gb [Gc Ge]].
  unfold tryBlockThrows in Ge.
  pose proof (guarded_detached page url this) as Gd.
  pose proof (guarded_keeps_funnel page url this) as Gk.
  set (g := trace (guardedSteps page url this)) in *.
  assert (Ht : t = (ConsoleLog ("🎯 Starting checkout for: " ++ url)
                    :: Launch (headless this) :: NewPage :: g ++ [BrowserClose])%list).
  { unfold t. rewrite Hrun. reflexivity. }
  assert (Cb : count isBrowserClose t = 1).
  { rewrite Ht, count_start, count_app, Gb by reflexivity. reflexivity. }
  assert (Cc : count isOnComplete t = count isOnComplete g).
  { rewrite Ht, count_start, count_app by reflexivity. cbn. lia. }
  assert (Ce : count isOnError t = count isOnError g).
  { rewrite Ht, count_start, count_app by reflexivity. cbn. lia. }
  assert (Cd : forall calls, In (Detached calls) t ->
                             In (Detached calls) (trace (funnel page url this))).
  { intros calls H. rewrite Ht in H.
    destruct H as [H | [H | [H | H]]]; try discriminate H.
    apply in_app_or in H. destruct H as [H | [H | []]];
      [apply Gd, H | discriminate H]. }
  clearbody t. clear Hrun.
  split; [| split; [exact Cb | split; [| split; [| split; [| split; [| split]]]]]].
  - exists (ConsoleLog ("🎯 Starting checkout for: " ++ url)
            :: Launch (headless this) :: NewPage :: g).
    split; [rewrite Ht; reflexivity |].
    rewrite count_start by reflexivity. exact Gb.
  - rewrite Cc, Gc.
    destruct (outcome (funnel page url this)), (onComplete this); lia.
  - rewrite Ce, Ge.
    repeat match goal with |- context [match ?x with _ => _ end] => destruct x end; lia.
  - intros calls H. apply Cd in H.
    destruct (funnel_detached page url this calls H) as [Hcalls Hclick].
    split; [exact Hcalls |]. split; [| exact Hclick].
    rewrite Hcalls. apply forallb_skipn.
    unfold monitorPaymentErrors.
    apply (emits_checkForErrors page false "" maxChecks 0 (Nat.le_refl _)).
  - intros e Hreach Hdetails Hvisible Henabled Hclick.
    destruct (funnel_rejected_click page url this e
                Hreach Hdetails Hvisible Henabled Hclick) as [Hout Hin].
    split; [| exact Hout].
    rewrite Ht. right. right. right. apply in_or_app. left. apply Gk, Hin.
  - intros r f Hf _ Hcb Hok. rewrite Cc, Ce, Gc, Ge, Hf, Hcb, Hok.
    split; [reflexivity |]. split; [reflexivity |]. split.
    + rewrite Ht. right. right. right. apply in_or_app. left.
      apply (guarded_complete this page url r f Hf Hcb).
    + apply forallb_forall. intros ev Hev.
      destruct ev; try reflexivity. exfalso.
      apply Cd in Hev.
      destruct (funnel_detached page url this _ Hev) as [_ [e [_ He]]].
      rewrite Hf in He. discriminate He.
  - intros e f Hf Hshot Hcb. rewrite Cc, Ce, Gc, Ge, Hf, Hshot, Hcb.
    repeat split.
    rewrite Ht. right. right. right. apply in_or_app. left.
    apply (guarded_error this page url e f Hf Hshot Hcb).
Qed.

(** ** Placing the order *)

(** C8. With the place-order button visible but not enabled,
    [placeOrder] neither clicks it nor starts the monitor and still
    returns [{ success: true }]; when the steps before it resolved, the
    run calls [onComplete] once with the success object, never
    [onError], and its trace holds no click on the button and no start
    of the monitor. *)
Theorem disabled_place_order_button_reports_success
        (chromium : Chromium) (this : FWGSCheckout) (browser : Browser)
        (page : Page) (url : string) (cb : Callback) :
  productUrl this = Some url -> JS.nonempty url = true ->
  launch chromium (headless this) = Ok browser ->
  br_newPage browser = Ok page ->
  outcome (reachPayment page url this) = Ok tt ->
  outcome (enterPaymentDetails page this) = Ok tt ->
  el_waitFor (pg_locator page Sel.placeOrder) = Ok tt ->
  el_isEnabled (pg_locator page Sel.placeOrder) = Ok false ->
  onComplete this = Some cb ->
  cb completedArg = Ok tt ->
  placeOrder page this =
    ([WaitFor (OnPage Sel.placeOrder) "visible" 2000;
      IsEnabled (OnPage Sel.placeOrder);
      ConsoleLog "✅ Payment processing completed"],
     Ok {| pr_success := true; pr_error := None |})
  /\ let t := trace (executeCheckout chromium this) in
     count isOnComplete t = 1
     /\ In (OnComplete completedArg) t
     /\ count isOnError t = 0
     /\ ~ In (Click (OnPage Sel.placeOrder)) t
     /\ ~ In MonitorStart t.
Proof.
  intros Hurl Hne Hlaunch Hpage Hreach Hdetails Hvisible Hdisabled Hcb Hcbok.
  assert (Hplace : placeOrder page this =
    ([WaitFor (OnPage Sel.placeOrder) "visible" 2000;
      IsEnabled (OnPage Sel.placeOrder);
      ConsoleLog "✅ Payment processing completed"],
     Ok {| pr_success := true; pr_error := None |})).
  { unfold placeOrder, Pw.l_waitFor, Pw.isEnabled, Pw.locator, call. cbn [fst snd].
    rewrite Hvisible, Hdisabled. reflexivity. }
  split; [exact Hplace |].
  pose proof (emits_reachPayment page url this) as E1.
  pose proof (emits_enterPaymentDetails page this) as E2.
  unfold emits in E1, E2.
  assert (Hfunnel : funnel page url this =
    ((trace (reachPayment page url this) ++ trace (enterPaymentDetails page this)
      ++ [WaitFor (OnPage Sel.placeOrder) "visible" 2000;
          IsEnabled (OnPage Sel.placeOrder);
          ConsoleLog "✅ Payment processing completed"])%list,
     Ok {| pr_success := true; pr_error := None |})).
  { unfold funnel, handlePayment.
    rewrite (bind_ok _ _ tt Hreach), (bind_ok _ _ tt Hdetails), Hplace. reflexivity. }
  assert (Hsteps : guardedSteps page url this =
    ((trace (funnel page url this) ++ [OnComplete completedArg])%list, Ok tt)).
  { unfold guardedSteps.
    rewrite (checkoutSteps_ok page url this {| pr_success := true; pr_error := None |})
      by (rewrite Hfunnel; reflexivity).
    rewrite notify_run, Hcb, Hcbok. reflexivity. }
  intros t. unfold t.
  rewrite (executeCheckout_run chromium this browser page url Hurl Hne Hlaunch Hpage).
  cbv zeta. rewrite Hsteps. cbn [trace fst].
  destruct (funnel_counts page url this) as [Fc [Fe Fb]].
  repeat split.
  - rewrite count_start, !count_app, Fc by reflexivity. reflexivity.
  - right. right. right. apply in_or_app. left. apply in_or_app. right.
    left. reflexivity.
  - rewrite count_start, !count_app, Fe by reflexivity. reflexivity.
  - rewrite Hfunnel. cbn [trace fst]. intros Hin.
    destruct Hin as [Hin | [Hin | [Hin | Hin]]]; try discriminate.
    repeat (apply in_app_or in Hin; destruct Hin as [Hin | Hin]).
    + revert Hin. apply (not_in_excluded beforeOrderEvent); [reflexivity | exact E1].
    + revert Hin. apply (not_in_excluded beforeOrderEvent); [reflexivity | exact E2].
    + cbn in Hin. intuition discriminate.
    + cbn in Hin. intuition discriminate.
    + cbn in Hin. intuition discriminate.
  - rewrite Hfunnel. cbn [trace fst]. intros Hin.
    destruct Hin as [Hin | [Hin | [Hin | Hin]]]; try discriminate.
    repeat (apply in_app_or in Hin; destruct Hin as [Hin | Hin]).
    + revert Hin. apply (not_in_excluded beforeOrderEvent); [reflexivity | exact E1].
    + revert Hin. apply (not_in_excluded beforeOrderEvent); [reflexivity | exact E2].
    + cbn in Hin. intuition discriminate.
    + cbn in Hin. intuition discriminate.
    + cbn in Hin. intuition discriminate.
Qed.

(** ** The error monitor *)

Section Monitor.
Variable page : Page.

Lemma scanPage_resolves (k : nat) : exists r, outcome (scanPage page k) = Ok r.
Proof.
  unfold scanPage.
  destruct (scanSelectors page k errorSelectors) as [t [e | r]]; cbn; eauto.
Qed.

Lemma emits_not_checkStart (sels : list string) (k : nat) :
  forallb (fun sel => negb (String.eqb sel ".payment-error")) sels = true ->
  emits (fun ev => negb (checkStart ev)) (scanSelectors page k sels).
Proof.
  induction sels as [| sel rest IH]; cbn [forallb scanSelectors]; intros H.
  - reflexivity.
  - apply andb_true_iff in H. destruct H as [Hsel Hrest].
    apply emits_bind; [apply emits_call; exact Hsel | intros els].
    apply emits_bind.
    + apply (emits_weaken probeEvent); [| apply emits_probes].
      loop_kind.
    + intros [m |]; [apply emits_ret | apply IH, Hrest].
Qed.

(** Each check looks up the first selector exactly once. *)
Lemma scanPage_one_start (k : nat) : count checkStart (trace (scanPage page k)) = 1.
Proof.
  assert (Hel : forall sel els i,
             count checkStart (trace (scanElements sel i els)) = 0).
  { intros sel els i. apply (count_excluded _ probeEvent).
    - loop_kind.
    - apply emits_probes. }
  assert (Hrest : forall sels,
             forallb (fun sel => negb (String.eqb sel ".payment-error")) sels = true ->
             count checkStart (trace (scanSelectors page k sels)) = 0).
  { intros sels Hs. apply (count_excluded _ (fun ev => negb (checkStart ev))).
    - intros ev H. apply negb_true_iff in H. exact H.
    - apply emits_not_checkStart, Hs. }
  unfold scanPage. rewrite catch_trace_ret. unfold errorSelectors.
  set (rest := [".card-error"; ".error-message"; "[role=" ++ JS.q "alert" ++ "]"]).
  specialize (Hrest rest eq_refl).
  rewrite scanSelectors_cons.
  destruct (pg_all page k ".payment-error") as [e | els] eqn:Hall.
  { rewrite (bind_throw _ _ e) by reflexivity. reflexivity. }
  rewrite (bind_ok _ _ els) by reflexivity.
  specialize (Hel ".payment-error" els 0).
  cbn [trace fst call app]. rewrite count_cons.
  change (checkStart (LocatorAll (OnPage ".payment-error"))) with true.
  cbv iota. cbn [Nat.add]. f_equal.
  destruct (outcome (scanElements ".payment-error" 0 els)) as [e | [m |]] eqn:Hscan.
  - rewrite (bind_throw _ _ e) by exact Hscan. exact Hel.
  - rewrite (bind_ok _ _ (Some m)) by exact Hscan. cbn [trace fst].
    rewrite count_app, Hel. reflexivity.
  - rewrite (bind_ok _ _ None) by exact Hscan. cbn [trace fst].
    rewrite count_app, Hel, Hrest. reflexivity.
Qed.

End Monitor.

(** *** Text that holds a keyword is not blank *)

Section Blank.

Ltac bool_hyps :=
  repeat match goal with
         | H : _ && _ = true |- _ => apply andb_true_iff in H; destruct H
         | H : _ || _ = true |- _ => apply orb_true_iff in H; destruct H
         | H : (_ =? _) = true |- _ => apply Nat.eqb_eq in H
         | H : (_ <=? _) = true |- _ => apply Nat.leb_le in H
         end.

Lemma ws_third_bytes (a b c : nat) :
  JS.ws_third a b c = true -> 128 <= a /\ 128 <= b /\ 128 <= c.
Proof. unfold JS.ws_third. intros H. bool_hyps; lia. Qed.

Lemma high_ws_byte (c : ascii) : 128 <= nat_of_ascii c -> ws_byte c = true.
Proof.
  intros H. unfold ws_byte. apply orb_true_iff. right. apply Nat.leb_le, H.
Qed.

Lemma all_space_app (s t : string) :
  all_space (s ++ t) = all_space s && all_space t.
Proof.
  induction s as [| c r IH]; [reflexivity |].
  cbn [append all_space]. rewrite IH, andb_assoc. reflexivity.
Qed.

Lemma length_append (s t : string) :
  String.length (s ++ t) = String.length s + String.length t.
Proof. induction s as [| c r IH]; [reflexivity |]. cbn. rewrite IH. reflexivity. Qed.

(** The bytes that [ws_len] counts are bytes of white space. *)
Lemma ws_len_split (s : string) (k : nat) :
  JS.ws_len s = S k ->
  exists w, s = w ++ JS.drop (S k) s /\ all_space w = true /\ String.length w = S k.
Proof.
  destruct s as [| a r]; [discriminate |]. cbn [JS.ws_len].
  destruct (JS.is_space a) eqn:Ha.
  { intros H. injection H as <-. exists (String a EmptyString).
    cbn [JS.drop append all_space String.length]. unfold ws_byte. rewrite Ha.
    repeat split. }
  destruct r as [| b r]; [discriminate |].
  destruct ((nat_of_ascii a =? 194) && (nat_of_ascii b =? 160)) eqn:H2.
  { intros H. injection H as <-. bool_hyps.
    exists (String a (String b EmptyString)).
    cbn [JS.drop append all_space String.length].
    rewrite !high_ws_byte by lia. repeat split. }
  destruct r as [| c r]; [discriminate |].
  destruct (JS.ws_third (nat_of_ascii a) (nat_of_ascii b) (nat_of_ascii c)) eqn:H3;
    [| discriminate].
  intros H. injection H as <-. apply ws_third_bytes in H3. destruct H3 as [Ha' [Hb Hc]].
  exists (String a (String b (String c EmptyString))).
  cbn [JS.drop append all_space String.length].
  rewrite !high_ws_byte by lia. repeat split.
Qed.

(** A white-space character at the start of a text is one at the start
    of every text that goes on. *)
Lemma ws_len_app (p w : string) (k : nat) :
  JS.ws_len p = S k -> JS.ws_len (p ++ w) = S k.
Proof.
  destruct p as [| a p]; [discriminate |]. cbn [JS.ws_len append].
  destruct (JS.is_space a); [auto |].
  destruct p as [| b p]; [discriminate |]. cbn [append].
  destruct ((nat_of_ascii a =? 194) && (nat_of_ascii b =? 160)); [auto |].
  destruct p as [| c p]; [discriminate |]. cbn [append]. auto.
Qed.

Lemma trimStartFrom_drop (k : nat) :
  forall s, JS.trimStartFrom k s = JS.trimStartFrom 0 (JS.drop k s).
Proof.
  induction k as [| k IH]; intros s; [destruct s; reflexivity |].
  destruct s as [| c r]; [reflexivity |]. cbn [JS.trimStartFrom JS.drop]. apply IH.
Qed.

Lemma trimStart_step (s : string) :
  JS.trimStart s =
  match JS.ws_len s with
  | 0 => s
  | S k => JS.trimStart (JS.drop (S k) s)
  end.
Proof.
  destruct s as [| c r]; [reflexivity |].
  unfold JS.trimStart. cbn [JS.trimStartFrom].
  destruct (JS.ws_len (String c r)) as [| k]; [reflexivity |].
  cbn [JS.drop]. apply trimStartFrom_drop.
Qed.

(** What [trimStart] removes is white space. *)
Lemma trimStart_suffix (s : string) :
  exists w, s = w ++ JS.trimStart s /\ all_space w = true.
Proof.
  remember (String.length s) as n eqn:Hn. revert s Hn.
  induction n as [n IH] using lt_wf_ind. intros s Hn.
  rewrite trimStart_step. destruct (JS.ws_len s) as [| k] eqn:Hk.
  - exists EmptyString. split; reflexivity.
  - destruct (ws_len_split s k Hk) as [w [Hs [Hw Hl]]].
    assert (Hlen : String.length (JS.drop (S k) s) < n).
    { subst n. rewrite Hs at 2. rewrite length_append. lia. }
    destruct (IH _ Hlen (JS.drop (S k) s) eq_refl) as [w' [Hd Hw']].
    exists (w ++ w'). split.
    + rewrite Hs at 1. rewrite Hd at 1.
      clear. induction w as [| c r IH]; [reflexivity |]. cbn [append]. rewrite IH.
      reflexivity.
    + rewrite all_space_app, Hw, Hw'. reflexivity.
Qed.

(** The text that [trimStart] leaves starts with no white space. *)
Lemma trimStart_head (s : string) : JS.ws_len (JS.trimStart s) = 0.
Proof.
  remember (String.length s) as n eqn:Hn. revert s Hn.
  induction n as [n IH] using lt_wf_ind. intros s Hn.
  rewrite trimStart_step. destruct (JS.ws_len s) as [| k] eqn:Hk; [exact Hk |].
  destruct (ws_len_split s k Hk) as [w [Hs [_ Hl]]].
  apply (IH (String.length (JS.drop (S k) s))); [| reflexivity].
  subst n. rewrite Hs at 2. rewrite length_append. lia.
Qed.

Lemma trimStart_fixed (s : string) : JS.ws_len s = 0 -> JS.trimStart s = s.
Proof. intros H. rewrite trimStart_step, H. reflexivity. Qed.

Lemma trimStart_all_space (s : string) :
  all_space (JS.trimStart s) = true -> all_space s = true.
Proof.
  destruct (trimStart_suffix s) as [w [Hs Hw]]. intros H.
  rewrite Hs, all_space_app, Hw, H. reflexivity.
Qed.

Lemma trimEnd_cons (c : ascii) (r : string) :
  JS.trimEnd (String c r) =
  match JS.trimStart (String c (JS.trimEnd r)) with
  | EmptyString => EmptyString
  | _ => String c (JS.trimEnd r)
  end.
Proof. reflexivity. Qed.

(** What [trimEnd] removes is white space. *)
Lemma trimEnd_prefix (s : string) :
  exists w, s = JS.trimEnd s ++ w /\ all_space w = true.
Proof.
  induction s as [| c r [w [Hr Hw]]]; [exists EmptyString; split; reflexivity |].
  rewrite trimEnd_cons.
  destruct (JS.trimStart (String c (JS.trimEnd r))) as [| d t] eqn:Ht.
  - exists (String c r). split; [reflexivity |].
    rewrite Hr. change (String c (JS.trimEnd r ++ w))
      with (String c (JS.trimEnd r) ++ w).
    rewrite all_space_app, Hw, andb_true_r.
    apply trimStart_all_space. rewrite Ht. reflexivity.
  - exists w. split; [| exact Hw]. cbn [append]. rewrite <- Hr. reflexivity.
Qed.

Lemma trimEnd_all_space (s : string) :
  all_space (JS.trimEnd s) = true -> all_space s = true.
Proof.
  destruct (trimEnd_prefix s) as [w [Hs Hw]]. intros H.
  rewrite Hs, all_space_app, H, Hw. reflexivity.
Qed.

Lemma trim_empty (s : string) : JS.trim s = "" -> all_space s = true.
Proof.
  intros H. apply trimStart_all_space, trimEnd_all_space.
  unfold JS.trim in H. rewrite H. reflexivity.
Qed.

Lemma lower_space (c : ascii) : ws_byte c = true -> JS.lower_char c = c.
Proof.
  unfold ws_byte, JS.is_space, JS.lower_char, JS.is_upper. intros H.
  destruct (65 <=? nat_of_ascii c) eqn:H1; [| reflexivity].
  destruct (nat_of_ascii c <=? 90) eqn:H2; [| reflexivity].
  apply Nat.leb_le in H1. apply Nat.leb_le in H2. bool_hyps; lia.
Qed.

Lemma lower_all_space (s : string) : all_space s = true -> JS.toLowerCase s = s.
Proof.
  induction s as [| c r IH]; [reflexivity |]. cbn [all_space JS.toLowerCase].
  intros H. apply andb_true_iff in H. destruct H as [Hc Hr].
  rewrite (lower_space c Hc), (IH Hr). reflexivity.
Qed.

(** A needle that starts with a byte that white space does not hold
    does not occur in the lower-case form of a blank string. *)
Lemma includes_blank (c : ascii) (needle s : string) :
  ws_byte c = false -> all_space s = true ->
  JS.includes (String c needle) (JS.toLowerCase s) = false.
Proof.
  intros Hc. induction s as [| d r IH]; [reflexivity |].
  cbn [all_space JS.toLowerCase JS.includes]. intros H.
  apply andb_true_iff in H. destruct H as [Hd Hr].
  rewrite (IH Hr), orb_false_r. cbn [prefix].
  rewrite (lower_space d Hd).
  destruct (ascii_dec c d) as [-> |]; [congruence | reflexivity].
Qed.

Lemma keyword_not_blank (text : string) :
  hasErrorKeyword text = true -> JS.nonempty (JS.trim text) = true.
Proof.
  intros H. destruct (JS.trim text) eqn:Ht; [| reflexivity].
  apply trim_empty in Ht. unfold hasErrorKeyword, errorKeywords in H.
  cbn [existsb] in H.
  rewrite !includes_blank in H by (try reflexivity; exact Ht).
  discriminate.
Qed.

Lemma isErrorText_spec (text : string) :
  isErrorText (Some text) = JS.nonempty text && hasErrorKeyword text.
Proof.
  unfold isErrorText. destruct (hasErrorKeyword text) eqn:Hk.
  - rewrite (keyword_not_blank text Hk). destruct (JS.nonempty text); reflexivity.
  - rewrite !andb_false_r. reflexivity.
Qed.

End Blank.

(** *** One scan of the page *)

Section Scan.
Variable page : Page.

Lemma scanElements_cons (sel : string) (i : nat) (el : Element) (rest : list Element) :
  scanElements sel i (el :: rest) =
  match el_isVisible el with
  | inl e => ([IsVisible (PageNth sel i)], Throw e)
  | inr false =>
      ((IsVisible (PageNth sel i) :: trace (scanElements sel (S i) rest))%list,
       outcome (scanElements sel (S i) rest))
  | inr true =>
      match el_textContent el with
      | inl e => ([IsVisible (PageNth sel i); TextContent (PageNth sel i)], Throw e)
      | inr text =>
          if isErrorText text
          then ([IsVisible (PageNth sel i); TextContent (PageNth sel i)],
                Ok (Some (JS.trim (JS.or_default text ""))))
          else ((IsVisible (PageNth sel i) :: TextContent (PageNth sel i)
                 :: trace (scanElements sel (S i) rest))%list,
                outcome (scanElements sel (S i) rest))
      end
  end.
Proof.
  cbn [scanElements]. unfold Pw.isVisible, Pw.textContent, call. cbn [fst snd].
  destruct (el_isVisible el) as [e | [|]]; try reflexivity.
  destruct (el_textContent el) as [e | text]; try reflexivity.
  cbn. destruct (isErrorText text); reflexivity.
Qed.


(** A scan that ends with a match found it on the first element of
    the list that shows an error, and reports its trimmed text. *)
Lemma scanElements_found (sel : string) (els : list Element) :
  forall i m,
    outcome (scanElements sel i els) = Ok (Some m) ->
    exists pre el post text,
      els = (pre ++ el :: post)%list
      /\ Forall (fun e => showsErrorb e = false) pre
      /\ showsError el text /\ m = JS.trim text.
Proof.
  induction els as [| el rest IH]; intros i m; [discriminate |].
  rewrite scanElements_cons.
  destruct (el_isVisible el) as [e | [|]] eqn:Hv; try discriminate.
  - destruct (el_textContent el) as [e | text] eqn:Ht; try discriminate.
    destruct (isErrorText text) eqn:He.
    + intros H. inversion H; subst m. clear H.
      destruct text as [text |]; [| discriminate].
      rewrite isErrorText_spec in He. apply andb_true_iff in He.
      destruct He as [Hn Hk].
      exists [], el, rest, text. repeat split; try assumption.
      * constructor.
      * intros ->. discriminate.
      * destruct text; [discriminate | reflexivity].
    + cbn [outcome snd]. intros H.
      destruct (IH _ _ H) as [pre [el' [post [text' [-> [Hpre [Hs ->]]]]]]].
      exists (el :: pre), el', post, text'.
      split; [reflexivity | split; [| split; [exact Hs | reflexivity]]].
      constructor; [| assumption].
      unfold showsErrorb. rewrite Hv, Ht.
      destruct text as [text |]; [| reflexivity].
      rewrite <- isErrorText_spec. exact He.
  - cbn [outcome snd]. intros H.
    destruct (IH _ _ H) as [pre [el' [post [text' [-> [Hpre [Hs ->]]]]]]].
    exists (el :: pre), el', post, text'.
    split; [reflexivity | split; [| split; [exact Hs | reflexivity]]].
    constructor; [| assumption].
    unfold showsErrorb. rewrite Hv. reflexivity.
Qed.

Lemma scanElements_answered (sel : string) (els : list Element) :
  Forall answering els ->
  forall i,
    outcome (scanElements sel i els)
    = Ok (option_map (fun el => JS.trim (textOf el)) (find showsErrorb els)).
Proof.
  induction 1 as [| el rest [v [Hv Ht]] _ IH]; intros i; [reflexivity |].
  rewrite scanElements_cons. cbn [find]. unfold showsErrorb, textOf.
  unfold Ok in *. rewrite Hv. destruct v; cbv iota beta.
  - destruct (Ht eq_refl) as [t Htext]. rewrite Htext. cbv iota beta.
    destruct t as [text |].
    + rewrite isErrorText_spec.
      destruct (JS.nonempty text && hasErrorKeyword text) eqn:He.
      * cbn [option_map outcome snd]. rewrite Htext. cbv iota beta.
        apply andb_true_iff in He. destruct He as [Hn _].
        destruct text; [discriminate | reflexivity].
      * apply IH.
    + cbn [isErrorText]. apply IH.
  - apply IH.
Qed.


End Scan.

Section ScanPage.
Variable page : Page.

Lemma find_app_first {A} (f : A -> bool) (a b : list A) :
  find f (a ++ b) = match find f a with Some x => Some x | None => find f b end.
Proof.
  induction a as [| x a IH]; [reflexivity |].
  cbn. destruct (f x); [reflexivity | exact IH].
Qed.

Lemma scanSelectors_found (k : nat) (sels : list string) (m : string) :
  outcome (scanSelectors page k sels) = Ok (Some m) ->
  exists sel els pre el post text,
    In sel sels /\ pg_all page k sel = Ok els
    /\ els = (pre ++ el :: post)%list
    /\ Forall (fun e => showsErrorb e = false) pre
    /\ showsError el text /\ m = JS.trim text.
Proof.
  induction sels as [| sel rest IH]; [discriminate |].
  rewrite scanSelectors_cons.
  destruct (pg_all page k sel) as [e | els] eqn:Hall.
  { rewrite (bind_throw _ _ e) by reflexivity. discriminate. }
  rewrite (bind_ok _ _ els) by reflexivity. cbn [outcome snd].
  destruct (outcome (scanElements sel 0 els)) as [e | [m' |]] eqn:Hscan.
  - rewrite (bind_throw _ _ e) by exact Hscan. discriminate.
  - rewrite (bind_ok _ _ (Some m')) by exact Hscan. cbn [outcome snd ret Monad_Run run_ret].
    intros H. inversion H; subst m'.
    destruct (scanElements_found sel els 0 m Hscan)
      as [pre [el [post [text [Hels [Hpre [Hs Hm]]]]]]].
    exists sel, els, pre, el, post, text.
    repeat (split; [first [left; reflexivity | assumption] |]). assumption.
  - rewrite (bind_ok _ _ None) by exact Hscan. cbn [outcome snd].
    intros H. destruct (IH H) as [sel' [els' [pre [el [post [text [Hin Hrest]]]]]]].
    exists sel', els', pre, el, post, text. split; [right; exact Hin | exact Hrest].
Qed.

Lemma scanSelectors_answered (k : nat) (sels : list string) :
  (forall sel, In sel sels ->
     exists els, pg_all page k sel = Ok els /\ Forall answering els) ->
  outcome (scanSelectors page k sels)
  = Ok (option_map (fun el => JS.trim (textOf el))
          (find showsErrorb
             (flat_map (fun sel => match pg_all page k sel with
                                   | inr els => els
                                   | inl _ => []
                                   end) sels))).
Proof.
  induction sels as [| sel rest IH]; intros Hans; [reflexivity |].
  destruct (Hans sel (or_introl eq_refl)) as [els [Hall Hels]].
  rewrite scanSelectors_cons. cbn [flat_map]. rewrite Hall.
  rewrite (bind_ok _ _ els) by reflexivity. cbn [outcome snd].
  pose proof (scanElements_answered sel els Hels 0) as Hscan.
  rewrite (bind_ok _ _ _ Hscan). cbn [outcome snd].
  unfold Ok. cbv iota beta. rewrite find_app_first.
  destruct (find showsErrorb els) as [el |]; [reflexivity |].
  cbn [option_map]. apply IH. intros s Hs. apply Hans. right. exact Hs.
Qed.


Lemma scanPage_outcome (k : nat) :
  outcome (scanPage page k)
  = match outcome (scanSelectors page k errorSelectors) with
    | inr r => Ok r
    | inl _ => Ok None
    end.
Proof.
  unfold scanPage.
  destruct (scanSelectors page k errorSelectors) as [t [e | r]]; reflexivity.
Qed.

(** A scan that reports a message read it from an element that one of
    the selectors matches and that shows an error; no element before
    it in the list of that selector does. *)
Lemma scanPage_found (k : nat) (m : string) :
  outcome (scanPage page k) = Ok (Some m) ->
  exists sel els pre el post text,
    In sel errorSelectors /\ pg_all page k sel = Ok els
    /\ els = (pre ++ el :: post)%list
    /\ Forall (fun e => showsErrorb e = false) pre
    /\ showsError el text /\ m = JS.trim text.
Proof.
  rewrite scanPage_outcome.
  destruct (outcome (scanSelectors page k errorSelectors)) as [e | r] eqn:H;
    [discriminate |].
  intros Hr. inversion Hr; subst r. apply (scanSelectors_found k _ m H).
Qed.

Lemma answersAt_answering (k : nat) :
  answersAt page k ->
  forall sel, In sel errorSelectors ->
    exists els, pg_all page k sel = Ok els /\ Forall answering els.
Proof. intros H sel Hin. apply (H sel Hin). Qed.

(** When every call of the scan is answered, it reports the trimmed
    text of the first element, in scan order, that shows an error. *)
Lemma scanPage_answered (k : nat) :
  answersAt page k ->
  outcome (scanPage page k)
  = Ok (option_map (fun el => JS.trim (textOf el))
          (find showsErrorb (errorElementsAt page k))).
Proof.
  intros H. rewrite scanPage_outcome.
  rewrite (scanSelectors_answered k errorSelectors (answersAt_answering k H)).
  reflexivity.
Qed.


(** A page that answers every call the scan could make answers those
    it makes. *)
Lemma answersAt_scanCompletes (k : nat) :
  answersAt page k -> scanCompletes page k.
Proof.
  intros H. eexists.
  apply (scanSelectors_answered k errorSelectors (answersAt_answering k H)).
Qed.

End ScanPage.

(** *** The sequence of checks *)

Section Checks.
Variable page : Page.

Lemma firstMatch_some (n : nat) :
  forall c k m,
    firstMatch page c n = Some (k, m) ->
    c < k <= c + n
    /\ outcome (scanPage page k) = Ok (Some m)
    /\ forall j, c < j < k -> outcome (scanPage page j) = Ok None.
Proof.
  induction n as [| n IH]; intros c k m; [discriminate |].
  cbn [firstMatch].
  destruct (scanPage_resolves page (S c)) as [r Hr]. rewrite Hr.
  unfold Ok. cbv iota beta. destruct r as [m' |].
  - intros H. inversion H; subst.
    split; [lia | split; [exact Hr | intros j Hj; lia]].
  - intros H. destruct (IH _ _ _ H) as [Hk [Hm Hbefore]].
    split; [lia | split; [exact Hm |]].
    intros j Hj. destruct (Nat.eq_dec j (S c)) as [-> |]; [exact Hr |].
    apply Hbefore. lia.
Qed.


Lemma checkForErrors_result (msg : string) (n : nat) :
  forall c,
    c + n = maxChecks ->
    outcome (checkForErrors page false msg c) = Ok (monitorOutcome page msg c n)
    /\ count checkStart (trace (checkForErrors page false msg c)) = monitorChecks page c n.
Proof.
  unfold monitorOutcome, monitorChecks.
  induction n as [| n IH]; intros c Hc; rewrite checkForErrors_step.
  - replace (maxChecks <=? c) with true by (symmetry; apply Nat.leb_le; lia).
    cbn [orb firstMatch]. replace c with maxChecks by lia. split; reflexivity.
  - replace (maxChecks <=? c) with false by (symmetry; apply Nat.leb_gt; lia).
    cbn [orb firstMatch].
    pose proof (scanPage_one_start page (S c)) as Hone.
    destruct (scanPage_resolves page (S c)) as [r Hr]. rewrite Hr.
    rewrite (bind_ok _ _ r Hr). cbn [trace outcome fst snd].
    unfold Ok. cbv iota beta. destruct r as [m |].
    + split; [reflexivity |].
      rewrite count_app. fold (trace (scanPage page (S c))). rewrite Hone.
      replace (S c - c) with 1 by lia. reflexivity.
    + destruct (IH (S c) ltac:(lia)) as [Hout Hcount].
      rewrite (bind_ok _ _ tt) by reflexivity. cbn [trace outcome fst snd call].
      split; [exact Hout |].
      rewrite count_app. fold (trace (scanPage page (S c))). rewrite Hone.
      cbn [app]. rewrite count_cons. cbn [checkStart].
      fold (trace (checkForErrors page false msg (S c))).
      rewrite Hcount.
      destruct (firstMatch page (S c) n) as [[k m] |] eqn:Hfm; [| lia].
      apply firstMatch_some in Hfm. lia.
Qed.

End Checks.

Section Verdict.
Variable page : Page.


Lemma monitor_result :
  outcome (monitorPaymentErrors page) = Ok (monitorOutcome page "" 0 maxChecks)
  /\ count checkStart (trace (monitorPaymentErrors page)) = monitorChecks page 0 maxChecks.
Proof. apply (checkForErrors_result page "" maxChecks 0). reflexivity. Qed.

Lemma no_error_no_match (k : nat) :
  (forall sel els el text,
      In sel errorSelectors -> pg_all page k sel = Ok els -> In el els ->
      ~ showsError el text) ->
  outcome (scanPage page k) = Ok None.
Proof.
  intros Hno. destruct (scanPage_resolves page k) as [[m |] Hr]; [| exact Hr].
  destruct (scanPage_found page k m Hr)
    as [sel [els [pre [el [post [text [Hin [Hall [Hels [_ [Hs _]]]]]]]]]]].
  exfalso. apply (Hno sel els el text Hin Hall); [| exact Hs].
  rewrite Hels. apply in_or_app. right. left. reflexivity.
Qed.

End Verdict.

(** *** The timers between the checks *)

Section Timers.
Variable page : Page.

Lemma emits_insideCheck_elements (sel : string) (els : list Element) (i : nat) :
  emits insideCheck (scanElements sel i els).
Proof.
  apply (emits_weaken probeEvent); [| apply emits_probes].
  intros ev; destruct ev; try discriminate;
    match goal with t : Target |- _ => destruct t end; intros H;
    first [discriminate H | reflexivity].
Qed.

Lemma emits_insideCheck_selectors (sels : list string) (k : nat) :
  forallb (fun sel => negb (String.eqb sel ".payment-error")) sels = true ->
  emits insideCheck (scanSelectors page k sels).
Proof.
  induction sels as [| sel rest IH]; cbn [forallb scanSelectors]; intros H.
  - reflexivity.
  - apply andb_true_iff in H. destruct H as [Hsel Hrest].
    apply emits_bind.
    + apply emits_call. unfold insideCheck. cbn [checkStart isTimer].
      rewrite Hsel. reflexivity.
    + intros els. apply emits_bind; [apply emits_insideCheck_elements |].
      intros [m |]; [apply emits_ret | apply IH, Hrest].
Qed.

(** A check starts with the lookup of the first selector; no other
    entry of it is such a lookup or a timer. *)
Lemma scanPage_shape (k : nat) :
  exists rest,
    trace (scanPage page k) = LocatorAll (OnPage ".payment-error") :: rest
    /\ forallb insideCheck rest = true.
Proof.
  unfold scanPage. rewrite catch_trace_ret. unfold errorSelectors.
  set (others := [".card-error"; ".error-message"; "[role=" ++ JS.q "alert" ++ "]"]).
  pose proof (emits_insideCheck_selectors others k eq_refl) as Hrest.
  rewrite scanSelectors_cons.
  destruct (pg_all page k ".payment-error") as [e | els] eqn:Hall.
  { rewrite (bind_throw _ _ e) by reflexivity. exists []. split; reflexivity. }
  rewrite (bind_ok _ _ els) by reflexivity.
  pose proof (emits_insideCheck_elements ".payment-error" els 0) as Hel.
  cbn [trace fst call app]. eexists. split; [reflexivity |].
  destruct (outcome (scanElements ".payment-error" 0 els)) as [e | [m |]] eqn:Hscan.
  - rewrite (bind_throw _ _ e) by exact Hscan. exact Hel.
  - rewrite (bind_ok _ _ (Some m)) by exact Hscan. cbn [trace fst].
    rewrite forallb_app. unfold emits in Hel. rewrite Hel. reflexivity.
  - rewrite (bind_ok _ _ None) by exact Hscan. cbn [trace fst].
    rewrite forallb_app. unfold emits in Hel, Hrest. rewrite Hel, Hrest. reflexivity.
Qed.

Lemma checkForErrors_trace (msg : string) (n : nat) :
  forall c, c + n = maxChecks ->
            trace (checkForErrors page false msg c) = pollTrace page c n.
Proof.
  induction n as [| n IH]; intros c Hc; rewrite checkForErrors_step.
  - replace (maxChecks <=? c) with true by (symmetry; apply Nat.leb_le; lia).
    reflexivity.
  - replace (maxChecks <=? c) with false by (symmetry; apply Nat.leb_gt; lia).
    cbn [orb pollTrace].
    destruct (scanPage_resolves page (S c)) as [r Hr]. rewrite Hr.
    rewrite (bind_ok _ _ r Hr). cbn [trace fst].
    unfold Ok. cbv iota beta. destruct r as [m |]; [reflexivity |].
    rewrite (bind_ok _ _ tt) by reflexivity. cbn [trace fst call app].
    rewrite (IH (S c)) by lia. reflexivity.
Qed.

(** An entry that a first part of a trace does not hold lies in the
    rest. *)
Lemma split_after (P : Event -> bool) (front : Trace) (x : Event) :
  P x = false -> forallb P front = true ->
  forall rest t1 t2,
    (front ++ rest)%list = (t1 ++ x :: t2)%list ->
    exists u, t1 = (front ++ u)%list /\ rest = (u ++ x :: t2)%list.
Proof.
  intros Hx. induction front as [| y front IH]; intros Hf rest t1 t2 H.
  - exists t1. split; [reflexivity | exact H].
  - cbn [forallb] in Hf. apply andb_true_iff in Hf. destruct Hf as [Hy Hf].
    destruct t1 as [| z t1]; cbn [app] in H; injection H as Hz H.
    + subst y. rewrite Hy in Hx. discriminate Hx.
    + subst z. destruct (IH Hf rest t1 t2 H) as [u [H1 H2]].
      exists u. split; [rewrite H1; reflexivity | exact H2].
Qed.

Lemma insideCheck_weaken (Q : Event -> bool) (t : Trace) :
  (forall ev, insideCheck ev = true -> Q ev = true) ->
  forallb insideCheck t = true -> forallb Q t = true.
Proof.
  intros HQ. induction t as [| ev t IH]; [reflexivity |]. cbn [forallb].
  intros H. apply andb_true_iff in H. destruct H as [Hev Ht].
  rewrite (HQ ev Hev), (IH Ht). reflexivity.
Qed.

(** Every check after the first one starts right after a timer of
    200 ms. *)
Lemma pollTrace_starts (n : nat) :
  forall c t1 t2,
    pollTrace page c n = (t1 ++ LocatorAll (OnPage ".payment-error") :: t2)%list ->
    t1 = [] \/ exists t0, t1 = (t0 ++ [SetTimeout 200])%list.
Proof.
  induction n as [| n IH]; intros c t1 t2 H; [destruct t1; discriminate H |].
  cbn [pollTrace] in H.
  destruct (scanPage_shape (S c)) as [rest [Hs Hrest]]. rewrite Hs in H.
  destruct t1 as [| z t1]; [left; reflexivity |]. right.
  cbn [app] in H. injection H as Hz H. subst z.
  assert (Hq : forallb (fun ev => negb (checkStart ev)) rest = true).
  { apply (insideCheck_weaken _ rest); [| exact Hrest].
    intros ev Hev. apply andb_true_iff in Hev. apply Hev. }
  destruct (split_after _ rest (LocatorAll (OnPage ".payment-error")) eq_refl Hq
              _ t1 t2 H) as [u [H1 H2]].
  destruct (outcome (scanPage page (S c))) as [e | [m |]].
  - destruct u as [| z u]; [discriminate H2 |]. cbn [app] in H2.
    injection H2 as Hz H2. subst z.
    destruct (IH (S c) u t2 H2) as [-> | [t0 ->]].
    + exists (LocatorAll (OnPage ".payment-error") :: rest). rewrite H1.
      reflexivity.
    + exists (LocatorAll (OnPage ".payment-error") :: rest ++ SetTimeout 200 :: t0).
      rewrite H1. cbn [app]. rewrite <- !app_assoc. reflexivity.
  - destruct u as [| z [| z' u]]; discriminate H2.
  - destruct u as [| z u]; [discriminate H2 |]. cbn [app] in H2.
    injection H2 as Hz H2. subst z.
    destruct (IH (S c) u t2 H2) as [-> | [t0 ->]].
    + exists (LocatorAll (OnPage ".payment-error") :: rest). rewrite H1.
      reflexivity.
    + exists (LocatorAll (OnPage ".payment-error") :: rest ++ SetTimeout 200 :: t0).
      rewrite H1. cbn [app]. rewrite <- !app_assoc. reflexivity.
Qed.

Lemma pollTrace_head (n : nat) (c : nat) :
  pollTrace page c n = []
  \/ exists t, pollTrace page c n = LocatorAll (OnPage ".payment-error") :: t.
Proof.
  destruct n as [| n]; [left; reflexivity |]. right. cbn [pollTrace].
  destruct (scanPage_shape (S c)) as [rest [Hs _]]. rewrite Hs. eexists. reflexivity.
Qed.

(** Every timer is one of 200 ms, and the next check starts right
    after it, or the poll is over. *)
Lemma pollTrace_timers (n : nat) :
  forall c t1 ms t2,
    pollTrace page c n = (t1 ++ SetTimeout ms :: t2)%list ->
    ms = 200%N
    /\ (t2 = [] \/ exists t3, t2 = LocatorAll (OnPage ".payment-error") :: t3).
Proof.
  induction n as [| n IH]; intros c t1 ms t2 H; [destruct t1; discriminate H |].
  cbn [pollTrace] in H.
  destruct (scanPage_shape (S c)) as [rest [Hs Hrest]]. rewrite Hs in H.
  assert (Hq : forallb (fun ev => negb (isTimer ev))
                       (LocatorAll (OnPage ".payment-error") :: rest) = true).
  { cbn [forallb isTimer negb andb]. apply (insideCheck_weaken _ rest); [| exact Hrest].
    intros ev Hev. apply andb_true_iff in Hev. apply Hev. }
  destruct (split_after _ _ (SetTimeout ms) eq_refl Hq _ t1 t2 H) as [u [H1 H2]].
  assert (Hnext : forall u,
             (SetTimeout 200 :: pollTrace page (S c) n)%list
             = (u ++ SetTimeout ms :: t2)%list ->
             ms = 200%N
             /\ (t2 = [] \/ exists t3, t2 = LocatorAll (OnPage ".payment-error") :: t3)).
  { intros [| z v] Hv; cbn [app] in Hv; injection Hv as Hz Hv.
    - split; [symmetry; exact Hz |]. rewrite <- Hv. apply pollTrace_head.
    - apply (IH (S c) v ms t2 Hv). }
  destruct (outcome (scanPage page (S c))) as [e | [m |]].
  - apply (Hnext u H2).
  - destruct u as [| z [| z' u]]; discriminate H2.
  - apply (Hnext u H2).
Qed.

Lemma pollTrace_count (n : nat) :
  forall c,
    count isTimer (pollTrace page c n)
    = match firstMatch page c n with
      | Some (k, _) => k - c - 1
      | None => n
      end.
Proof.
  induction n as [| n IH]; intros c; [reflexivity |].
  cbn [pollTrace firstMatch].
  destruct (scanPage_shape (S c)) as [rest [Hs Hrest]]. rewrite Hs.
  assert (Hz : count isTimer (LocatorAll (OnPage ".payment-error") :: rest) = 0).
  { rewrite count_cons. cbn [isTimer]. apply (count_excluded _ insideCheck).
    - intros ev Hev. apply andb_true_iff in Hev. destruct Hev as [_ Hev].
      apply negb_true_iff, Hev.
    - exact Hrest. }
  rewrite count_app, Hz.
  destruct (scanPage_resolves page (S c)) as [r Hr]. rewrite Hr.
  unfold Ok. cbv iota beta. destruct r as [m |].
  - replace (S c - c - 1) with 0 by lia. reflexivity.
  - rewrite count_cons, IH. cbn [isTimer].
    destruct (firstMatch page (S c) n) as [[k m] |] eqn:Hfm; [| lia].
    apply firstMatch_some in Hfm. lia.
Qed.

End Timers.

(** C4. The error monitor always resolves, after at most 50 checks: its
    trace holds at most 50 scans, and the reported time is 200 ms per
    check made.  The checks are 200 ms apart: every check after the
    first one starts right after a timer of 200 ms, every timer set is
    one of 200 ms and is followed at once by the next check, or by
    nothing when the fiftieth check is over, and there is one timer for
    every check that found no error.  When none of the elements the
    selectors match during the 50 checks shows an error, it makes
    exactly 50 checks and resolves with [errorFound = false], whatever
    else the page does. *)
Theorem monitorPaymentErrors_terminates (page : Page) :
  exists r,
    let t := trace (monitorPaymentErrors page) in
    outcome (monitorPaymentErrors page) = Ok r
    /\ count checkStart t <= 50
    /\ timing r = (N.of_nat (count checkStart t) * 200)%N
    /\ emits monitorEvent (monitorPaymentErrors page)
    /\ (forall t1 t2,
           t = (t1 ++ LocatorAll (OnPage ".payment-error") :: t2)%list ->
           t1 = [] \/ exists t0, t1 = (t0 ++ [SetTimeout 200])%list)
    /\ (forall t1 ms t2,
           t = (t1 ++ SetTimeout ms :: t2)%list ->
           ms = 200%N
           /\ (t2 = [] \/ exists t3, t2 = LocatorAll (OnPage ".payment-error") :: t3))
    /\ count isTimer t
       = (if errorFound r then count checkStart t - 1 else count checkStart t)
    /\ ((forall k sel els el text,
            1 <= k <= 50 -> In sel errorSelectors -> pg_all page k sel = Ok els ->
            In el els -> ~ showsError el text) ->
        r = unconfirmed /\ count checkStart t = 50).
Proof.
  destruct (monitor_result page) as [Hout Hcount].
  assert (Htrace : trace (monitorPaymentErrors page) = pollTrace page 0 maxChecks)
    by (apply (checkForErrors_trace page "" maxChecks 0); reflexivity).
  exists (monitorOutcome page "" 0 maxChecks). cbv zeta.
  split; [exact Hout |]. rewrite Hcount.
  assert (Hstarts : forall t1 t2,
             trace (monitorPaymentErrors page)
             = (t1 ++ LocatorAll (OnPage ".payment-error") :: t2)%list ->
             t1 = [] \/ exists t0, t1 = (t0 ++ [SetTimeout 200])%list).
  { intros t1 t2 H. rewrite Htrace in H. apply (pollTrace_starts page _ _ _ _ H). }
  assert (Htimers : forall t1 ms t2,
             trace (monitorPaymentErrors page) = (t1 ++ SetTimeout ms :: t2)%list ->
             ms = 200%N
             /\ (t2 = [] \/ exists t3, t2 = LocatorAll (OnPage ".payment-error") :: t3)).
  { intros t1 ms t2 H. rewrite Htrace in H. apply (pollTrace_timers page _ _ _ _ _ H). }
  assert (Hn : count isTimer (trace (monitorPaymentErrors page))
               = match firstMatch page 0 maxChecks with
                 | Some (k, _) => k - 0 - 1
                 | None => maxChecks
                 end).
  { rewrite Htrace. apply pollTrace_count. }
  rewrite Hn. unfold monitorOutcome, monitorChecks.
  destruct (firstMatch page 0 maxChecks) as [[k m] |] eqn:Hfm.
  - apply firstMatch_some in Hfm. destruct Hfm as [Hk [Hat _]].
    change maxChecks with 50 in Hk.
    split; [lia |]. split; [cbn [timing]; f_equal; f_equal; lia |].
    split; [apply emits_checkForErrors with (n := maxChecks); apply Nat.le_refl |].
    split; [exact Hstarts |]. split; [exact Htimers |].
    split; [cbn [errorFound]; lia |].
    intros Hno. exfalso.
    assert (Hnone : outcome (scanPage page k) = Ok None).
    { apply no_error_no_match. intros sel els el text. apply Hno. lia. }
    rewrite Hnone in Hat. discriminate.
  - split; [apply Nat.le_refl |]. split; [reflexivity |].
    split; [apply emits_checkForErrors with (n := maxChecks); apply Nat.le_refl |].
    split; [exact Hstarts |]. split; [exact Htimers |].
    split; [reflexivity |].
    intros _. split; reflexivity.
Qed.





Section FirstShownError.
Variable page : Page.
Hypothesis Hans :
  forall k, 1 <= k <= monitorChecks page 0 maxChecks -> scanCompletes page k.





End FirstShownError.


(** ** Payment: the CVV field *)

Section Cvv.
Variables (page : Page) (cvv : string).

Lemma tryInput_outcome (i : nat) (el : Element) :
  outcome (tryInput page cvv i el) =
  match el_isVisible el with inl e => Throw e | inr v =>
  match el_isEnabled el with inl e => Throw e | inr en =>
  match el_getAttribute el "type" with inl e => Throw e | inr ty =>
  match el_getAttribute el "name" with inl e => Throw e | inr _ =>
  match el_getAttribute el "id" with inl e => Throw e | inr _ =>
    if cvvCandidate v en (JS.or_default ty "") i then
      match el_click el with inl e => Throw e | inr _ =>
      match pg_waitForTimeout page 300%N with inl e => Throw e | inr _ =>
      match el_fill el "" with inl e => Throw e | inr _ =>
      match pg_waitForTimeout page 200%N with inl e => Throw e | inr _ =>
      match el_fill el cvv with inl e => Throw e | inr _ =>
      match pg_waitForTimeout page 400%N with inl e => Throw e | inr _ =>
        Ok true
      end end end end end end
    else Ok false
  end end end end end.
Proof.
  unfold tryInput, attributeOrEmpty, Pw.isVisible, Pw.isEnabled, Pw.getAttribute,
    Pw.l_click, Pw.l_fill, Pw.waitForTimeout, call. cbn [fst snd].
  destruct (el_isVisible el) as [e | v]; [reflexivity |].
  destruct (el_isEnabled el) as [e | en]; [reflexivity |].
  destruct (el_getAttribute el "type") as [e | ty]; [reflexivity |].
  destruct (el_getAttribute el "name") as [e | nm]; [reflexivity |].
  destruct (el_getAttribute el "id") as [e | id]; [reflexivity |].
  cbn [bind Monad_Run run_bind ret run_ret outcome snd fst log Ok].
  destruct (cvvCandidate v en (JS.or_default ty "") i); [| reflexivity].
  destruct (el_click el) as [e | []]; [reflexivity |].
  destruct (pg_waitForTimeout page 300%N) as [e | []]; [reflexivity |].
  destruct (el_fill el "") as [e | []]; [reflexivity |].
  destruct (pg_waitForTimeout page 200%N) as [e | []]; [reflexivity |].
  destruct (el_fill el cvv) as [e | []]; [reflexivity |].
  destruct (pg_waitForTimeout page 400%N) as [e | []]; reflexivity.
Qed.

End Cvv.

Section CvvLoop.
Variables (page : Page) (cvv : string).

Lemma cvvLoop_cons (i : nat) (el : Element) (rest : list Element) :
  outcome (cvvLoop page cvv i (el :: rest)) =
  match outcome (tryInput page cvv i el) with
  | inr true => Ok (Some i)
  | _ => outcome (cvvLoop page cvv (S i) rest)
  end.
Proof.
  cbn [cvvLoop].
  destruct (tryInput page cvv i el) as [t [e | [|]]]; reflexivity.
Qed.

Lemma tryInput_true_eligible (i : nat) (el : Element) :
  outcome (tryInput page cvv i el) = Ok true -> cvvEligible i el = true.
Proof.
  rewrite tryInput_outcome. unfold cvvEligible.
  destruct (el_isVisible el) as [e | v]; [discriminate |].
  destruct (el_isEnabled el) as [e | en]; [discriminate |].
  destruct (el_getAttribute el "type") as [e | ty]; [discriminate |].
  destruct (cvvCandidate v en (JS.or_default ty "") i); [reflexivity |].
  destruct (el_getAttribute el "name"); [discriminate |].
  destruct (el_getAttribute el "id"); discriminate.
Qed.

Lemma eligible_visible_enabled (i : nat) (el : Element) :
  cvvEligible i el = true ->
  0 < i /\ el_isVisible el = Ok true /\ el_isEnabled el = Ok true
  /\ exists ty, el_getAttribute el "type" = Ok ty /\ JS.or_default ty "" <> "hidden".
Proof.
  unfold cvvEligible, cvvCandidate.
  destruct (el_isVisible el) as [e | v]; [discriminate |].
  destruct (el_isEnabled el) as [e | en]; [discriminate |].
  destruct (el_getAttribute el "type") as [e | ty]; [discriminate |].
  intros H. apply andb_true_iff in H. destruct H as [H Hi].
  apply andb_true_iff in H. destruct H as [H Hty].
  apply andb_true_iff in H. destruct H as [Hv He]. subst.
  apply Nat.ltb_lt in Hi. apply negb_true_iff in Hty.
  apply String.eqb_neq in Hty.
  repeat split; try assumption. exists ty. split; [reflexivity | exact Hty].
Qed.

Lemma tryInput_answered (i : nat) (el : Element) :
  pausesResolve page -> inputAnswers el ->
  (cvvEligible i el = true -> inputAccepts cvv el) ->
  outcome (tryInput page cvv i el) = Ok (cvvEligible i el).
Proof.
  intros [P3 [P2 P4]] [[v Hv] [[en He] [[ty Hty] [[nm Hnm] [id Hid]]]]] Hacc.
  rewrite tryInput_outcome. unfold cvvEligible in *.
  rewrite Hv, He, Hty, Hnm, Hid in *. unfold Ok in *. cbv iota beta in *.
  destruct (cvvCandidate v en (JS.or_default ty "") i); [| reflexivity].
  destruct (Hacc eq_refl) as [Hc [Hf0 Hf]].
  rewrite Hc, P3, Hf0, P2, Hf, P4. reflexivity.
Qed.

(** The loop chooses an input that passes the test, and none before
    it was taken. *)
Lemma cvvLoop_sound (inputs : list Element) :
  forall i0 i,
    outcome (cvvLoop page cvv i0 inputs) = Ok (Some i) ->
    exists j el, i = i0 + j /\ nth_error inputs j = Some el
                 /\ cvvEligible i el = true.
Proof.
  induction inputs as [| el rest IH]; intros i0 i; [discriminate |].
  rewrite cvvLoop_cons.
  destruct (outcome (tryInput page cvv i0 el)) as [e | [|]] eqn:Htry.
  - intros H. destruct (IH _ _ H) as [j [el' [-> [Hj He]]]].
    exists (S j), el'. split; [lia |]. split; [exact Hj |].
    replace (i0 + S j) with (S i0 + j) by lia. exact He.
  - intros H. inversion H; subst i. exists 0, el.
    rewrite Nat.add_0_r. split; [reflexivity |]. split; [reflexivity |].
    apply tryInput_true_eligible, Htry.
  - intros H. destruct (IH _ _ H) as [j [el' [-> [Hj He]]]].
    exists (S j), el'. split; [lia |]. split; [exact Hj |].
    replace (i0 + S j) with (S i0 + j) by lia. exact He.
Qed.

Lemma cvvLoop_answered (inputs : list Element) :
  pausesResolve page ->
  forall i0,
    (forall j el, nth_error inputs j = Some el ->
                  inputAnswers el
                  /\ (cvvEligible (i0 + j) el = true -> inputAccepts cvv el)) ->
    outcome (cvvLoop page cvv i0 inputs) = Ok (firstEligible i0 inputs).
Proof.
  intros Hp. induction inputs as [| el rest IH]; intros i0 Hall; [reflexivity |].
  rewrite cvvLoop_cons. cbn [firstEligible].
  destruct (Hall 0 el eq_refl) as [Hans Hacc]. rewrite Nat.add_0_r in Hacc.
  rewrite (tryInput_answered i0 el Hp Hans Hacc). unfold Ok. cbv iota beta.
  destruct (cvvEligible i0 el); [reflexivity |].
  apply IH. intros j el' Hj.
  replace (S i0 + j) with (i0 + S j) by lia. apply (Hall (S j) el' Hj).
Qed.

Lemma firstEligible_spec (inputs : list Element) :
  forall i0 i,
    firstEligible i0 inputs = Some i <->
    exists j el, i = i0 + j /\ nth_error inputs j = Some el
                 /\ cvvEligible i el = true
                 /\ forall j' el', j' < j -> nth_error inputs j' = Some el' ->
                                   cvvEligible (i0 + j') el' = false.
Proof.
  induction inputs as [| el rest IH]; intros i0 i.
  - cbn. split; [discriminate |]. intros [j [el [_ [Hj _]]]].
    destruct j; discriminate.
  - cbn [firstEligible]. destruct (cvvEligible i0 el) eqn:He.
    + split.
      * intros H. inversion H; subst i. exists 0, el.
        rewrite Nat.add_0_r. repeat split; try assumption. intros; lia.
      * intros [j [el' [-> [Hj [Hel Hmin]]]]].
        destruct j as [| j]; [rewrite Nat.add_0_r; reflexivity |].
        specialize (Hmin 0 el ltac:(lia) eq_refl).
        rewrite Nat.add_0_r in Hmin. congruence.
    + rewrite IH. split.
      * intros [j [el' [-> [Hj [Hel Hmin]]]]]. exists (S j), el'.
        split; [lia |]. split; [exact Hj |]. split; [exact Hel |].
        intros j' e' Hlt Hn. destruct j' as [| j'].
        -- cbn in Hn. inversion Hn; subst. rewrite Nat.add_0_r. exact He.
        -- replace (i0 + S j') with (S i0 + j') by lia.
           apply (Hmin j' e'); [lia | exact Hn].
      * intros [j [el' [-> [Hj [Hel Hmin]]]]].
        destruct j as [| j].
        -- cbn in Hj. inversion Hj; subst. rewrite Nat.add_0_r in Hel. congruence.
        -- exists j, el'. split; [lia |]. split; [exact Hj |]. split; [exact Hel |].
           intros j' e' Hlt Hn. replace (S i0 + j') with (i0 + S j') by lia.
           apply (Hmin (S j') e'); [lia | exact Hn].
Qed.

End CvvLoop.

Lemma cvvField_eligible (i : nat) (el : Element) :
  cvvField i el <-> cvvEligible i el = true.
Proof.
  split.
  - intros [Hi [Hv [He [ty [Hty Hne]]]]]. unfold cvvEligible, cvvCandidate.
    rewrite Hv, He, Hty. unfold Ok. cbv iota beta.
    apply String.eqb_neq in Hne. rewrite Hne.
    replace (0 <? i) with true by (symmetry; apply Nat.ltb_lt; lia). reflexivity.
  - intros H. destruct (eligible_visible_enabled i el H) as [Hi [Hv [He Hty]]].
    repeat split; try assumption.
Qed.

Lemma cvvLoop_resolves (page : Page) (cvv : string) (inputs : list Element) :
  forall i0, exists chosen, outcome (cvvLoop page cvv i0 inputs) = Ok chosen.
Proof.
  induction inputs as [| el rest IH]; intros i0; [exists None; reflexivity |].
  rewrite cvvLoop_cons.
  destruct (outcome (tryInput page cvv i0 el)) as [e | [|]];
    [apply IH | exists (Some i0); reflexivity | apply IH].
Qed.

(** The loop over the inputs of the frame always ends, and the input
    it puts the CVV in is never the one at index 0 and is visible,
    enabled and not of type hidden: index 0 and every hidden or disabled
    input are passed over.  On inputs that answer the probes of the loop
    and, when they pass its test, take the click and the fills, it is
    the first such input.  For the inputs [hidden, text, text, hidden]
    that is the input at index 1, the second one overall. *)
Lemma cvv_goes_to_first_eligible_input
        (page : Page) (cvv : string) (inputs : list Element) :
  exists chosen,
    outcome (cvvLoop page cvv 0 inputs) = Ok chosen
    /\ (forall i, chosen = Some i ->
                  exists el, nth_error inputs i = Some el /\ cvvField i el)
    /\ (pausesResolve page ->
        ((forall j el, nth_error inputs j = Some el ->
                       inputAnswers el /\ (cvvField j el -> inputAccepts cvv el)) ->
         forall i,
           chosen = Some i <->
           exists el, nth_error inputs i = Some el /\ cvvField i el
                      /\ forall j el', j < i -> nth_error inputs j = Some el' ->
                                       ~ cvvField j el')
        /\ outcome (cvvLoop page cvv 0 Scenario.exampleInputs) = Ok (Some 1)).
Proof.
  destruct (cvvLoop_resolves page cvv inputs 0) as [chosen Hchosen].
  exists chosen. split; [exact Hchosen |]. split.
  - intros i ->. destruct (cvvLoop_sound page cvv inputs 0 i Hchosen)
      as [j [el [Hi [Hj He]]]].
    cbn [Nat.add] in Hi. subst j. exists el. split; [exact Hj |].
    apply cvvField_eligible, He.
  - intros Hp. split.
    + intros Hall.
      assert (Hfirst : chosen = firstEligible 0 inputs).
      { assert (H : Ok chosen = Ok (firstEligible 0 inputs)).
        { rewrite <- Hchosen. apply cvvLoop_answered; [exact Hp |]. intros j el Hj.
          destruct (Hall j el Hj) as [Hans Hacc]. split; [exact Hans |].
          intros He. apply Hacc. apply cvvField_eligible. exact He. }
        inversion H. reflexivity. }
      intros i. rewrite Hfirst, firstEligible_spec. split.
      * intros [j [el [-> [Hj [He Hmin]]]]]. cbn [Nat.add] in *.
        exists el. split; [exact Hj |]. split; [apply cvvField_eligible, He |].
        intros j' el' Hlt Hj' Hf. apply cvvField_eligible in Hf.
        rewrite (Hmin j' el' Hlt Hj') in Hf. discriminate.
      * intros [el [Hi [Hf Hmin]]]. exists i, el.
        split; [reflexivity |]. split; [exact Hi |].
        split; [apply cvvField_eligible, Hf |].
        intros j' el' Hlt Hj'. cbn [Nat.add].
        destruct (cvvEligible j' el') eqn:He; [| reflexivity].
        exfalso. apply (Hmin j' el' Hlt Hj'). apply cvvField_eligible, He.
    + rewrite cvvLoop_answered; [reflexivity | exact Hp |].
      intros j el Hj. cbn [Nat.add].
      assert (Hel : el = Scenario.hiddenInput \/ el = Scenario.textInput).
      { destruct j as [| [| [| [| j]]]]; cbn in Hj; inversion Hj; auto.
        destruct j; discriminate. }
      destruct Hel as [-> | ->].
      * split; [repeat split; eexists; reflexivity |].
        unfold cvvEligible, cvvCandidate. cbn. discriminate.
      * split; [repeat split; eexists; reflexivity |].
        intros _. repeat split.
Qed.

(** ** Concrete runs *)

(** C1. The declined payment of scenario B: an element of
    [.payment-error] shows "Card declined" from check 5 on, both
    callbacks are configured.  [handlePayment] returns
    [{ success: false, error: "Card declined" }]; [executeCheckout] drops
    that value, calls [onComplete] with the success object, never calls
    [onError], and resolves. *)
Theorem declined_payment_is_reported_as_completed :
  let page := Scenario.decliningShop in
  let run := executeCheckout (Scenario.chromiumFor page) Scenario.checkout in
  outcome (handlePayment page Scenario.checkout)
  = Ok {| pr_success := false; pr_error := Some "Card declined" |}
  /\ outcome run = Ok tt
  /\ filter (fun ev => isOnComplete ev || isOnError ev) (trace run)
     = [OnComplete completedArg]
  /\ count isOnError (trace run) = 0.
Proof. vm_compute. repeat split. Qed.

(** A run without a product URL stops at the guard of [executeCheckout]:
    nothing is called, neither callback, although both are configured. *)
Lemma run_without_url_emits_no_callback :
  let this := init Scenario.buyerWithoutUrl Scenario.noEnv in
  let run := executeCheckout (Scenario.chromiumFor Scenario.quietShop) this in
  run = ([], Throw missingUrl)
  /\ (exists f g, onComplete this = Some f /\ onError this = Some g)
  /\ count isOnComplete (trace run) + count isOnError (trace run) <> 1.
Proof.
  split; [reflexivity |]. split; [do 2 eexists; split; reflexivity |].
  vm_compute. discriminate.
Qed.


(** C2.  The script does not do what the claim says of the inputs
    [hidden, text, text, hidden].  The card-field locator takes the
    first input that is not hidden, the one at index 1; the loop of the
    CVV passes over index 0 only, which it takes for the card field, and
    puts the CVV into the first visible and enabled input behind it, the
    one at index 1 again.  The field gets the card number and then the
    CVV, which replaces it; the third input, the one the claim names,
    gets nothing.  The fallback does not keep index 0 out either: in a
    frame whose only input is a field of maximum length 4, the loop
    finds nothing and the fallback puts the CVV into the input at
    index 0, on top of the card number. *)
Theorem cvv_overwrites_the_card_number :
  let page := Scenario.quietShop in
  let this := Scenario.checkout in
  let inputs := Scenario.exampleInputs in
  let run := enterCardDetails page (Cases.documentFrame inputs) this in
  let single := [Cases.securityCodeInput] in
  let run' := enterCardDetails page (Cases.documentFrame single) this in
  p_cardNumber (paymentInfo this) = "5555555555554444"
  /\ p_cvv (paymentInfo this) = "737"
  /\ outcome run = Ok tt
  /\ outcome (enterCvv page (Cases.documentFrame inputs) this) = Ok (Some 1, true)
  /\ Cases.inputOf inputs (FrameFirst Sel.cardField) = Some 1
  /\ Cases.typedInto inputs 1 (trace run) = [""; "5555555555554444"; ""; "737"]
  /\ Cases.typedInto inputs 2 (trace run) = []
  /\ outcome run' = Ok tt
  /\ outcome (enterCvv page (Cases.documentFrame single) this) = Ok (None, true)
  /\ Cases.typedInto single 0 (trace run') = [""; "5555555555554444"; "737"].
Proof. vm_compute. repeat split. Qed.

(** For the inputs [hidden, text, text, hidden] the CVV goes into the
    input at index 1, the second one, not into the third. *)
Lemma cvv_example_selects_second_input :
  let page := Scenario.shop Scenario.exampleInputs Scenario.present Scenario.noAlerts in
  let run := enterCvv page (Scenario.frameOf Scenario.exampleInputs) Scenario.checkout in
  outcome (cvvLoop page "737" 0 Scenario.exampleInputs) = Ok (Some 1)
  /\ outcome (cvvLoop page "737" 0 Scenario.exampleInputs) <> Ok (Some 2)
  /\ outcome run = Ok (Some 1, true)
  /\ count (fun ev => match ev with
                      | Fill (FrameNth _ 1) "737" => true
                      | _ => false
                      end) (trace run) = 1
  /\ count (fun ev => match ev with
                      | Click (FrameNth _ 2) | Fill (FrameNth _ 2) _ => true
                      | _ => false
                      end) (trace run) = 0.
Proof. vm_compute. repeat split. discriminate. Qed.

(** ** The theorems at work on concrete pages *)

Lemma navigateToCheckout_third_strategy :
  pg_click Scenario.anchorOnlyShop Sel.cart = Ok tt
  /\ pg_waitForTimeout Scenario.anchorOnlyShop 2000%N = Ok tt
  /\ navigateToCheckout Scenario.anchorOnlyShop =
     (([Click (OnPage Sel.cart); WaitForTimeout 2000] ++ strategyClicks 3
       ++ [WaitForTimeout 2000])%list, Ok tt).
Proof.
  split; [reflexivity |]. split; [reflexivity |].
  apply (proj1 (navigateToCheckout_first_working_strategy
                  Scenario.anchorOnlyShop eq_refl eq_refl) 2 Sel.checkoutAnchor).
  - reflexivity.
  - intros j sel' Hlt Hn.
    destruct j as [| [| j]]; [| | lia]; cbn in Hn; inversion Hn; subst;
      eexists; reflexivity.
  - reflexivity.
Defined.

Lemma quiet_shop_skips_validation :
  let page := Scenario.quietShop in
  let this := Scenario.checkout in
  outcome (submitShippingForm page this) = Ok tt
  /\ pg_waitForSelector page Sel.validationDialog 8000%N = Throw "Timeout 8000ms exceeded"
  /\ fillShippingInfo page this =
     ((trace (submitShippingForm page this)
       ++ [WaitForSelector Sel.validationDialog 8000;
           ConsoleLog "No address validation needed"]
       ++ trace (awaitPaymentPage page))%list,
      outcome (awaitPaymentPage page)).
Proof.
  split; [reflexivity |]. split; [reflexivity |].
  apply (proj1 (missing_validation_dialog_is_skipped
                  Scenario.quietShop "https://www.finewineandgoodspirits.com/product/1"
                  Scenario.checkout "Timeout 8000ms exceeded" eq_refl eq_refl)).
Defined.

Lemma hidden_card_field_is_skipped :
  let page := Scenario.shop [Scenario.hiddenInput] Scenario.present Scenario.noAlerts in
  let frame := Scenario.frameOf [Scenario.hiddenInput] in
  outcome (openPaymentFrame page Scenario.checkout) = Ok frame
  /\ el_isVisible (fr_first frame Sel.cardField) = Ok false
  /\ enterCardNumber page frame Scenario.checkout =
     ([ConsoleLog "💳 Entering card number..."; IsVisible (FrameFirst Sel.cardField)],
      Ok tt).
Proof.
  split; [reflexivity |]. split; [reflexivity |].
  apply (proj1 (invisible_card_field_is_skipped
                  (Scenario.shop [Scenario.hiddenInput] Scenario.present Scenario.noAlerts)
                  Scenario.checkout (Scenario.frameOf [Scenario.hiddenInput])
                  eq_refl eq_refl)).
Defined.

Lemma disabled_button_run :
  let page := Scenario.shop Scenario.cardForm Scenario.disabledButton Scenario.noAlerts in
  let t := trace (executeCheckout (Scenario.chromiumFor page) Scenario.checkout) in
  el_isEnabled (pg_locator page Sel.placeOrder) = Ok false
  /\ count isOnComplete t = 1
  /\ In (OnComplete completedArg) t
  /\ count isOnError t = 0
  /\ ~ In (Click (OnPage Sel.placeOrder)) t
  /\ ~ In MonitorStart t.
Proof.
  split; [reflexivity |].
  apply (proj2 (disabled_place_order_button_reports_success
                  (Scenario.chromiumFor
                     (Scenario.shop Scenario.cardForm Scenario.disabledButton
                                    Scenario.noAlerts))
                  Scenario.checkout
                  {| br_newPage :=
                       Ok (Scenario.shop Scenario.cardForm Scenario.disabledButton
                                         Scenario.noAlerts);
                     br_close := Ok tt |}
                  (Scenario.shop Scenario.cardForm Scenario.disabledButton
                                 Scenario.noAlerts)
                  "https://www.finewineandgoodspirits.com/product/1"
                  (fun _ => Ok tt)
                  eq_refl eq_refl eq_refl eq_refl eq_refl eq_refl eq_refl eq_refl
                  eq_refl eq_refl)).
Defined.

Lemma quiet_shop_run_releases_browser :
  let page := Scenario.quietShop in
  let t := trace (executeCheckout (Scenario.chromiumFor page) Scenario.checkout) in
  productUrl Scenario.checkout = Some "https://www.finewineandgoodspirits.com/product/1"
  /\ count isBrowserClose t = 1
  /\ count isOnComplete t <= 1
  /\ count isOnError t <= 1.
Proof.
  split; [reflexivity |].
  pose proof (executeCheckout_callbacks_and_release
                (Scenario.chromiumFor Scenario.quietShop) Scenario.checkout
                {| br_newPage := Ok Scenario.quietShop; br_close := Ok tt |}
                Scenario.quietShop
                "https://www.finewineandgoodspirits.com/product/1"
                eq_refl eq_refl eq_refl eq_refl) as H.
  cbv zeta in H. destruct H as [_ [Hb [Hc [He _]]]].
  split; [exact Hb |]. split; [exact Hc | exact He].
Defined.

(** On the shop whose place-order button cannot be clicked, the run
    rejects with the error of the click; the browser is closed last,
    and the monitor, started before the click, is left running with
    its 50 timers and 49 of its 50 checks still to come. *)
Lemma covered_button_leaves_the_monitor_running :
  let page := Scenario.coveredButtonShop in
  let run := executeCheckout (Scenario.chromiumFor page) Scenario.checkout in
  outcome run = Throw "Timeout 30000ms exceeded"
  /\ filter (fun ev => negb (settled ev)) (trace run)
     = [Detached (skipn 1 (trace (monitorPaymentErrors page)))]
  /\ count isTimer (skipn 1 (trace (monitorPaymentErrors page))) = 50
  /\ count checkStart (skipn 1 (trace (monitorPaymentErrors page))) = 49
  /\ last (trace run) NewPage = BrowserClose
  /\ count isOnError (trace run) = 1.
Proof. vm_compute. repeat split. Qed.


Lemma present_takes_any_text : takesAnyText Scenario.present.
Proof. intros v w. reflexivity. Qed.

Lemma absent_takes_any_text : takesAnyText Scenario.absent.
Proof. intros v w. reflexivity. Qed.

Lemma textInput_takes_any_text : takesAnyText Scenario.textInput.
Proof. intros v w. reflexivity. Qed.

Lemma quiet_shop_takes_any_text : pageTakesAnyText Scenario.quietShop.
Proof.
  split; [intros sel v w; reflexivity |]. split.
  - intros sel. unfold Scenario.quietShop, Scenario.shop. cbn [pg_locator].
    destruct (String.eqb sel Sel.placeOrder); [apply present_takes_any_text |].
    destruct (String.eqb sel Sel.useThisAddress);
      [apply absent_takes_any_text | apply present_takes_any_text].
  - intros frame H. injection H as <-. split.
    + intros sel. unfold Scenario.frameOf. cbn [fr_first].
      destruct (String.eqb sel Sel.cardField);
        [apply textInput_takes_any_text | apply absent_takes_any_text].
    + intros sel els H. injection H as <-.
      repeat constructor; apply textInput_takes_any_text.
Qed.

Lemma placeholder_run_takes_the_course_of_the_buyers_run :
  let chromium := Scenario.chromiumFor Scenario.quietShop in
  let this := init Scenario.placeholderBuyer Scenario.noEnv in
  usingTestData this = true
  /\ usingTestData Scenario.checkout = false
  /\ outcome (executeCheckout chromium this)
     = outcome (executeCheckout chromium Scenario.checkout)
  /\ map erase (trace (executeCheckout chromium this))
     = map erase (trace (executeCheckout chromium Scenario.checkout)).
Proof.
  split; [reflexivity |]. split; [reflexivity |].
  destruct (constructor_only_warns_on_placeholder_data
              Scenario.placeholderBuyer Scenario.noEnv) as [_ [_ [_ [_ Hrun]]]].
  apply (Hrun (Scenario.chromiumFor Scenario.quietShop) Scenario.checkout).
  - repeat split.
  - intros browser page Hb Hp. injection Hb as <-. injection Hp as <-.
    apply quiet_shop_takes_any_text.
Defined.

Lemma example_inputs_take_cvv_at_index_1 :
  let page := Scenario.shop Scenario.exampleInputs Scenario.present Scenario.noAlerts in
  pausesResolve page
  /\ outcome (cvvLoop page "737" 0 Scenario.exampleInputs) = Ok (Some 1).
Proof.
  split; [repeat split |].
  destruct (cvv_goes_to_first_eligible_input
              (Scenario.shop Scenario.exampleInputs Scenario.present Scenario.noAlerts)
              "737" Scenario.exampleInputs) as [chosen [_ [_ Hfirst]]].
  apply (proj2 (Hfirst (conj eq_refl (conj eq_refl eq_refl)))).
Defined.

Lemma quiet_shop_is_unconfirmed :
  outcome (monitorPaymentErrors Scenario.quietShop) = Ok unconfirmed
  /\ count checkStart (trace (monitorPaymentErrors Scenario.quietShop)) = 50.
Proof.
  destruct (monitorPaymentErrors_terminates Scenario.quietShop)
    as [r [Hout [_ [_ [_ [_ [_ [_ Hno]]]]]]]].
  destruct Hno as [Hr Hc].
  { intros k sel els el text _ _ Hall Hin.
    cbn in Hall. inversion Hall; subst. destruct Hin. }
  subst r. split; assumption.
Defined.


(** * Further properties of the script *)

(** ** The constructor *)

Lemma or_default_nonempty (a : option string) (d : string) :
  JS.nonempty d = true -> JS.nonempty (JS.or_default a d) = true.
Proof.
  intros Hd. unfold JS.or_default. destruct a as [s |]; [| exact Hd].
  destruct (JS.nonempty s) eqn:Hs; [exact Hs | exact Hd].
Qed.

(** X1. Whatever the options and the environment hold, every buyer,
    shipping and payment field of a constructed object is a non-empty
    string, and the shipping name is the contact name. *)
Theorem constructed_fields_are_filled (options : Options) (env : Env) :
  let this := init options env in
  Forall (fun v => JS.nonempty v = true) (currentValues this)
  /\ JS.nonempty (s_firstName (shippingInfo this)) = true
  /\ JS.nonempty (s_lastName (shippingInfo this)) = true
  /\ s_firstName (shippingInfo this) = u_firstName (userInfo this)
  /\ s_lastName (shippingInfo this) = u_lastName (userInfo this).
Proof.
  cbv zeta. unfold init, currentValues. cbn [userInfo shippingInfo paymentInfo
    u_firstName u_lastName u_email u_phone s_firstName s_lastName s_address s_city
    s_zipCode p_cardholderName p_cardNumber p_cvv p_expiryDate].
  split; [| repeat split; apply or_default_nonempty; reflexivity].
  repeat constructor; apply or_default_nonempty; reflexivity.
Qed.

Lemma or_absent (e : option string) : JS.or None e = e.
Proof. reflexivity. Qed.

(** X2. The built-in shipping address is not among the values the
    validation looks for: an object whose name, contact and payment
    values are not placeholders and whose address is left to the
    defaults passes the check, and the constructor prints the line for
    configured data, although it will ship to 520 CHESTNUT ST. *)
Theorem default_address_passes_validation (options : Options) (env : Env) :
  o_address options = None -> o_city options = None -> o_zipCode options = None ->
  env "CHECKOUT_ADDRESS" = None -> env "CHECKOUT_CITY" = None ->
  env "CHECKOUT_ZIP" = None ->
  let this := init options env in
  (forall v,
      In v [u_firstName (userInfo this); u_lastName (userInfo this);
            u_email (userInfo this); u_phone (userInfo this);
            p_cardholderName (paymentInfo this); p_cardNumber (paymentInfo this);
            p_cvv (paymentInfo this); p_expiryDate (paymentInfo this)] ->
      JS.array_includes testValues v = false) ->
  s_address (shippingInfo this) = "520 CHESTNUT ST"
  /\ s_city (shippingInfo this) = "PHILADELPHIA"
  /\ s_zipCode (shippingInfo this) = "19106"
  /\ usingTestData this = false
  /\ trace (constructor options env) = [ConsoleLog okLine].
Proof.
  intros Ha Hc Hz Ea Ec Ez this Hreal.
  assert (Haddr : s_address (shippingInfo this) = "520 CHESTNUT ST").
  { unfold this, init. cbn [shippingInfo s_address]. rewrite Ha, Ea. reflexivity. }
  assert (Hcity : s_city (shippingInfo this) = "PHILADELPHIA").
  { unfold this, init. cbn [shippingInfo s_city]. rewrite Hc, Ec. reflexivity. }
  assert (Hzip : s_zipCode (shippingInfo this) = "19106").
  { unfold this, init. cbn [shippingInfo s_zipCode]. rewrite Hz, Ez. reflexivity. }
  assert (Hno : usingTestData this = false).
  { unfold usingTestData, currentValues. rewrite Haddr, Hcity, Hzip.
    cbn [existsb].
    rewrite (Hreal (u_firstName (userInfo this))),
      (Hreal (u_lastName (userInfo this))), (Hreal (u_email (userInfo this))),
      (Hreal (u_phone (userInfo this))),
      (Hreal (p_cardholderName (paymentInfo this))),
      (Hreal (p_cardNumber (paymentInfo this))),
      (Hreal (p_cvv (paymentInfo this))),
      (Hreal (p_expiryDate (paymentInfo this)))
      by (cbn [In]; repeat (first [left; reflexivity | right])).
    reflexivity. }
  repeat split; try assumption.
  unfold constructor. fold this. rewrite validateConfiguration_run, Hno. reflexivity.
Qed.

(** ** Runs that do not get their browser *)

(** X3. Without a usable product URL, neither in the options nor in
    the environment, the run of the constructed object rejects with the
    "Product URL is required" error before any call is made: no browser
    is launched and nothing is logged. *)
Theorem run_without_product_url_makes_no_call
        (options : Options) (env : Env) (chromium : Chromium) :
  JS.truthy (o_productUrl options) = false ->
  JS.truthy (env "PRODUCT_URL") = false ->
  executeCheckout chromium (init options env) = ([], Throw missingUrl).
Proof.
  intros Ho He. unfold executeCheckout, init. cbn [productUrl].
  unfold JS.or. rewrite Ho.
  destruct (env "PRODUCT_URL") as [url |]; [| reflexivity].
  cbn [JS.truthy] in He. rewrite He. reflexivity.
Qed.

(** X4. When the browser cannot be launched, the run rejects with the
    error of the launch right after the start line: nothing is reported
    through [onError], no screenshot is taken. *)
Theorem launch_failure_is_not_reported
        (chromium : Chromium) (this : FWGSCheckout) (url : string) (e : Error) :
  productUrl this = Some url -> JS.nonempty url = true ->
  launch chromium (headless this) = Throw e ->
  executeCheckout chromium this =
  ([ConsoleLog ("🎯 Starting checkout for: " ++ url); Launch (headless this)],
   Throw e).
Proof.
  intros Hurl Hne Hlaunch. unfold executeCheckout. rewrite Hurl, Hne.
  rewrite (bind_ok (log _) _ tt eq_refl).
  rewrite (bind_throw (createBrowser chromium this) _ e).
  - unfold createBrowser, call. rewrite Hlaunch. reflexivity.
  - unfold createBrowser, call. rewrite Hlaunch. reflexivity.
Qed.

(** X5. When the browser is launched but cannot open a page, the run
    rejects with that error and the browser is left open: [close] is
    never called, and neither is [onError]. *)
Theorem page_failure_leaves_browser_open
        (chromium : Chromium) (this : FWGSCheckout) (browser : Browser)
        (url : string) (e : Error) :
  productUrl this = Some url -> JS.nonempty url = true ->
  launch chromium (headless this) = Ok browser ->
  br_newPage browser = Throw e ->
  executeCheckout chromium this =
  ([ConsoleLog ("🎯 Starting checkout for: " ++ url); Launch (headless this); NewPage],
   Throw e).
Proof.
  intros Hurl Hne Hlaunch Hpage. unfold executeCheckout. rewrite Hurl, Hne.
  rewrite (bind_ok (log _) _ tt eq_refl).
  assert (Hcb : createBrowser chromium this
                = ([Launch (headless this); NewPage], Throw e)).
  { unfold createBrowser, call. rewrite Hlaunch.
    change (bind ([Launch (headless this)], Ok browser) ?k)
      with (run_bind ([Launch (headless this)], Ok browser) k).
    unfold run_bind, Ok. rewrite Hpage. reflexivity. }
  rewrite (bind_throw (createBrowser chromium this) _ e) by (rewrite Hcb; reflexivity).
  rewrite Hcb. reflexivity.
Qed.

(** ** The timer overlay *)

(** X6. A fault of the timer overlay never stops the run: setting it up
    and stopping it resolve on every page; when [evaluate] rejects, the
    only trace of it is a console line. *)
Theorem timer_faults_are_swallowed (page : Page) :
  addSimpleTimer page =
    (Evaluate TimerSetup
     :: match pg_evaluate page TimerSetup with
        | inr _ => []
        | inl _ => [ConsoleLog "Timer setup failed, continuing without timer"]
        end, Ok tt)
  /\ stopTimer page =
    (Evaluate TimerStop
     :: match pg_evaluate page TimerStop with
        | inr _ => [ConsoleLog "⏰ Timer stopped"]
        | inl _ => [ConsoleLog "Timer stop failed, but continuing..."]
        end, Ok tt).
Proof.
  unfold addSimpleTimer, stopTimer, Pw.evaluate, call. split.
  - destruct (pg_evaluate page TimerSetup) as [e | []]; reflexivity.
  - destruct (pg_evaluate page TimerStop) as [e | []]; reflexivity.
Qed.

(** ** The address validation *)

Lemma catch_log_resolves (m : Run unit) (line : string) :
  outcome (catch m (fun _ => log line)) = Ok tt.
Proof. destruct m as [t [e | []]]; reflexivity. Qed.

(** X7. Whatever goes wrong inside the address-validation step is
    swallowed, not only a dialog that does not show up: once the
    shipping form is submitted, [fillShippingInfo] resolves or rejects
    exactly as the wait for the payment page does. *)
Theorem validation_faults_are_swallowed (page : Page) (this : FWGSCheckout) :
  outcome (submitShippingForm page this) = Ok tt ->
  outcome (fillShippingInfo page this) = outcome (awaitPaymentPage page).
Proof.
  intros Hform. unfold fillShippingInfo.
  rewrite (bind_ok _ _ tt Hform). cbn [outcome snd].
  rewrite (bind_ok _ _ tt (catch_log_resolves _ _)). reflexivity.
Qed.

(** ** The payment frame *)

(** X8. When the payment iframe has no content frame, [handlePayment]
    rejects with "Could not access iframe content" right after asking
    for it: the cardholder name is the only payment value typed, no card
    number, CVV or expiry date is entered and no order is placed. *)
Theorem missing_frame_stops_payment (page : Page) (this : FWGSCheckout) :
  pg_fill page Sel.cardholder (p_cardholderName (paymentInfo this)) = Ok tt ->
  pg_waitForTimeout page 300%N = Ok tt ->
  el_waitFor (pg_first page Sel.iframe) = Ok tt ->
  pg_waitForTimeout page 800%N = Ok tt ->
  pg_contentFrame page = Ok None ->
  handlePayment page this =
  ([ConsoleLog "💳 Processing payment...";
    Fill (OnPage Sel.cardholder) (p_cardholderName (paymentInfo this));
    WaitForTimeout 300; WaitFor (PageFirst Sel.iframe) "attached" 3000;
    WaitForTimeout 800; ContentFrame],
   Throw "Could not access iframe content").
Proof.
  intros Hfill H300 Hwait H800 Hframe.
  assert (Hopen : openPaymentFrame page this =
    ([ConsoleLog "💳 Processing payment...";
      Fill (OnPage Sel.cardholder) (p_cardholderName (paymentInfo this));
      WaitForTimeout 300; WaitFor (PageFirst Sel.iframe) "attached" 3000;
      WaitForTimeout 800; ContentFrame],
     Throw "Could not access iframe content")).
  { unfold openPaymentFrame, Pw.fill, Pw.waitForTimeout, Pw.l_waitFor, Pw.first, call.
    cbn [fst snd]. rewrite Hfill, H300, Hwait, H800, Hframe. reflexivity. }
  unfold handlePayment, enterPaymentDetails.
  rewrite (bind_throw (openPaymentFrame page this) _ "Could not access iframe content")
    by (rewrite Hopen; reflexivity).
  rewrite Hopen. reflexivity.
Qed.

(** ** Stages that fail *)

Lemma emits_no_payment (page : Page) (url : string) (this : FWGSCheckout) :
  emits notPaymentEvent (reachPayment page url this).
Proof.
  unfold reachPayment, reachShipping, addToCart, addSimpleTimer, navigateToCheckout,
    fillContactInfo, fillShippingInfo, submitShippingForm, confirmSuggestedAddress,
    strategies, strategyTargets.
  cbn [map tryStrategies]. emits_stage.
Qed.

Lemma emits_reportFailure (page : Page) (this : FWGSCheckout) (e : Error) :
  emits notPaymentEvent (reportFailure page this e).
Proof.
  rewrite reportFailure_run, notify_run.
  destruct (pg_screenshot page) as [e' | []], (onError this); reflexivity.
Qed.

(** X9. When a stage before the payment rejects, the run never gets to
    the payment: no payment value is typed, the payment iframe is not
    touched, no order is placed and the monitor is not started;
    [onComplete] is not called, and [onError] gets the message of the
    fault when the screenshot could be taken. *)
Theorem failed_stage_keeps_payment_data_back
        (chromium : Chromium) (this : FWGSCheckout) (browser : Browser)
        (page : Page) (url : string) (e : Error) :
  productUrl this = Some url -> JS.nonempty url = true ->
  launch chromium (headless this) = Ok browser ->
  br_newPage browser = Ok page ->
  outcome (reachPayment page url this) = Throw e ->
  let t := trace (executeCheckout chromium this) in
  forallb notPaymentEvent t = true
  /\ count isOnComplete t = 0
  /\ count isBrowserClose t = 1
  /\ forall f, pg_screenshot page = Ok tt -> onError this = Some f ->
               In (OnError (failedArg e)) t /\ count isOnError t = 1.
Proof.
  intros Hurl Hne Hlaunch Hpage Hreach t.
  assert (Hfunnel : outcome (funnel page url this) = Throw e).
  { unfold funnel. rewrite (bind_throw _ _ e Hreach). reflexivity. }
  assert (Htf : trace (funnel page url this) = trace (reachPayment page url this)).
  { unfold funnel. rewrite (bind_throw _ _ e Hreach). reflexivity. }
  destruct (guarded_counts this page url) as [Gb [Gc Ge]].
  unfold tryBlockThrows in Ge. rewrite Hfunnel in Gc, Ge.
  assert (Hg : trace (guardedSteps page url this)
               = (trace (reachPayment page url this)
                  ++ trace (reportFailure page this e))%list).
  { unfold guardedSteps. rewrite (checkoutSteps_throw _ _ _ e Hfunnel).
    rewrite (catch_throw _ _ e) by reflexivity. cbn [trace fst]. rewrite Htf.
    reflexivity. }
  assert (Ht : t = (ConsoleLog ("🎯 Starting checkout for: " ++ url)
                    :: Launch (headless this) :: NewPage
                    :: trace (guardedSteps page url this) ++ [BrowserClose])%list).
  { unfold t.
    rewrite (executeCheckout_run chromium this browser page url Hurl Hne Hlaunch Hpage).
    reflexivity. }
  split; [| split; [| split]].
  - rewrite Ht, Hg. cbn [forallb]. rewrite !forallb_app.
    pose proof (emits_no_payment page url this) as E1.
    pose proof (emits_reportFailure page this e) as E2.
    unfold emits in E1, E2. rewrite E1, E2. reflexivity.
  - rewrite Ht, count_start, count_app, Gc by reflexivity. reflexivity.
  - rewrite Ht, count_start, count_app, Gb by reflexivity. reflexivity.
  - intros f Hshot Hcb. split.
    + rewrite Ht. right. right. right. apply in_or_app. left.
      apply (guarded_error this page url e f Hfunnel Hshot Hcb).
    + rewrite Ht, count_start, count_app, Ge, Hshot, Hcb by reflexivity. reflexivity.
Qed.

(** ** Faults inside the callbacks and the catch block *)

(** X10. [onComplete] is called inside the [try] block: when the stages
    resolved and [onComplete] itself rejects, the screenshot is taken,
    [onError] is called as well, with the message of that rejection, and
    the run rejects. *)
Theorem rejecting_onComplete_triggers_onError
        (chromium : Chromium) (this : FWGSCheckout) (browser : Browser)
        (page : Page) (url : string) (r : PaymentResult)
        (f g : Callback) (e : Error) :
  productUrl this = Some url -> JS.nonempty url = true ->
  launch chromium (headless this) = Ok browser ->
  br_newPage browser = Ok page ->
  outcome (funnel page url this) = Ok r ->
  onComplete this = Some f -> f completedArg = Throw e ->
  pg_screenshot page = Ok tt ->
  onError this = Some g -> g (failedArg e) = Ok tt ->
  br_close browser = Ok tt ->
  executeCheckout chromium this =
  ((ConsoleLog ("🎯 Starting checkout for: " ++ url) :: Launch (headless this)
    :: NewPage :: trace (funnel page url this)
    ++ [OnComplete completedArg; ConsoleError ("❌ Checkout Error: " ++ e);
        Screenshot; OnError (failedArg e); BrowserClose])%list,
   Throw e).
Proof.
  intros Hurl Hne Hlaunch Hpage Hf Hc Hfc Hshot Hg Hge Hclose.
  rewrite (executeCheckout_run chromium this browser page url Hurl Hne Hlaunch Hpage).
  cbv zeta. rewrite Hclose.
  assert (Hsteps : guardedSteps page url this =
    ((trace (funnel page url this)
      ++ [OnComplete completedArg; ConsoleError ("❌ Checkout Error: " ++ e);
          Screenshot; OnError (failedArg e)])%list, Throw e)).
  { unfold guardedSteps. rewrite (checkoutSteps_ok _ _ _ r Hf), notify_run, Hc, Hfc.
    rewrite (catch_throw _ _ e) by reflexivity. cbn [trace outcome fst snd].
    rewrite reportFailure_run, Hshot, notify_run, Hg, Hge. cbn [trace outcome fst snd].
    rewrite <- app_assoc. reflexivity. }
  rewrite Hsteps. cbn [trace outcome fst snd]. rewrite <- app_assoc. reflexivity.
Qed.

(** X11. When a stage rejects and the screenshot fails too, the run
    rejects with the error of the screenshot, not with the one of the
    stage; the error of the stage is written to the console, but neither
    [onError] nor [onComplete] is called, and the browser is released
    once. *)
Theorem failing_screenshot_masks_the_error
        (chromium : Chromium) (this : FWGSCheckout) (browser : Browser)
        (page : Page) (url : string) (e e' : Error) :
  productUrl this = Some url -> JS.nonempty url = true ->
  launch chromium (headless this) = Ok browser ->
  br_newPage browser = Ok page ->
  outcome (funnel page url this) = Throw e ->
  pg_screenshot page = Throw e' ->
  br_close browser = Ok tt ->
  let t := trace (executeCheckout chromium this) in
  outcome (executeCheckout chromium this) = Throw e'
  /\ count isOnError t = 0
  /\ count isOnComplete t = 0
  /\ count isBrowserClose t = 1
  /\ In (ConsoleError ("❌ Checkout Error: " ++ e)) t
  /\ In Screenshot t.
Proof.
  intros Hurl Hne Hlaunch Hpage Hf Hshot Hclose t. unfold t. clear t.
  rewrite (executeCheckout_run chromium this browser page url Hurl Hne Hlaunch Hpage).
  cbv zeta. rewrite Hclose.
  assert (Hsteps : guardedSteps page url this =
    ((trace (funnel page url this)
      ++ [ConsoleError ("❌ Checkout Error: " ++ e); Screenshot])%list, Throw e')).
  { unfold guardedSteps. rewrite (checkoutSteps_throw _ _ _ e Hf).
    rewrite (catch_throw _ _ e) by reflexivity. cbn [trace outcome fst snd].
    rewrite reportFailure_run, Hshot. reflexivity. }
  rewrite Hsteps. cbn [trace outcome fst snd].
  destruct (funnel_counts page url this) as [Fc [Fe Fb]].
  split; [reflexivity |].
  split; [rewrite count_start, !count_app, Fe by reflexivity; reflexivity |].
  split; [rewrite count_start, !count_app, Fc by reflexivity; reflexivity |].
  split; [rewrite count_start, !count_app, Fb by reflexivity; reflexivity |].
  split.
  - right. right. right. apply in_or_app. left. apply in_or_app. right.
    left. reflexivity.
  - right. right. right. apply in_or_app. left. apply in_or_app. right.
    right. left. reflexivity.
Qed.

(** ** The CVV fallback *)

Section Fallback.
Variables (page : Page) (frame : Frame) (cvv : string).

Lemma cvvFallback_cons (sel : string) (rest : list string) :
  cvvFallback page frame cvv (sel :: rest) =
  match outcome (tryCvvSelector page frame cvv sel) with
  | inr true => (trace (tryCvvSelector page frame cvv sel), Ok true)
  | _ =>
      ((trace (tryCvvSelector page frame cvv sel)
        ++ trace (cvvFallback page frame cvv rest))%list,
       outcome (cvvFallback page frame cvv rest))
  end.
Proof.
  cbn [cvvFallback].
  destruct (tryCvvSelector page frame cvv sel) as [t [e | [|]]]; cbn;
    rewrite ?app_nil_r; reflexivity.
Qed.

Lemma cvvFallback_resolves (selectors : list string) :
  exists entered, outcome (cvvFallback page frame cvv selectors) = Ok entered.
Proof.
  induction selectors as [| sel rest IH]; [exists false; reflexivity |].
  rewrite cvvFallback_cons.
  destruct (outcome (tryCvvSelector page frame cvv sel)) as [e | [|]];
    [exact IH | exists true; reflexivity | exact IH].
Qed.

(** A field that is not visible, or whose probe rejects, costs one
    probe and is passed over. *)
Lemma tryCvvSelector_passed (sel : string) :
  el_isVisible (fr_first frame sel) <> Ok true ->
  trace (tryCvvSelector page frame cvv sel) = [IsVisible (FrameFirst sel)]
  /\ outcome (tryCvvSelector page frame cvv sel) <> Ok true.
Proof.
  intros Hv. unfold tryCvvSelector, Pw.isVisible, Pw.frame_first, call. cbn [fst snd].
  destruct (el_isVisible (fr_first frame sel)) as [e | [|]].
  - split; [reflexivity | discriminate].
  - contradiction Hv. reflexivity.
  - split; [reflexivity | discriminate].
Qed.

Lemma tryCvvSelector_taken (sel : string) :
  el_isVisible (fr_first frame sel) = Ok true ->
  el_click (fr_first frame sel) = Ok tt ->
  el_fill (fr_first frame sel) cvv = Ok tt ->
  pg_waitForTimeout page 300%N = Ok tt ->
  tryCvvSelector page frame cvv sel =
  ([IsVisible (FrameFirst sel); Click (FrameFirst sel); WaitForTimeout 300;
    Fill (FrameFirst sel) cvv; WaitForTimeout 300;
    ConsoleLog ("✅ CVV entered using selector: " ++ sel)], Ok true).
Proof.
  intros Hv Hc Hf Hw.
  unfold tryCvvSelector, Pw.isVisible, Pw.l_click, Pw.l_fill, Pw.waitForTimeout,
    Pw.frame_first, call. cbn [fst snd].
  rewrite Hv, Hc, Hf, Hw. reflexivity.
Qed.

End Fallback.

(** X12. The fallback selectors are tried in the order given: fields
    that are not visible cost one probe each, the first visible field
    that takes the click and the fill gets the CVV, and the selectors
    after it are not even probed. *)
Theorem cvvFallback_first_visible_field
        (page : Page) (frame : Frame) (cvv : string)
        (before after : list string) (sel : string) :
  Forall (fun s => el_isVisible (fr_first frame s) <> Ok true) before ->
  el_isVisible (fr_first frame sel) = Ok true ->
  el_click (fr_first frame sel) = Ok tt ->
  el_fill (fr_first frame sel) cvv = Ok tt ->
  pg_waitForTimeout page 300%N = Ok tt ->
  cvvFallback page frame cvv (before ++ sel :: after) =
  ((map (fun s => IsVisible (FrameFirst s)) before
    ++ [IsVisible (FrameFirst sel); Click (FrameFirst sel); WaitForTimeout 300;
        Fill (FrameFirst sel) cvv; WaitForTimeout 300;
        ConsoleLog ("✅ CVV entered using selector: " ++ sel)])%list,
   Ok true).
Proof.
  intros Hbefore Hv Hc Hf Hw.
  induction Hbefore as [| s rest Hs _ IH].
  - cbn [app map]. rewrite cvvFallback_cons.
    rewrite (tryCvvSelector_taken page frame cvv sel Hv Hc Hf Hw). reflexivity.
  - cbn [app map]. rewrite cvvFallback_cons.
    destruct (tryCvvSelector_passed page frame cvv s Hs) as [Ht Ho].
    rewrite Ht, IH.
    destruct (outcome (tryCvvSelector page frame cvv s)) as [e | [|]];
      [reflexivity | contradiction Ho; reflexivity | reflexivity].
Qed.

Lemma emits_no_fallback_probe (page : Page) (cvv : string) (inputs : list Element) :
  forall i, emits (fun ev => negb (isFallbackProbe ev)) (cvvLoop page cvv i inputs).
Proof.
  induction inputs as [| el rest IH]; intros i; cbn [cvvLoop]; emits_auto.
  unfold tryInput, attributeOrEmpty. emits_auto.
Qed.

(** X13. The CVV step never aborts the payment once the inputs of the
    frame could be listed: [enterCvv] resolves whatever the inputs and
    the fallback fields do.  When the loop over the inputs entered the
    CVV, the fallback fields are not probed; when nothing could be
    entered, the step ends with the warning that it continues anyway. *)
Theorem enterCvv_never_aborts
        (page : Page) (frame : Frame) (this : FWGSCheckout) (inputs : list Element) :
  fr_all frame Sel.input = Ok inputs ->
  exists chosen entered,
    outcome (enterCvv page frame this) = Ok (chosen, entered)
    /\ (forall i, chosen = Some i ->
                  entered = true
                  /\ count isFallbackProbe (trace (enterCvv page frame this)) = 0)
    /\ (entered = false ->
        chosen = None
        /\ In (ConsoleLog "⚠️ Warning: Could not enter CVV, continuing anyway...")
              (trace (enterCvv page frame this))).
Proof.
  intros Hall.
  destruct (cvvLoop_resolves page (p_cvv (paymentInfo this)) inputs 0) as [chosen Hloop].
  destruct (cvvFallback_resolves page frame (p_cvv (paymentInfo this)) cvvSelectors)
    as [fb Hfb].
  pose proof (emits_no_fallback_probe page (p_cvv (paymentInfo this)) inputs 0) as Hquiet.
  unfold emits in Hquiet.
  assert (Hrun : enterCvv page frame this =
    match chosen with
    | Some i =>
        ((ConsoleLog "🔐 Entering CVV..." :: LocatorAll (InFrame Sel.input)
          :: ConsoleLog ("Found " ++ JS.of_nat (length inputs) ++ " input fields in iframe")
          :: trace (cvvLoop page (p_cvv (paymentInfo this)) 0 inputs))%list,
         Ok (Some i, true))
    | None =>
        ((ConsoleLog "🔐 Entering CVV..." :: LocatorAll (InFrame Sel.input)
          :: ConsoleLog ("Found " ++ JS.of_nat (length inputs) ++ " input fields in iframe")
          :: trace (cvvLoop page (p_cvv (paymentInfo this)) 0 inputs)
          ++ ConsoleLog "⚠️ Could not find CVV field, trying alternative selectors..."
          :: trace (cvvFallback page frame (p_cvv (paymentInfo this)) cvvSelectors)
          ++ (if fb then []
              else [ConsoleLog "⚠️ Warning: Could not enter CVV, continuing anyway..."]))%list,
         Ok (None, fb))
    end).
  { unfold enterCvv, call. rewrite Hall.
    rewrite (bind_ok (log _) _ tt eq_refl).
    rewrite (bind_ok (_, Ok inputs) _ inputs eq_refl).
    rewrite (bind_ok (log _) _ tt eq_refl).
    rewrite (bind_ok _ _ chosen Hloop).
    destruct chosen as [i |].
    - cbn [trace outcome fst snd log app]. cbn. rewrite !app_nil_r. reflexivity.
    - assert (Hm : (log "⚠️ Could not find CVV field, trying alternative selectors..." ;;
                    cvvFallback page frame (p_cvv (paymentInfo this)) cvvSelectors)
                   = (ConsoleLog "⚠️ Could not find CVV field, trying alternative selectors..."
                      :: trace (cvvFallback page frame (p_cvv (paymentInfo this))
                                            cvvSelectors), Ok fb)).
      { rewrite (bind_ok (log _) _ tt eq_refl). rewrite Hfb. reflexivity. }
      rewrite Hm.
      rewrite (bind_ok (_, Ok fb) _ fb eq_refl).
      cbn [trace outcome fst snd log app].
      destruct fb; cbn; rewrite ?app_nil_r; reflexivity. }
  exists chosen, (match chosen with Some _ => true | None => fb end).
  rewrite Hrun. destruct chosen as [i |]; cbn [outcome trace fst snd].
  - split; [reflexivity |]. split; [| discriminate].
    intros j _. split; [reflexivity |].
    rewrite !count_cons. cbn [isFallbackProbe].
    apply (count_excluded _ (fun ev => negb (isFallbackProbe ev))); [| exact Hquiet].
    intros ev H. apply negb_true_iff in H. exact H.
  - split; [reflexivity |]. split; [discriminate |].
    intros ->. split; [reflexivity |].
    right. right. right. apply in_or_app. right. right.
    apply in_or_app. right. left. reflexivity.
Qed.

(** ** The outcome of placing the order *)

Lemma timer_stop_resolves (page : Page) : exists t, stopTimer page = (t, Ok tt).
Proof.
  unfold stopTimer, Pw.evaluate, call.
  destruct (pg_evaluate page TimerStop) as [e | []]; eexists; reflexivity.
Qed.

Section PlaceOrder.
Variables (page : Page) (this : FWGSCheckout).
Hypothesis Hvisible : el_waitFor (pg_locator page Sel.placeOrder) = Ok tt.
Hypothesis Henabled : el_isEnabled (pg_locator page Sel.placeOrder) = Ok true.
Hypothesis Hclick : el_click (pg_locator page Sel.placeOrder) = Ok tt.

(** An order that is placed: the button is awaited, found enabled and
    clicked, then the monitor decides. *)
Lemma placeOrder_clicked (r : MonitorResult) :
  outcome (monitorPaymentErrors page) = Ok r ->
  placeOrder page this =
  (([WaitFor (OnPage Sel.placeOrder) "visible" 2000; IsEnabled (OnPage Sel.placeOrder);
     ConsoleLog "🎯 Placing order..."; MonitorStart]
    ++ firstn 1 (trace (monitorPaymentErrors page))
    ++ [Click (OnPage Sel.placeOrder)]
    ++ skipn 1 (trace (monitorPaymentErrors page))
    ++ trace (if errorFound r
              then stopTimer page ;;
                   log ("❌ Payment failed: " ++ errorMessage r) ;;
                   ret {| pr_success := false; pr_error := Some (errorMessage r) |}
              else paymentCompleted))%list,
   outcome (if errorFound r
            then stopTimer page ;;
                 log ("❌ Payment failed: " ++ errorMessage r) ;;
                 ret {| pr_success := false; pr_error := Some (errorMessage r) |}
            else paymentCompleted)).
Proof.
  intros Hmon.
  unfold placeOrder, Pw.l_waitFor, Pw.isEnabled, Pw.l_click, Pw.locator, call.
  cbn [fst snd]. rewrite Hvisible, Henabled, Hclick.
  rewrite (bind_ok (_, Ok tt) _ tt eq_refl).
  rewrite (bind_ok (_, Ok true) _ true eq_refl).
  rewrite (bind_ok (log _) _ tt eq_refl).
  rewrite (bind_ok (_, Ok tt) _ tt eq_refl).
  unfold startedBefore, Ok. cbv iota beta.
  rewrite (bind_ok _ _ r) by (cbn [outcome snd]; exact Hmon).
  cbn [trace outcome fst snd log app]. rewrite <- !app_assoc. reflexivity.
Qed.

End PlaceOrder.

(** X14. When the order was placed and the monitor found an error, the
    payment step returns the failure object with the monitor's message,
    also when the timer overlay cannot be stopped. *)
Theorem detected_error_is_returned (page : Page) (this : FWGSCheckout) (r : MonitorResult) :
  el_waitFor (pg_locator page Sel.placeOrder) = Ok tt ->
  el_isEnabled (pg_locator page Sel.placeOrder) = Ok true ->
  el_click (pg_locator page Sel.placeOrder) = Ok tt ->
  outcome (monitorPaymentErrors page) = Ok r ->
  errorFound r = true ->
  outcome (placeOrder page this)
  = Ok {| pr_success := false; pr_error := Some (errorMessage r) |}.
Proof.
  intros Hv He Hc Hmon Hfound.
  rewrite (placeOrder_clicked page this Hv He Hc r Hmon). rewrite Hfound.
  cbn [outcome snd].
  destruct (timer_stop_resolves page) as [t Ht].
  rewrite (bind_ok (stopTimer page) _ tt) by (rewrite Ht; reflexivity).
  reflexivity.
Qed.

Lemma monitor_unconfirmed (page : Page) :
  (forall k sel els el text,
      1 <= k <= 50 -> In sel errorSelectors -> pg_all page k sel = Ok els ->
      In el els -> ~ showsError el text) ->
  outcome (monitorPaymentErrors page) = Ok unconfirmed
  /\ count checkStart (trace (monitorPaymentErrors page)) = 50.
Proof.
  intros Hno. destruct (monitor_result page) as [Hout Hcount].
  rewrite Hout, Hcount. unfold monitorOutcome, monitorChecks.
  destruct (firstMatch page 0 maxChecks) as [[k m] |] eqn:Hfm; [| split; reflexivity].
  exfalso. apply firstMatch_some in Hfm. destruct Hfm as [Hk [Hat _]].
  change maxChecks with 50 in Hk.
  rewrite (no_error_no_match page k) in Hat; [discriminate |].
  intros sel els el text. apply Hno. lia.
Qed.

(** X15. An order that was placed and for which no element shows an
    error during the 50 checks counts as a success: the payment step
    returns [{ success: true }] after exactly 50 checks, without any
    confirmation from the page. *)
Theorem unconfirmed_order_counts_as_success (page : Page) (this : FWGSCheckout) :
  el_waitFor (pg_locator page Sel.placeOrder) = Ok tt ->
  el_isEnabled (pg_locator page Sel.placeOrder) = Ok true ->
  el_click (pg_locator page Sel.placeOrder) = Ok tt ->
  (forall k sel els el text,
      1 <= k <= 50 -> In sel errorSelectors -> pg_all page k sel = Ok els ->
      In el els -> ~ showsError el text) ->
  outcome (placeOrder page this) = Ok {| pr_success := true; pr_error := None |}
  /\ count checkStart (trace (placeOrder page this)) = 50
  /\ In (Click (OnPage Sel.placeOrder)) (trace (placeOrder page this)).
Proof.
  intros Hv He Hc Hno. destruct (monitor_unconfirmed page Hno) as [Hmon Hcount].
  rewrite (placeOrder_clicked page this Hv He Hc unconfirmed Hmon).
  cbn [errorFound unconfirmed trace outcome fst snd]. split; [reflexivity |]. split.
  - rewrite !count_app.
    assert (Hsplit : count checkStart (firstn 1 (trace (monitorPaymentErrors page)))
                     + count checkStart (skipn 1 (trace (monitorPaymentErrors page)))
                     = 50).
    { rewrite <- count_app, firstn_skipn. exact Hcount. }
    remember (count checkStart (firstn 1 (trace (monitorPaymentErrors page)))) as a.
    remember (count checkStart (skipn 1 (trace (monitorPaymentErrors page)))) as b.
    change (0 + (a + (0 + (b + 0))) = 50). lia.
  - apply in_or_app. right. apply in_or_app. right. left. reflexivity.
Qed.

(** ** The message of the monitor *)

Section Trim.

Lemma trimEnd_idempotent (s : string) : JS.trimEnd (JS.trimEnd s) = JS.trimEnd s.
Proof.
  induction s as [| c r IH]; [reflexivity |].
  rewrite trimEnd_cons.
  destruct (JS.trimStart (String c (JS.trimEnd r))) as [| d t] eqn:Ht; [reflexivity |].
  rewrite trimEnd_cons, IH, Ht. reflexivity.
Qed.

(** What [trimEnd] leaves of a text that starts with no white space
    starts with none. *)
Lemma trimEnd_head (s : string) : JS.ws_len s = 0 -> JS.ws_len (JS.trimEnd s) = 0.
Proof.
  intros H. destruct (trimEnd_prefix s) as [w [Hs _]].
  destruct (JS.ws_len (JS.trimEnd s)) as [| k] eqn:Hk; [reflexivity |].
  apply (ws_len_app _ w) in Hk. rewrite <- Hs, H in Hk. discriminate Hk.
Qed.

Lemma trimStart_trim (s : string) : JS.trimStart (JS.trim s) = JS.trim s.
Proof. apply trimStart_fixed, trimEnd_head, trimStart_head. Qed.

Lemma trim_idempotent (s : string) : JS.trim (JS.trim s) = JS.trim s.
Proof.
  unfold JS.trim at 1. rewrite trimStart_trim. unfold JS.trim. apply trimEnd_idempotent.
Qed.

Lemma lower_app (s t : string) :
  JS.toLowerCase (s ++ t) = JS.toLowerCase s ++ JS.toLowerCase t.
Proof.
  induction s as [| c r IH]; [reflexivity |]. cbn [append JS.toLowerCase].
  rewrite IH. reflexivity.
Qed.

Lemma prefix_includes (kw u : string) : prefix kw u = true -> JS.includes kw u = true.
Proof. intros H. destruct u; cbn [JS.includes]; rewrite H; reflexivity. Qed.

(** White space after a text neither adds nor removes an occurrence
    of a needle that holds none of its bytes. *)
Lemma prefix_before_space (kw : string) (w : string) :
  no_space kw = true -> all_space w = true ->
  forall h, prefix kw (h ++ w) = prefix kw h.
Proof.
  intros Hkw Hw. induction kw as [| k kw IH]; intros h;
    [destruct h, w; reflexivity |].
  cbn [no_space] in Hkw. apply andb_true_iff in Hkw. destruct Hkw as [Hk Hkw].
  apply negb_true_iff in Hk. destruct h as [| c h].
  - cbn [append]. destruct w as [| d w]; [reflexivity |].
    cbn [all_space] in Hw. apply andb_true_iff in Hw. destruct Hw as [Hd _].
    cbn [prefix]. destruct (ascii_dec k d) as [-> |]; [congruence | reflexivity].
  - cbn [append prefix]. destruct (ascii_dec k c); [apply IH, Hkw | reflexivity].
Qed.

Lemma includes_before_space (k : ascii) (kw w : string) :
  no_space (String k kw) = true -> all_space w = true ->
  forall h, JS.includes (String k kw) (h ++ w) = JS.includes (String k kw) h.
Proof.
  intros Hkw Hw. induction h as [| c h IH].
  - cbn [append]. rewrite <- (lower_all_space w Hw). cbn [JS.toLowerCase JS.includes].
    apply includes_blank; [| exact Hw].
    cbn [no_space] in Hkw. apply andb_true_iff in Hkw. destruct Hkw as [Hk _].
    apply negb_true_iff, Hk.
  - change (String c h ++ w) with (String c (h ++ w)). cbn [JS.includes].
    rewrite IH. f_equal.
    apply (prefix_before_space (String k kw) w Hkw Hw (String c h)).
Qed.

Lemma includes_after_space (k : ascii) (kw w : string) :
  ws_byte k = false -> all_space w = true ->
  forall h, JS.includes (String k kw) (w ++ h) = JS.includes (String k kw) h.
Proof.
  intros Hk. induction w as [| d w IH]; intros Hw h; [reflexivity |].
  cbn [all_space] in Hw. apply andb_true_iff in Hw. destruct Hw as [Hd Hw].
  cbn [append]. cbn [JS.includes]. rewrite (IH Hw).
  replace (prefix (String k kw) (String d (w ++ h))) with false; [reflexivity |].
  cbn [prefix]. destruct (ascii_dec k d) as [-> |]; [congruence | reflexivity].
Qed.

Lemma keyword_survives_trim (text : string) :
  hasErrorKeyword text = true -> hasErrorKeyword (JS.trim text) = true.
Proof.
  unfold hasErrorKeyword. rewrite !existsb_exists.
  intros [kw [Hin Hinc]]. exists kw. split; [exact Hin |].
  assert (Hkw : exists k kw', kw = String k kw' /\ no_space kw = true).
  { unfold errorKeywords in Hin. cbn [In] in Hin.
    destruct Hin as [<- | [<- | [<- | [<- | []]]]]; do 2 eexists; split; reflexivity. }
  destruct Hkw as [k [kw' [-> Hns]]].
  assert (Hk : ws_byte k = false).
  { cbn [no_space] in Hns. apply andb_true_iff in Hns. apply negb_true_iff, Hns. }
  destruct (trimStart_suffix text) as [w1 [H1 Hw1]].
  destruct (trimEnd_prefix (JS.trimStart text)) as [w2 [H2 Hw2]].
  fold (JS.trim text) in H2.
  rewrite H1, H2, !lower_app, (lower_all_space w1 Hw1), (lower_all_space w2 Hw2) in Hinc.
  rewrite (includes_after_space k kw' w1 Hk Hw1) in Hinc.
  rewrite (includes_before_space k kw' w2 Hns Hw2) in Hinc. exact Hinc.
Qed.

End Trim.

(** A message found by the monitor is the trimmed text of an element
    that carries an error keyword. *)
Lemma monitorOutcome_found (page : Page) (msg : string) (c n : nat) :
  errorFound (monitorOutcome page msg c n) = true ->
  exists text, errorMessage (monitorOutcome page msg c n) = JS.trim text
               /\ hasErrorKeyword text = true.
Proof.
  unfold monitorOutcome.
  destruct (firstMatch page c n) as [[k m] |] eqn:Hfm;
    [intros _ | intros H; cbn [errorFound] in H; discriminate H].
  apply firstMatch_some in Hfm. destruct Hfm as [_ [Hat _]].
  destruct (scanPage_found page k m Hat)
    as [sel [els [pre [el [post [text [_ [_ [_ [_ [[_ [_ [_ Hk]]] Hm]]]]]]]]]]].
  exists text. split; [exact Hm | exact Hk].
Qed.

(** X16. A message that the monitor reports is never empty, carries no
    white space at its ends, so that trimming it again changes nothing,
    and still holds one of the four error keywords. *)
Theorem reported_message_is_trimmed (page : Page) (r : MonitorResult) :
  outcome (monitorPaymentErrors page) = Ok r ->
  errorFound r = true ->
  errorMessage r <> ""
  /\ JS.trim (errorMessage r) = errorMessage r
  /\ hasErrorKeyword (errorMessage r) = true.
Proof.
  intros Hout Hfound. destruct (monitor_result page) as [Hres _].
  assert (Hr : r = monitorOutcome page "" 0 maxChecks).
  { rewrite Hres in Hout. unfold Ok in Hout. injection Hout as <-. reflexivity. }
  clear Hres Hout. subst r.
  destruct (monitorOutcome_found page "" 0 maxChecks Hfound) as [text [-> Hk]].
  split; [| split; [apply trim_idempotent | apply keyword_survives_trim, Hk]].
  pose proof (keyword_not_blank text Hk) as Hn. intros Heq. rewrite Heq in Hn.
  discriminate Hn.
Qed.

(** ** Where the payment values go *)

Ltac typed_leaf :=
  first [ apply emits_call | apply emits_log ];
  cbn [typedInPlace frameTarget];
  rewrite ?String.eqb_refl, ?andb_true_r, ?orb_true_r; reflexivity.

Ltac typed_auto := repeat first [emits_step | typed_leaf].

Lemma typed_cvvLoop (page : Page) (this : FWGSCheckout) (inputs : list Element) :
  forall i, emits (typedInPlace this) (cvvLoop page (p_cvv (paymentInfo this)) i inputs).
Proof.
  induction inputs as [| el rest IH]; intros i; cbn [cvvLoop];
    unfold tryInput, attributeOrEmpty; typed_auto.
Qed.

Lemma typed_cvvFallback (page : Page) (frame : Frame) (this : FWGSCheckout)
      (sels : list string) :
  emits (typedInPlace this) (cvvFallback page frame (p_cvv (paymentInfo this)) sels).
Proof.
  induction sels as [| sel rest IH]; cbn [cvvFallback]; unfold tryCvvSelector; typed_auto.
Qed.

Lemma typed_monitor (page : Page) (this : FWGSCheckout) :
  emits (typedInPlace this) (monitorPaymentErrors page).
Proof.
  apply (emits_weaken monitorEvent).
  - intros ev; destruct ev; try reflexivity; discriminate.
  - unfold monitorPaymentErrors. eapply emits_checkForErrors. apply Nat.le_refl.
Qed.

Lemma typed_handlePayment (page : Page) (this : FWGSCheckout) :
  emits (typedInPlace this) (handlePayment page this).
Proof.
  unfold handlePayment, enterPaymentDetails, openPaymentFrame, enterCardDetails,
    enterCardNumber, enterCvv, enterExpiry, placeOrder, stopTimer, paymentCompleted.
  repeat first [ apply typed_cvvLoop | apply typed_cvvFallback | apply typed_monitor
               | emits_step | typed_leaf ].
Qed.

(** X17. The payment step types the card number and the CVV nowhere
    but into elements of the payment frame: whatever the page and the
    frame answer, a text typed into an element of the page itself is
    the cardholder name, in its field, or the expiry date, in its
    field, and a text typed into the frame is empty, the card number or
    the CVV. *)
Theorem card_data_is_typed_in_the_frame (page : Page) (this : FWGSCheckout)
        (t : Target) (v : string) :
  In (Fill t v) (trace (handlePayment page this)) ->
  (t = OnPage Sel.cardholder /\ v = p_cardholderName (paymentInfo this))
  \/ (t = OnPage Sel.expDate /\ v = p_expiryDate (paymentInfo this))
  \/ (frameTarget t = true
      /\ (v = EmptyString \/ v = p_cardNumber (paymentInfo this)
          \/ v = p_cvv (paymentInfo this))).
Proof.
  intros Hin. pose proof (typed_handlePayment page this) as H.
  unfold emits in H. rewrite forallb_forall in H. specialize (H _ Hin).
  cbn [typedInPlace] in H.
  assert (Hframe : frameTarget t && (String.eqb v EmptyString
                     || String.eqb v (p_cardNumber (paymentInfo this))
                     || String.eqb v (p_cvv (paymentInfo this))) = true ->
                   frameTarget t = true
                   /\ (v = EmptyString \/ v = p_cardNumber (paymentInfo this)
                       \/ v = p_cvv (paymentInfo this))).
  { intros Hf. apply andb_true_iff in Hf. destruct Hf as [Hf Hv]. split; [exact Hf |].
    apply orb_true_iff in Hv. destruct Hv as [Hv | Hv];
      [apply orb_true_iff in Hv; destruct Hv as [Hv | Hv] |];
      apply String.eqb_eq in Hv; auto. }
  destruct t as [sel | sel | sel | sel i | sel | sel i];
    try (right; right; apply Hframe, H).
  apply orb_true_iff in H. destruct H as [H | H];
    apply andb_true_iff in H; destruct H as [Hs Hv];
    apply String.eqb_eq in Hs; apply String.eqb_eq in Hv; subst; auto.
Qed.

(** ** The browser storage of the settings *)

Section StorageProperties.
Import Storage.
Variable J : Platform.

Lemma removeItem_get (ls : LocalStorage) (key k : string) :
  getItem (removeItem ls key) k = if String.eqb k key then None else getItem ls k.
Proof. reflexivity. Qed.

Lemma removeItems_get (keys : list string) (k : string) :
  forall ls, getItem (fold_left removeItem keys ls) k
             = if existsb (String.eqb k) keys then None else getItem ls k.
Proof.
  induction keys as [| key keys IH]; intros ls; [reflexivity |].
  cbn [fold_left existsb]. rewrite IH, removeItem_get.
  destruct (existsb (String.eqb k) keys); [rewrite orb_true_r; reflexivity |].
  rewrite orb_false_r. reflexivity.
Qed.

Lemma clearAll_get (ls : LocalStorage) (k : string) :
  getItem (clearAll ls) k
  = if existsb (String.eqb k) STORAGE_KEYS then None else getItem ls k.
Proof. apply removeItems_get. Qed.

Lemma setItem_same (ls : LocalStorage) (key value : string) :
  getItem (setItem ls key value) key = Some value.
Proof. unfold getItem, setItem. rewrite String.eqb_refl. reflexivity. Qed.

Lemma setItem_other (ls : LocalStorage) (key value k : string) :
  String.eqb k key = false -> getItem (setItem ls key value) k = getItem ls k.
Proof. unfold getItem, setItem. intros ->. reflexivity. Qed.

Lemma parseOrNull_other (ls : LocalStorage) (key value k : string) :
  String.eqb k key = false ->
  parseOrNull J (setItem ls key value) k = parseOrNull J ls k.
Proof. intros H. unfold parseOrNull. rewrite (setItem_other _ _ _ _ H). reflexivity. Qed.

Lemma getKeywordRules_other (ls : LocalStorage) (key value : string) :
  String.eqb KEYWORD_RULES key = false ->
  getKeywordRules J (setItem ls key value) = getKeywordRules J ls.
Proof. intros H. unfold getKeywordRules. rewrite (setItem_other _ _ _ _ H). reflexivity. Qed.

Lemma parseOrNull_stored (ls : LocalStorage) (key : string) (v : Json J) :
  parse J (stringify J v) = Ok v -> stringify J v <> EmptyString ->
  parseOrNull J (setItem ls key (stringify J v)) key = Ok (Some v).
Proof.
  intros Hp Hne. unfold parseOrNull. rewrite setItem_same.
  destruct (stringify J v) eqn:Hs; [contradiction |].
  cbn [JS.nonempty]. rewrite Hp. reflexivity.
Qed.

(** X18. After [clearAll] every getter answers as on a fresh browser:
    [null] for the four settings and the empty array for the keyword
    rules, whatever was stored before, also a text that [JSON.parse]
    rejects; the items of other applications are left alone. *)
Theorem clearAll_resets_every_getter (ls : LocalStorage) :
  getUserInfo J (clearAll ls) = Ok None
  /\ getShippingInfo J (clearAll ls) = Ok None
  /\ getPaymentInfo J (clearAll ls) = Ok None
  /\ getMonitorConfig J (clearAll ls) = Ok None
  /\ getKeywordRules J (clearAll ls) = Ok (emptyArray J)
  /\ forall key, ~ In key STORAGE_KEYS -> getItem (clearAll ls) key = getItem ls key.
Proof.
  unfold getUserInfo, getShippingInfo, getPaymentInfo, getMonitorConfig,
    getKeywordRules, parseOrNull.
  rewrite !clearAll_get.
  repeat split; try reflexivity.
  intros key Hnot. rewrite clearAll_get.
  destruct (existsb (String.eqb key) STORAGE_KEYS) eqn:He; [| reflexivity].
  exfalso. apply Hnot. apply existsb_exists in He. destruct He as [k [Hin Hk]].
  apply String.eqb_eq in Hk. subst k. exact Hin.
Qed.

(** X19. A value that [JSON.parse] reads back from its [JSON.stringify]
    text, which is not empty, is what each getter returns after the
    setter of the same name stored it, whatever the storage held. *)
Theorem stored_settings_are_read_back (ls : LocalStorage) (v : Json J) :
  parse J (stringify J v) = Ok v -> stringify J v <> EmptyString ->
  getUserInfo J (setUserInfo J v ls) = Ok (Some v)
  /\ getShippingInfo J (setShippingInfo J v ls) = Ok (Some v)
  /\ getPaymentInfo J (setPaymentInfo J v ls) = Ok (Some v)
  /\ getMonitorConfig J (setMonitorConfig J v ls) = Ok (Some v)
  /\ getKeywordRules J (setKeywordRules J v ls) = Ok v.
Proof.
  intros Hp Hne.
  unfold getUserInfo, setUserInfo, getShippingInfo, setShippingInfo, getPaymentInfo,
    setPaymentInfo, getMonitorConfig, setMonitorConfig.
  rewrite !parseOrNull_stored by assumption. repeat split.
  unfold getKeywordRules, setKeywordRules. rewrite setItem_same.
  destruct (stringify J v) eqn:Hs; [contradiction |].
  cbn [JS.nonempty]. exact Hp.
Qed.

(** X20. The five settings do not share a key: a setter changes the
    answer of no getter but its own. *)
Theorem setters_leave_other_settings (ls : LocalStorage) (v : Json J) :
  (getShippingInfo J (setUserInfo J v ls) = getShippingInfo J ls
   /\ getPaymentInfo J (setUserInfo J v ls) = getPaymentInfo J ls
   /\ getMonitorConfig J (setUserInfo J v ls) = getMonitorConfig J ls
   /\ getKeywordRules J (setUserInfo J v ls) = getKeywordRules J ls)
  /\ (getUserInfo J (setShippingInfo J v ls) = getUserInfo J ls
      /\ getPaymentInfo J (setShippingInfo J v ls) = getPaymentInfo J ls
      /\ getMonitorConfig J (setShippingInfo J v ls) = getMonitorConfig J ls
      /\ getKeywordRules J (setShippingInfo J v ls) = getKeywordRules J ls)
  /\ (getUserInfo J (setPaymentInfo J v ls) = getUserInfo J ls
      /\ getShippingInfo J (setPaymentInfo J v ls) = getShippingInfo J ls
      /\ getMonitorConfig J (setPaymentInfo J v ls) = getMonitorConfig J ls
      /\ getKeywordRules J (setPaymentInfo J v ls) = getKeywordRules J ls)
  /\ (getUserInfo J (setMonitorConfig J v ls) = getUserInfo J ls
      /\ getShippingInfo J (setMonitorConfig J v ls) = getShippingInfo J ls
      /\ getPaymentInfo J (setMonitorConfig J v ls) = getPaymentInfo J ls
      /\ getKeywordRules J (setMonitorConfig J v ls) = getKeywordRules J ls)
  /\ (getUserInfo J (setKeywordRules J v ls) = getUserInfo J ls
      /\ getShippingInfo J (setKeywordRules J v ls) = getShippingInfo J ls
      /\ getPaymentInfo J (setKeywordRules J v ls) = getPaymentInfo J ls
      /\ getMonitorConfig J (setKeywordRules J v ls) = getMonitorConfig J ls).
Proof.
  unfold getUserInfo, setUserInfo, getShippingInfo, setShippingInfo, getPaymentInfo,
    setPaymentInfo, getMonitorConfig, setMonitorConfig, setKeywordRules.
  repeat split;
    first [ apply parseOrNull_other; reflexivity
          | apply getKeywordRules_other; reflexivity ].
Qed.

End StorageProperties.

(** ** The card fields of the payment form *)

Section CardFields.
Import PaymentForm.

Lemma space_not_digit (c : ascii) : JS.is_space c = true -> is_digit c = false.
Proof.
  destruct c as [[] [] [] [] [] [] [] []]; vm_compute; intros H;
    first [reflexivity | discriminate H].
Qed.

Lemma string_ind4 (P : string -> Prop) :
  P EmptyString ->
  (forall a, P (String a EmptyString)) ->
  (forall a b, P (String a (String b EmptyString))) ->
  (forall a b c, P (String a (String b (String c EmptyString)))) ->
  (forall a b c d r, P r -> P (String a (String b (String c (String d r))))) ->
  forall s, P s.
Proof.
  intros H0 H1 H2 H3 H4 s.
  assert (H : P s /\ (forall a, P (String a s)) /\ (forall a b, P (String a (String b s)))
              /\ (forall a b c, P (String a (String b (String c s))))).
  { induction s as [| x s [IH0 [IH1 [IH2 IH3]]]]; [auto |].
    repeat split; intros; auto. }
  apply H.
Qed.

Lemma removeAll_app (class : ascii -> bool) (s t : string) :
  removeAll class (s ++ t) = removeAll class s ++ removeAll class t.
Proof.
  induction s as [| c r IH]; [reflexivity |].
  cbn [append removeAll]. destruct (class c); rewrite IH; reflexivity.
Qed.

Lemma removeAll_none (class : ascii -> bool) (s : string) :
  allChars (fun c => negb (class c)) s = true -> removeAll class s = s.
Proof.
  induction s as [| c r IH]; [reflexivity |].
  cbn [allChars removeAll]. intros H. apply andb_true_iff in H. destruct H as [Hc Hr].
  apply negb_true_iff in Hc. rewrite Hc, (IH Hr). reflexivity.
Qed.

Lemma removeAll_all (class : ascii -> bool) (s : string) :
  allChars (fun c => negb (class c)) (removeAll class s) = true.
Proof.
  induction s as [| c r IH]; [reflexivity |].
  cbn [removeAll]. destruct (class c) eqn:Hc; [exact IH |].
  cbn [allChars]. rewrite Hc, IH. reflexivity.
Qed.

Lemma allChars_weaken (P Q : ascii -> bool) (s : string) :
  (forall c, P c = true -> Q c = true) -> allChars P s = true -> allChars Q s = true.
Proof.
  intros HPQ. induction s as [| c r IH]; [reflexivity |].
  cbn [allChars]. intros H. apply andb_true_iff in H. destruct H as [Hc Hr].
  rewrite (HPQ c Hc), (IH Hr). reflexivity.
Qed.

Lemma allChars_app (P : ascii -> bool) (s t : string) :
  allChars P (s ++ t) = allChars P s && allChars P t.
Proof.
  induction s as [| c r IH]; [reflexivity |].
  cbn [append allChars]. rewrite IH, andb_assoc. reflexivity.
Qed.

Lemma allChars_take (P : ascii -> bool) (n : nat) :
  forall s, allChars P s = true -> allChars P (take n s) = true.
Proof.
  induction n as [| n IH]; intros [| c r]; try reflexivity.
  cbn [take allChars]. intros H. apply andb_true_iff in H. destruct H as [Hc Hr].
  rewrite Hc, (IH r Hr). reflexivity.
Qed.

Lemma digitsOf_digits (s : string) : allChars is_digit (digitsOf s) = true.
Proof.
  apply (allChars_weaken (fun c => negb (nondigit c))); [| apply removeAll_all].
  intros c. unfold nondigit. rewrite negb_involutive. auto.
Qed.

Lemma digitsOf_fixed (s : string) : allChars is_digit s = true -> digitsOf s = s.
Proof.
  intros H. apply removeAll_none.
  apply (allChars_weaken is_digit); [| exact H].
  intros c Hc. rewrite Hc. reflexivity.
Qed.

Lemma spaces_fixed (s : string) :
  allChars is_digit s = true -> removeAll JS.is_space s = s.
Proof.
  intros H. apply removeAll_none.
  apply (allChars_weaken is_digit); [| exact H].
  intros c Hc. destruct (JS.is_space c) eqn:Hs; [| reflexivity].
  rewrite (space_not_digit c Hs) in Hc. discriminate Hc.
Qed.

Lemma digitsOf_spaces (s : string) : digitsOf (removeAll JS.is_space s) = digitsOf s.
Proof.
  unfold digitsOf. induction s as [| c r IH]; [reflexivity |].
  cbn [removeAll]. destruct (JS.is_space c) eqn:Hs.
  - rewrite (space_not_digit c Hs). exact IH.
  - cbn [removeAll]. rewrite IH. reflexivity.
Qed.

Lemma length_take (n : nat) : forall s, String.length (take n s) = Nat.min n (String.length s).
Proof.
  induction n as [| n IH]; intros [| c r]; try reflexivity.
  cbn [take String.length]. rewrite IH. reflexivity.
Qed.

Lemma length_drop (n : nat) : forall s, String.length (drop n s) = String.length s - n.
Proof.
  induction n as [| n IH]; intros [| c r]; try reflexivity.
  cbn [drop String.length]. apply IH.
Qed.

Lemma drop_all (n : nat) : forall s, String.length s <= n -> drop n s = EmptyString.
Proof.
  induction n as [| n IH]; intros [| c r]; cbn [String.length drop]; intros H;
    try reflexivity; [lia |].
  apply IH. lia.
Qed.

Lemma take_all (n : nat) : forall s, String.length s <= n -> take n s = s.
Proof.
  induction n as [| n IH]; intros [| c r]; cbn [String.length take]; intros H;
    try reflexivity; [lia |].
  rewrite IH by lia. reflexivity.
Qed.

Lemma take_take (n : nat) : forall s, take n (take n s) = take n s.
Proof. intros s. apply take_all. rewrite length_take. lia. Qed.

Lemma drop_drop (a : nat) : forall b s, drop b (drop a s) = drop (a + b) s.
Proof.
  induction a as [| a IH]; intros b s; [reflexivity |].
  destruct s as [| c r]; [destruct b; reflexivity |].
  cbn [drop Nat.add]. apply IH.
Qed.

Lemma substring_take_drop (a n : nat) :
  forall s, String.substring a n s = take n (drop a s).
Proof.
  induction a as [| a IH]; intros s.
  - cbn [drop]. generalize s. clear s.
    induction n as [| n IHn]; intros [| c r]; try reflexivity.
    cbn [String.substring take]. rewrite IHn. reflexivity.
  - destruct s as [| c r]; [destruct n; reflexivity |].
    cbn [String.substring drop]. apply IH.
Qed.

Lemma length_app (s t : string) :
  String.length (s ++ t) = String.length s + String.length t.
Proof. induction s as [| c r IH]; [reflexivity |]. cbn. rewrite IH. reflexivity. Qed.

(** *** The match and the loop of [formatCardNumber] *)

Lemma length_digitRun (n : nat) :
  forall s, String.length (digitRun n s) <= String.length s.
Proof.
  induction n as [| n IH]; intros [| c r]; cbn [digitRun String.length]; try lia.
  destruct (is_digit c); cbn [String.length]; [| lia].
  specialize (IH r). lia.
Qed.

Lemma digitRun_take (n : nat) :
  forall s, allChars is_digit s = true -> digitRun n s = take n s.
Proof.
  induction n as [| n IH]; intros [| c r]; try reflexivity.
  cbn [digitRun take allChars]. intros H. apply andb_true_iff in H.
  destruct H as [Hc Hr]. rewrite Hc, (IH r Hr). reflexivity.
Qed.

Lemma firstDigits_short (v : string) : String.length v < 4 -> firstDigits v = None.
Proof.
  induction v as [| c r IH]; [reflexivity |]. intros H.
  cbn [firstDigits]. cbv zeta.
  pose proof (length_digitRun 16 (String c r)) as Hl.
  destruct (Nat.leb_spec 4 (String.length (digitRun 16 (String c r)))) as [H4 | H4];
    [lia |].
  apply IH. cbn [String.length] in H. lia.
Qed.

Lemma firstDigits_digits (v : string) :
  allChars is_digit v = true ->
  firstDigits v = if 4 <=? String.length v then Some (take 16 v) else None.
Proof.
  intros Hv. destruct (Nat.leb_spec 4 (String.length v)) as [H4 | H4];
    [| apply firstDigits_short, H4].
  destruct v as [| c r]; [cbn in H4; lia |].
  cbn [firstDigits]. cbv zeta. rewrite (digitRun_take 16 _ Hv), length_take.
  destruct (Nat.leb_spec 4 (Nat.min 16 (String.length (String c r)))); [reflexivity | lia].
Qed.

Lemma cardParts_step (m : string) (i : nat) :
  cardParts m i =
  if i <? String.length m then substring i (i + 4) m :: cardParts m (i + 4) else [].
Proof.
  rewrite cardParts_equation_1. unfold cardParts_unfold_clause_1.
  destruct (lt_dec i (String.length m)) as [H | H].
  - apply Nat.ltb_lt in H. rewrite H. reflexivity.
  - apply Nat.ltb_nlt in H. rewrite H. reflexivity.
Qed.

Lemma chunks4_step (s : string) :
  s <> EmptyString -> chunks4 s = take 4 s :: chunks4 (drop 4 s).
Proof.
  intros Hs. destruct s as [| a [| b [| c [| d r]]]]; [contradiction | | | |]; reflexivity.
Qed.

Lemma cardParts_chunks (m : string) (n : nat) :
  forall i, String.length m - i <= n -> cardParts m i = chunks4 (drop i m).
Proof.
  induction n as [| n IH]; intros i Hn; rewrite cardParts_step.
  - destruct (Nat.ltb_spec i (String.length m)) as [H | H]; [lia |].
    rewrite drop_all by lia. reflexivity.
  - destruct (Nat.ltb_spec i (String.length m)) as [H | H].
    + rewrite IH by lia. unfold substring.
      replace (i + 4 - i) with 4 by lia.
      rewrite substring_take_drop, <- drop_drop. symmetry. apply chunks4_step.
      intros He. pose proof (length_drop i m) as Hl. rewrite He in Hl.
      cbn [String.length] in Hl. lia.
    + rewrite drop_all by lia. reflexivity.
Qed.

(** The groups of four, read without their separators, are the text. *)
Lemma removeAll_groups (class : ascii -> bool) (m : string) :
  class " "%char = true ->
  allChars (fun c => negb (class c)) m = true ->
  removeAll class (String.concat " " (chunks4 m)) = m.
Proof.
  intros Hsp. induction m as [| a | a b | a b c | a b c d r IH] using string_ind4;
    intros Hm; try (apply removeAll_none; exact Hm).
  cbn [chunks4]. cbn [allChars] in Hm.
  repeat (apply andb_true_iff in Hm; let H := fresh "Hc" in destruct Hm as [H Hm]).
  apply negb_true_iff in Hc, Hc0, Hc1, Hc2.
  destruct (chunks4 r) as [| x l] eqn:Hr.
  - cbn [String.concat removeAll]. rewrite Hc, Hc0, Hc1, Hc2.
    specialize (IH Hm). cbn [String.concat removeAll] in IH. rewrite <- IH. reflexivity.
  - change (String.concat " " (String a (String b (String c (String d "")))
                               :: x :: l))
      with (String a (String b (String c (String d (String " "
              (String.concat " " (x :: l))))))).
    cbn [removeAll]. rewrite Hc, Hc0, Hc1, Hc2, Hsp, (IH Hm). reflexivity.
Qed.

Lemma length_groups (m : string) :
  String.length (String.concat " " (chunks4 m))
  = String.length m + (String.length m - 1) / 4.
Proof.
  induction m as [| a | a b | a b c | a b c d r IH] using string_ind4;
    try reflexivity.
  cbn [chunks4]. destruct (chunks4 r) as [| x l] eqn:Hr.
  - destruct r as [| e [| f [| g [| h r']]]]; try discriminate Hr. reflexivity.
  - change (String.concat " " (String a (String b (String c (String d "")))
                               :: x :: l))
      with (String a (String b (String c (String d (String " "
              (String.concat " " (x :: l))))))).
    cbn [String.length]. rewrite IH.
    assert (Hpos : 0 < String.length r) by (destruct r; [discriminate Hr | cbn; lia]).
    replace (S (S (S (S (String.length r)))) - 1)
      with ((String.length r - 1) + 1 * 4) by lia.
    rewrite Nat.div_add by lia. lia.
Qed.

Lemma allChars_groups (P : ascii -> bool) (m : string) :
  P " "%char = true -> allChars P m = true ->
  allChars P (String.concat " " (chunks4 m)) = true.
Proof.
  intros Hsp. induction m as [| a | a b | a b c | a b c d r IH] using string_ind4;
    intros Hm; try exact Hm.
  cbn [chunks4]. cbn [allChars] in Hm.
  repeat (apply andb_true_iff in Hm; let H := fresh "Hc" in destruct Hm as [H Hm]).
  destruct (chunks4 r) as [| x l] eqn:Hr.
  - cbn [String.concat allChars]. rewrite Hc, Hc0, Hc1, Hc2. reflexivity.
  - change (String.concat " " (String a (String b (String c (String d "")))
                               :: x :: l))
      with (String a (String b (String c (String d (String " "
              (String.concat " " (x :: l))))))).
    cbn [allChars]. rewrite Hc, Hc0, Hc1, Hc2, Hsp, (IH Hm). reflexivity.
Qed.

(** [formatCardNumber] in closed form, on the digits of its argument. *)
Lemma formatCardNumber_digits (value : string) :
  formatCardNumber value =
  let d := digitsOf value in
  if 4 <=? String.length d then String.concat " " (chunks4 (take 16 d)) else d.
Proof.
  unfold formatCardNumber. cbv zeta.
  change (removeAll (fun c => negb (is_digit c)) (removeAll JS.is_space value))
    with (digitsOf (removeAll JS.is_space value)).
  rewrite digitsOf_spaces. set (d := digitsOf value).
  rewrite (firstDigits_digits d (digitsOf_digits value)).
  destruct (Nat.leb_spec 4 (String.length d)) as [H4 | H4].
  - rewrite (cardParts_chunks _ (String.length (take 16 d)) 0) by lia.
    cbn [drop]. destruct (chunks4 (take 16 d)) as [| x l] eqn:Hc; [| reflexivity].
    exfalso. pose proof (length_take 16 d) as Hl.
    destruct (take 16 d) as [| a [| b [| c [| e r]]]];
      cbn [String.length] in Hl; cbn [chunks4] in Hc;
      first [discriminate Hc | lia].
  - rewrite cardParts_step. reflexivity.
Qed.

Lemma digits_not_nondigit (s : string) :
  allChars is_digit s = true -> allChars (fun c => negb (nondigit c)) s = true.
Proof.
  apply allChars_weaken. intros c Hc. unfold nondigit. rewrite Hc. reflexivity.
Qed.

Lemma digits_not_space (s : string) :
  allChars is_digit s = true -> allChars (fun c => negb (JS.is_space c)) s = true.
Proof.
  apply allChars_weaken. intros c Hc. destruct (JS.is_space c) eqn:Hs; [| reflexivity].
  rewrite (space_not_digit c Hs) in Hc. discriminate Hc.
Qed.

(** X21. What [formatCardNumber] returns: with fewer than four digits in
    the text, its digits; otherwise the first sixteen digits in groups
    of four, a single space between two groups.  In both cases the
    digits of the result are the first sixteen digits of the text, the
    result holds nothing but digits and spaces, and it fits the 19
    characters of the field. *)
Theorem formatCardNumber_groups_the_digits (value : string) :
  let d := digitsOf value in
  formatCardNumber value
  = (if 4 <=? String.length d then String.concat " " (chunks4 (take 16 d)) else d)
  /\ digitsOf (formatCardNumber value) = take 16 d
  /\ allChars (fun c => is_digit c || Ascii.eqb c " ") (formatCardNumber value) = true
  /\ String.length (formatCardNumber value) <= 19.
Proof.
  intros d. pose proof (digitsOf_digits value) as Hd. fold d in Hd.
  pose proof (allChars_take is_digit 16 d Hd) as Ht.
  rewrite formatCardNumber_digits. cbv zeta. fold d.
  split; [reflexivity |].
  destruct (Nat.leb_spec 4 (String.length d)) as [H4 | H4].
  - split; [| split].
    + apply (removeAll_groups nondigit); [reflexivity |].
      apply digits_not_nondigit, Ht.
    + apply allChars_groups; [reflexivity |].
      apply (allChars_weaken is_digit); [| exact Ht].
      intros c Hc. rewrite Hc. reflexivity.
    + rewrite length_groups, length_take.
      assert (Hm : Nat.min 16 (String.length d) <= 16) by lia.
      assert (Hq : (Nat.min 16 (String.length d) - 1) / 4 < 4).
      { apply Nat.Div0.div_lt_upper_bound. lia. }
      lia.
  - split; [| split].
    + rewrite take_all by lia. apply digitsOf_fixed, Hd.
    + apply (allChars_weaken is_digit); [| exact Hd].
      intros c Hc. rewrite Hc. reflexivity.
    + lia.
Qed.

(** X22. Formatting a card number that is already formatted changes
    nothing: the field shows the same text when the text it shows is
    typed into it. *)
Theorem formatCardNumber_idempotent (value : string) :
  formatCardNumber (formatCardNumber value) = formatCardNumber value.
Proof.
  rewrite (formatCardNumber_digits (formatCardNumber value)). cbv zeta.
  assert (Hdig : digitsOf (formatCardNumber value) = take 16 (digitsOf value)).
  { pose proof (digitsOf_digits value) as Hd.
    rewrite formatCardNumber_digits. cbv zeta.
    destruct (Nat.leb_spec 4 (String.length (digitsOf value))) as [H4 | H4].
    - apply (removeAll_groups nondigit); [reflexivity |].
      apply digits_not_nondigit, allChars_take, Hd.
    - rewrite take_all by lia. apply digitsOf_fixed, Hd. }
  rewrite Hdig, take_take, length_take, formatCardNumber_digits. cbv zeta.
  destruct (Nat.leb_spec 4 (String.length (digitsOf value))) as [H4 | H4].
  - destruct (Nat.leb_spec 4 (Nat.min 16 (String.length (digitsOf value))));
      [reflexivity | lia].
  - destruct (Nat.leb_spec 4 (Nat.min 16 (String.length (digitsOf value))));
      [lia | apply take_all; lia].
Qed.

(** [formatExpiryDate] on a text of digits. *)
Lemma expiry_of_digits (d : string) :
  allChars is_digit d = true ->
  let e := if 2 <=? String.length d
           then substring 0 2 d ++ "/" ++ substring 2 4 d else d in
  digitsOf e = take 4 d
  /\ String.length e <= 5
  /\ (if 2 <=? String.length (take 4 d)
      then substring 0 2 (take 4 d) ++ "/" ++ substring 2 4 (take 4 d)
      else take 4 d) = e.
Proof.
  intros Hd. unfold substring, digitsOf. rewrite !substring_take_drop.
  assert (Hslash : is_digit "/" = false) by reflexivity.
  destruct d as [| a [| b [| c [| x r]]]]; cbn [allChars] in Hd;
    repeat (apply andb_true_iff in Hd; let H := fresh "Hc" in destruct Hd as [H Hd]);
    cbn [String.length Nat.leb Nat.sub take drop append removeAll];
    rewrite ?Hc, ?Hc0, ?Hc1, ?Hc2, ?Hslash;
    cbn [negb String.length];
    repeat split; try reflexivity; try lia.
Qed.

(** X23. [formatExpiryDate] keeps the first four digits of the text and
    puts a slash after the second one; its result fits the five
    characters of the field, and formatting it again changes nothing.
    With exactly two digits the result ends in the slash, and the text
    without that slash is formatted to the same result: the slash
    comes back when it is deleted. *)
Theorem formatExpiryDate_idempotent (value : string) :
  digitsOf (formatExpiryDate value) = take 4 (digitsOf value)
  /\ String.length (formatExpiryDate value) <= 5
  /\ formatExpiryDate (formatExpiryDate value) = formatExpiryDate value
  /\ (String.length (digitsOf value) = 2 ->
      formatExpiryDate value = digitsOf value ++ "/"
      /\ formatExpiryDate (digitsOf value) = formatExpiryDate value).
Proof.
  pose proof (digitsOf_digits value) as Hd.
  destruct (expiry_of_digits (digitsOf value) Hd) as [H1 [H2 H3]].
  assert (Hf : forall s, formatExpiryDate s
                         = if 2 <=? String.length (digitsOf s)
                           then substring 0 2 (digitsOf s) ++ "/"
                                ++ substring 2 4 (digitsOf s)
                           else digitsOf s) by reflexivity.
  rewrite (Hf value). split; [exact H1 |]. split; [exact H2 |]. split.
  - rewrite Hf, H1. exact H3.
  - intros H22. rewrite Hf, (digitsOf_fixed _ Hd). split; [| reflexivity].
    rewrite H22. cbn [Nat.leb]. unfold substring.
    destruct (digitsOf value) as [| a [| b [| c r]]]; try discriminate H22.
    reflexivity.
Qed.

(** X24. What the card field shows while the number is masked, for a
    number that went through [formatCardNumber]: a number of at most
    four digits as it is, and of a longer one the last four of its
    first sixteen digits after a fixed mask, so that no other digit of
    it is shown. *)
Theorem masked_number_shows_last_four_digits (value : string) :
  let d := take 16 (digitsOf value) in
  maskCardNumber (formatCardNumber value)
  = if String.length d <=? 4 then d else "**** **** **** " ++ sliceLast 4 d.
Proof.
  intros d. pose proof (digitsOf_digits value) as Hd.
  pose proof (allChars_take is_digit 16 _ Hd) as Ht. fold d in Ht.
  assert (Hlen : String.length d = Nat.min 16 (String.length (digitsOf value)))
    by apply length_take.
  unfold maskCardNumber. rewrite formatCardNumber_digits. cbv zeta.
  destruct (Nat.leb_spec 4 (String.length (digitsOf value))) as [H4 | H4].
  - fold d.
    assert (Hclean : removeAll JS.is_space (String.concat " " (chunks4 d)) = d).
    { apply removeAll_groups; [reflexivity |]. apply digits_not_space, Ht. }
    rewrite Hclean.
    assert (Hne : JS.nonempty (String.concat " " (chunks4 d)) = true).
    { pose proof (length_groups d) as Hl.
      destruct (String.concat " " (chunks4 d)); [cbn [String.length] in Hl; lia |].
      reflexivity. }
    rewrite Hne. cbn [negb].
    destruct (Nat.leb_spec (String.length d) 4) as [Hle | Hgt]; [| reflexivity].
    destruct d as [| a [| b [| c [| x [| y r]]]]]; cbn [String.length] in Hlen, Hle;
      first [lia | reflexivity].
  - assert (Hdd : d = digitsOf value) by (apply take_all; lia).
    rewrite <- Hdd. rewrite (spaces_fixed d Ht).
    destruct (Nat.leb_spec (String.length d) 4) as [Hle | Hgt]; [| lia].
    destruct d; reflexivity.
Qed.

End CardFields.

(** ** The keyword rules *)

Section KeywordRules.
Import KeywordManager.
Variable c : Codec.

Lemma saveRules_inSync (newRules : list KeywordRule) (st : State) :
  readable c newRules -> inSync c (saveRules c newRules st).
Proof.
  intros [Hp Hne]. unfold inSync, mount, saveRules. cbn [localStorage rules].
  unfold Storage.getKeywordRules, Storage.setKeywordRules.
  unfold Storage.getItem, Storage.setItem. rewrite String.eqb_refl.
  cbn [platform Storage.stringify Storage.parse Storage.emptyArray].
  destruct (stringify c newRules) eqn:Hs; [contradiction |].
  cbn [JS.nonempty]. rewrite Hp. unfold Ok. eexists. split; reflexivity.
Qed.

(** X25. The rules on the page stay the rules in the storage: when
    they are the ones a reload would show before the user acts, and
    [JSON.parse] reads the new list back from its text, they are the
    ones a reload would show afterwards, whatever the user did. *)
Theorem shown_rules_are_the_saved_rules (a : Action) (st : State) :
  inSync c st -> readable c (rules (step c a st)) -> inSync c (step c a st).
Proof.
  intros Hsync Hread.
  destruct a as [now | ed | confirmed ruleId | ruleId |]; cbn [step] in *.
  - exact Hsync.
  - destruct (handleSubmit ed) as [msg | rule]; [exact Hsync |].
    unfold handleSaveRule in *. destruct (isCreating st);
      cbn [rules localStorage saveRules] in *;
      destruct (saveRules_inSync _ st Hread) as [st' [Hm Hr]];
      exists st'; split; assumption.
  - unfold handleDeleteRule in *. destruct confirmed; [| exact Hsync].
    apply saveRules_inSync, Hread.
  - apply saveRules_inSync, Hread.
  - exact Hsync.
Qed.

Lemma toggle_twice (ruleId : string) (rs : list KeywordRule) :
  map (fun r => if String.eqb (r_id r) ruleId
                then withEnabled r (negb (r_enabled r)) else r)
      (map (fun r => if String.eqb (r_id r) ruleId
                     then withEnabled r (negb (r_enabled r)) else r) rs) = rs.
Proof.
  induction rs as [| r rs IH]; [reflexivity |].
  cbn [map]. rewrite IH. f_equal.
  destruct (String.eqb (r_id r) ruleId) eqn:He; [| rewrite He; reflexivity].
  cbn [withEnabled r_id]. rewrite He. destruct r as [i k m f e n d].
  cbn [withEnabled r_id r_keywords r_matchMode r_searchFields r_enabled r_name
         r_description].
  rewrite negb_involutive. reflexivity.
Qed.

(** X26. Toggling a rule twice gives back the list as it was, and a
    toggle changes neither the ids of the rules nor their order, and
    no rule with another id. *)
Theorem toggling_twice_restores_the_rules (ruleId : string) (st : State) :
  rules (handleToggleRule c ruleId (handleToggleRule c ruleId st)) = rules st
  /\ map r_id (rules (handleToggleRule c ruleId st)) = map r_id (rules st)
  /\ filter (fun r => negb (String.eqb (r_id r) ruleId))
            (rules (handleToggleRule c ruleId st))
     = filter (fun r => negb (String.eqb (r_id r) ruleId)) (rules st).
Proof.
  unfold handleToggleRule. cbn [rules saveRules]. split; [apply toggle_twice |].
  split.
  - rewrite map_map. apply map_ext. intros r.
    destruct (String.eqb (r_id r) ruleId); reflexivity.
  - induction (rules st) as [| r rs IH]; [reflexivity |].
    cbn [map filter]. destruct (String.eqb (r_id r) ruleId) eqn:He.
    + cbn [withEnabled r_id]. rewrite He. cbn [negb]. exact IH.
    + rewrite He. cbn [negb]. rewrite IH. reflexivity.
Qed.

(** X27. Saving an edited rule changes neither the number of the
    rules nor their ids nor their order; afterwards every rule is the
    saved one or an old rule with another id, so no earlier version of
    the saved rule is left, and the editor is closed.  A rule whose id
    is not in the list is not added: the list stays as it was. *)
Theorem saving_an_edit_keeps_the_ids (rule : KeywordRule) (st : State) :
  isCreating st = false ->
  let st' := handleSaveRule c rule st in
  map r_id (rules st') = map r_id (rules st)
  /\ (forall r, In r (rules st') ->
                r = rule \/ (In r (rules st) /\ r_id r <> r_id rule))
  /\ editingRule st' = None
  /\ (~ In (r_id rule) (map r_id (rules st)) -> rules st' = rules st).
Proof.
  intros Hc st'. unfold st', handleSaveRule. rewrite Hc. cbn [rules saveRules editingRule].
  split; [| split; [| split; [reflexivity |]]].
  - rewrite map_map. apply map_ext_in. intros r _.
    destruct (String.eqb (r_id r) (r_id rule)) eqn:He; [| reflexivity].
    apply String.eqb_eq in He. symmetry. exact He.
  - intros r Hin. apply in_map_iff in Hin. destruct Hin as [r0 [Hr Hin]].
    destruct (String.eqb (r_id r0) (r_id rule)) eqn:He; [left; auto |].
    right. subst r0. split; [exact Hin |]. apply String.eqb_neq, He.
  - intros Hnot. induction (rules st) as [| r rs IH]; [reflexivity |].
    cbn [map]. cbn [map In] in Hnot.
    destruct (String.eqb (r_id r) (r_id rule)) eqn:He.
    + exfalso. apply Hnot. left. apply String.eqb_eq, He.
    + rewrite IH; [reflexivity |]. intros H. apply Hnot. right. exact H.
Qed.

Lemma complete_withEnabled (r : KeywordRule) (e : bool) :
  complete r -> complete (withEnabled r e).
Proof. intros H. exact H. Qed.

Lemma handleSubmit_complete (ed : Editor) (rule : KeywordRule) :
  handleSubmit ed = OnSave rule -> complete rule.
Proof.
  unfold handleSubmit.
  destruct (JS.trim (r_name (editedRule ed))) eqn:Hn; [discriminate |].
  cbn [JS.nonempty negb].
  destruct (r_keywords (editedRule ed)) eqn:Hk; [discriminate |].
  cbn [length Nat.eqb]. intros H. injection H as <-. unfold complete.
  rewrite Hn, Hk. split; discriminate.
Qed.

(** X28. A rule gets into the list with a name that is not blank and
    at least one keyword, and stays so: when every rule of the list has
    both, every rule has both after whatever the user does. *)
Theorem listed_rules_stay_complete (a : Action) (st : State) :
  Forall complete (rules st) -> Forall complete (rules (step c a st)).
Proof.
  intros Hall. destruct a as [now | ed | confirmed ruleId | ruleId |]; cbn [step].
  - exact Hall.
  - destruct (handleSubmit ed) as [msg | rule] eqn:Hs; [exact Hall |].
    pose proof (handleSubmit_complete ed rule Hs) as Hrule.
    unfold handleSaveRule. destruct (isCreating st); cbn [rules saveRules].
    + apply Forall_app. split; [exact Hall | constructor; [exact Hrule | constructor]].
    + apply Forall_forall. intros r Hin. apply in_map_iff in Hin.
      destruct Hin as [r0 [Hr Hin]].
      destruct (String.eqb (r_id r0) (r_id rule)); subst r; [exact Hrule |].
      rewrite Forall_forall in Hall. apply Hall, Hin.
  - unfold handleDeleteRule. destruct confirmed; [| exact Hall].
    cbn [rules saveRules]. apply Forall_forall. intros r Hin.
    apply filter_In in Hin. rewrite Forall_forall in Hall. apply Hall, Hin.
  - unfold handleToggleRule. cbn [rules saveRules]. apply Forall_forall.
    intros r Hin. apply in_map_iff in Hin. destruct Hin as [r0 [Hr Hin]].
    rewrite Forall_forall in Hall. specialize (Hall r0 Hin).
    destruct (String.eqb (r_id r0) ruleId); subst r;
      [apply complete_withEnabled |]; exact Hall.
  - exact Hall.
Qed.

End KeywordRules.

Section RuleEditor.
Import KeywordManager.

Lemma array_includes_In (l : list string) (x : string) :
  JS.array_includes l x = true <-> In x l.
Proof.
  unfold JS.array_includes. rewrite existsb_exists. split.
  - intros [y [Hin He]]. apply String.eqb_eq in He. subst y. exact Hin.
  - intros Hin. exists x. split; [exact Hin | apply String.eqb_refl].
Qed.

Lemma NoDup_snoc (l : list string) (x : string) :
  NoDup l -> ~ In x l -> NoDup (l ++ [x]).
Proof.
  intros Hl Hx. induction Hl as [| y l Hy Hl IH]; [repeat constructor; auto |].
  cbn [app]. constructor.
  - intros Hin. apply in_app_iff in Hin. destruct Hin as [Hin | [He | []]].
    + contradiction.
    + apply Hx. left. symmetry. exact He.
  - apply IH. intros Hin. apply Hx. right. exact Hin.
Qed.

Lemma normalized_keyword (toLowerCase : string -> string) (s : string) :
  JS.nonempty (JS.trim s) = true -> normalized toLowerCase (toLowerCase (JS.trim s)).
Proof.
  intros Hne. exists (JS.trim s). split; [| split].
  - destruct (JS.trim s); [discriminate Hne | discriminate].
  - apply trim_idempotent.
  - reflexivity.
Qed.

(** X29. The keywords of the rule in the editor stay without
    duplicates, and each of them is the lower-case form, as the engine
    gives it, of a text that is not empty and has no white space at its
    ends, whatever is typed and added or removed; [addKeyword] clears
    the input exactly when it adds the keyword, and after
    [removeKeyword] the keyword is not in the list. *)
Theorem editor_keywords_stay_normalized
        (toLowerCase : string -> string) (ed : Editor) (keyword : string) :
  NoDup (r_keywords (editedRule ed)) ->
  Forall (normalized toLowerCase) (r_keywords (editedRule ed)) ->
  (NoDup (r_keywords (editedRule (addKeyword toLowerCase ed)))
   /\ Forall (normalized toLowerCase)
             (r_keywords (editedRule (addKeyword toLowerCase ed)))
   /\ (r_keywords (editedRule (addKeyword toLowerCase ed)) = r_keywords (editedRule ed)
       /\ newKeyword (addKeyword toLowerCase ed) = newKeyword ed
       \/ r_keywords (editedRule (addKeyword toLowerCase ed))
          = (r_keywords (editedRule ed) ++ [toLowerCase (JS.trim (newKeyword ed))])%list
          /\ newKeyword (addKeyword toLowerCase ed) = EmptyString))
  /\ (NoDup (r_keywords (editedRule (removeKeyword keyword ed)))
      /\ Forall (normalized toLowerCase)
                (r_keywords (editedRule (removeKeyword keyword ed)))
      /\ ~ In keyword (r_keywords (editedRule (removeKeyword keyword ed)))).
Proof.
  intros Hnd Hall. split.
  - unfold addKeyword.
    destruct (JS.nonempty (JS.trim (newKeyword ed))) eqn:Hne; cbn [andb];
      [| auto].
    destruct (JS.array_includes (r_keywords (editedRule ed))
                (toLowerCase (JS.trim (newKeyword ed)))) eqn:Hin; cbn [negb];
      [auto |].
    cbn [editedRule newKeyword withKeywords r_keywords].
    split; [| split; [| right; auto]].
    + apply NoDup_snoc; [exact Hnd |]. intros H. apply array_includes_In in H.
      rewrite H in Hin. discriminate Hin.
    + apply Forall_app. split; [exact Hall |].
      constructor; [apply normalized_keyword, Hne | constructor].
  - unfold removeKeyword. cbn [editedRule withKeywords r_keywords].
    split; [apply NoDup_filter, Hnd | split].
    + apply Forall_forall. intros k Hk. apply filter_In in Hk.
      rewrite Forall_forall in Hall. apply Hall, Hk.
    + intros Hk. apply filter_In in Hk. destruct Hk as [_ Hk].
      rewrite String.eqb_refl in Hk. discriminate Hk.
Qed.

(** X30. [toggleSearchField] flips whether the rule searches the
    field and nothing else: the field is searched afterwards exactly
    when it was not before, every other field is searched exactly when
    it was, and a list without duplicates stays without duplicates. *)
Theorem toggleSearchField_flips_one_field (ed : Editor) (field : string) :
  let before := r_searchFields (editedRule ed) in
  let after := r_searchFields (editedRule (toggleSearchField field ed)) in
  JS.array_includes after field = negb (JS.array_includes before field)
  /\ (forall f, f <> field -> (In f after <-> In f before))
  /\ (NoDup before -> NoDup after)
  /\ r_keywords (editedRule (toggleSearchField field ed)) = r_keywords (editedRule ed).
Proof.
  intros before after. unfold after, toggleSearchField.
  cbn [editedRule withSearchFields r_searchFields r_keywords]. fold before.
  destruct (JS.array_includes before field) eqn:Hin; cbn [negb].
  - split; [| split; [| split; [apply NoDup_filter | reflexivity]]].
    + destruct (JS.array_includes (filter _ before) field) eqn:Hf; [| reflexivity].
      apply array_includes_In, filter_In in Hf. destruct Hf as [_ Hf].
      rewrite String.eqb_refl in Hf. discriminate Hf.
    + intros f Hne. rewrite filter_In. split; [intros [H _]; exact H |].
      intros H. split; [exact H |]. apply negb_true_iff, String.eqb_neq, Hne.
  - split; [| split; [| split; [| reflexivity]]].
    + apply array_includes_In, in_app_iff. right. left. reflexivity.
    + intros f Hne. rewrite in_app_iff. split; [| auto].
      intros [H | [H | []]]; [exact H | congruence].
    + intros Hnd. apply NoDup_snoc; [exact Hnd |]. intros H.
      apply array_includes_In in H. rewrite H in Hin. discriminate Hin.
Qed.

End RuleEditor.

(** * The further properties at work *)

Lemma default_address_of_a_configured_buyer :
  let this := init Cases.buyerWithoutAddress Scenario.noEnv in
  o_address Cases.buyerWithoutAddress = None
  /\ s_address (shippingInfo this) = "520 CHESTNUT ST"
  /\ usingTestData this = false.
Proof.
  split; [reflexivity |].
  destruct (default_address_passes_validation
              Cases.buyerWithoutAddress Scenario.noEnv
              eq_refl eq_refl eq_refl eq_refl eq_refl eq_refl) as [Ha [_ [_ [Hu _]]]].
  - intros v Hin. cbn [In] in Hin.
    repeat (destruct Hin as [<- | Hin]; [reflexivity |]). destruct Hin.
  - split; [exact Ha | exact Hu].
Defined.

Lemma buyer_without_url_makes_no_call :
  JS.truthy (o_productUrl Scenario.buyerWithoutUrl) = false
  /\ executeCheckout (Scenario.chromiumFor Scenario.quietShop)
                     (init Scenario.buyerWithoutUrl Scenario.noEnv)
     = ([], Throw missingUrl).
Proof.
  split; [reflexivity |].
  apply (run_without_product_url_makes_no_call
           Scenario.buyerWithoutUrl Scenario.noEnv
           (Scenario.chromiumFor Scenario.quietShop) eq_refl eq_refl).
Defined.

Lemma run_without_a_browser :
  launch Cases.noChromium true = Throw "Failed to launch browser"
  /\ outcome (executeCheckout Cases.noChromium Scenario.checkout)
     = Throw "Failed to launch browser"
  /\ count isOnError (trace (executeCheckout Cases.noChromium Scenario.checkout)) = 0.
Proof.
  split; [reflexivity |].
  rewrite (launch_failure_is_not_reported
             Cases.noChromium Scenario.checkout
             "https://www.finewineandgoodspirits.com/product/1"
             "Failed to launch browser" eq_refl eq_refl eq_refl).
  split; reflexivity.
Defined.

Lemma run_without_a_page :
  let browser := {| br_newPage := Throw "Target closed"; br_close := Ok tt |} in
  launch Cases.noPageChromium true = Ok browser
  /\ outcome (executeCheckout Cases.noPageChromium Scenario.checkout)
     = Throw "Target closed"
  /\ count isBrowserClose (trace (executeCheckout Cases.noPageChromium Scenario.checkout))
     = 0.
Proof.
  split; [reflexivity |].
  rewrite (page_failure_leaves_browser_open
             Cases.noPageChromium Scenario.checkout
             {| br_newPage := Throw "Target closed"; br_close := Ok tt |}
             "https://www.finewineandgoodspirits.com/product/1"
             "Target closed" eq_refl eq_refl eq_refl eq_refl).
  split; reflexivity.
Defined.

Lemma dialog_without_button_is_passed :
  let page := Cases.dialogWithoutButton in
  outcome (confirmSuggestedAddress page) = Throw "Timeout exceeded"
  /\ outcome (fillShippingInfo page Scenario.checkout) = Ok tt.
Proof.
  split; [reflexivity |].
  rewrite (validation_faults_are_swallowed
             Cases.dialogWithoutButton Scenario.checkout eq_refl).
  reflexivity.
Defined.

Lemma frameless_shop_stops_payment :
  pg_contentFrame Cases.frameless = Ok None
  /\ outcome (handlePayment Cases.frameless Scenario.checkout)
     = Throw "Could not access iframe content".
Proof.
  split; [reflexivity |].
  rewrite (missing_frame_stops_payment Cases.frameless Scenario.checkout
             eq_refl eq_refl eq_refl eq_refl eq_refl).
  reflexivity.
Defined.

Lemma missing_contact_form_keeps_payment_data_back :
  let page := Cases.noContactForm in
  let t := trace (executeCheckout (Scenario.chromiumFor page) Scenario.checkout) in
  outcome (reachPayment page "https://www.finewineandgoodspirits.com/product/1"
                        Scenario.checkout)
  = Throw "Timeout 8000ms exceeded"
  /\ forallb notPaymentEvent t = true
  /\ count isOnComplete t = 0
  /\ In (OnError (failedArg "Timeout 8000ms exceeded")) t.
Proof.
  split; [vm_compute; reflexivity |].
  pose proof (failed_stage_keeps_payment_data_back
                (Scenario.chromiumFor Cases.noContactForm) Scenario.checkout
                {| br_newPage := Ok Cases.noContactForm; br_close := Ok tt |}
                Cases.noContactForm
                "https://www.finewineandgoodspirits.com/product/1"
                "Timeout 8000ms exceeded"
                eq_refl eq_refl eq_refl eq_refl
                ltac:(vm_compute; reflexivity)) as H.
  cbv zeta in H. destruct H as [Hp [Hc [_ He]]].
  split; [exact Hp |]. split; [exact Hc |].
  apply (proj1 (He (fun _ => Ok tt) eq_refl eq_refl)).
Defined.

Lemma failing_webhook_is_reported_as_failure :
  let this := init Cases.buyerFailingOnComplete Scenario.noEnv in
  let run := executeCheckout (Scenario.chromiumFor Scenario.quietShop) this in
  outcome (funnel Scenario.quietShop "https://www.finewineandgoodspirits.com/product/1"
                  this)
  = Ok {| pr_success := true; pr_error := None |}
  /\ outcome run = Throw "webhook down".
Proof.
  split; [vm_compute; reflexivity |].
  rewrite (rejecting_onComplete_triggers_onError
             (Scenario.chromiumFor Scenario.quietShop)
             (init Cases.buyerFailingOnComplete Scenario.noEnv)
             {| br_newPage := Ok Scenario.quietShop; br_close := Ok tt |}
             Scenario.quietShop
             "https://www.finewineandgoodspirits.com/product/1"
             {| pr_success := true; pr_error := None |}
             (fun _ => Throw "webhook down") (fun _ => Ok tt) "webhook down"
             eq_refl eq_refl eq_refl eq_refl ltac:(vm_compute; reflexivity)
             eq_refl eq_refl eq_refl eq_refl eq_refl eq_refl).
  reflexivity.
Defined.

Lemma failed_screenshot_hides_the_timeout :
  let page := Cases.noContactFormNoShot in
  let run := executeCheckout (Scenario.chromiumFor page) Scenario.checkout in
  pg_screenshot page = Throw "Target closed"
  /\ outcome run = Throw "Target closed".
Proof.
  split; [reflexivity |].
  exact (proj1 (failing_screenshot_masks_the_error
                  (Scenario.chromiumFor Cases.noContactFormNoShot) Scenario.checkout
                  {| br_newPage := Ok Cases.noContactFormNoShot; br_close := Ok tt |}
                  Cases.noContactFormNoShot
                  "https://www.finewineandgoodspirits.com/product/1"
                  "Timeout 8000ms exceeded" "Target closed"
                  eq_refl eq_refl eq_refl eq_refl ltac:(vm_compute; reflexivity)
                  eq_refl eq_refl)).
Defined.

Lemma maxlength_field_takes_the_cvv :
  let sel := "input[maxlength=" ++ JS.q "3" ++ "]" in
  el_isVisible (fr_first Cases.maxlengthFrame sel) = Ok true
  /\ outcome (cvvFallback Scenario.quietShop Cases.maxlengthFrame "737" cvvSelectors)
     = Ok true.
Proof.
  split; [reflexivity |].
  assert (Hb : Forall (fun s => el_isVisible (fr_first Cases.maxlengthFrame s) <> Ok true)
                      ["input[placeholder*=" ++ JS.q "CVV" ++ "]";
                       "input[placeholder*=" ++ JS.q "CVC" ++ "]";
                       "input[placeholder*=" ++ JS.q "Security" ++ "]"]).
  { repeat constructor; vm_compute; discriminate. }
  exact (f_equal snd
           (cvvFallback_first_visible_field
              Scenario.quietShop Cases.maxlengthFrame "737" _
              ["input[maxlength=" ++ JS.q "4" ++ "]"]
              ("input[maxlength=" ++ JS.q "3" ++ "]")
              Hb eq_refl eq_refl eq_refl eq_refl)).
Defined.

Lemma example_inputs_cvv_step_resolves :
  let frame := Scenario.frameOf Scenario.exampleInputs in
  fr_all frame Sel.input = Ok Scenario.exampleInputs
  /\ exists chosen entered,
      outcome (enterCvv Scenario.quietShop frame Scenario.checkout) = Ok (chosen, entered).
Proof.
  split; [reflexivity |].
  destruct (enterCvv_never_aborts
              Scenario.quietShop (Scenario.frameOf Scenario.exampleInputs)
              Scenario.checkout Scenario.exampleInputs eq_refl)
    as [chosen [entered [H _]]].
  exists chosen, entered. exact H.
Defined.

Lemma declined_order_is_returned_without_timer :
  let page := Cases.decliningNoTimer in
  pg_evaluate page TimerStop = Throw "Execution context was destroyed"
  /\ outcome (placeOrder page Scenario.checkout)
     = Ok {| pr_success := false; pr_error := Some "Card declined" |}.
Proof.
  split; [reflexivity |].
  apply (detected_error_is_returned
           Cases.decliningNoTimer Scenario.checkout
           {| errorFound := true; errorMessage := "Card declined"; timing := 1000 |}
           eq_refl eq_refl eq_refl ltac:(vm_compute; reflexivity) eq_refl).
Defined.

Lemma quiet_shop_order_counts_as_success :
  outcome (placeOrder Scenario.quietShop Scenario.checkout)
  = Ok {| pr_success := true; pr_error := None |}
  /\ count checkStart (trace (placeOrder Scenario.quietShop Scenario.checkout)) = 50.
Proof.
  destruct (unconfirmed_order_counts_as_success
              Scenario.quietShop Scenario.checkout eq_refl eq_refl eq_refl)
    as [Hout [Hc _]].
  - intros k sel els el text _ _ Hall Hin.
    cbn in Hall. inversion Hall; subst. destruct Hin.
  - split; [exact Hout | exact Hc].
Defined.

Lemma declined_message_is_trimmed :
  let r := {| errorFound := true; errorMessage := "Card declined"; timing := 1000 |} in
  outcome (monitorPaymentErrors Scenario.decliningShop) = Ok r
  /\ JS.trim (errorMessage r) = errorMessage r
  /\ hasErrorKeyword (errorMessage r) = true.
Proof.
  split; [vm_compute; reflexivity |].
  apply (proj2 (reported_message_is_trimmed
                  Scenario.decliningShop
                  {| errorFound := true; errorMessage := "Card declined"; timing := 1000 |}
                  ltac:(vm_compute; reflexivity) eq_refl)).
Defined.

Lemma quiet_shop_cvv_goes_to_the_frame :
  In (Fill (FrameNth Sel.input 1) "737")
     (trace (handlePayment Scenario.quietShop Scenario.checkout))
  /\ frameTarget (FrameNth Sel.input 1) = true.
Proof.
  assert (Hin : In (Fill (FrameNth Sel.input 1) "737")
                   (trace (handlePayment Scenario.quietShop Scenario.checkout))).
  { vm_compute. repeat (first [left; reflexivity | right]). }
  split; [exact Hin |].
  destruct (card_data_is_typed_in_the_frame
              Scenario.quietShop Scenario.checkout (FrameNth Sel.input 1) "737" Hin)
    as [[H _] | [[H _] | [H _]]]; [discriminate H | discriminate H | exact H].
Defined.

Lemma cleared_storage_reads_no_rules :
  let ls := Storage.setKeywordRules Cases.stringArrays ["{not json"] Cases.emptyStorage in
  Storage.getKeywordRules Cases.stringArrays (Storage.clearAll ls) = Ok [].
Proof.
  apply (proj1 (proj2 (proj2 (proj2 (proj2
           (clearAll_resets_every_getter Cases.stringArrays
              (Storage.setKeywordRules Cases.stringArrays ["{not json"]
                                       Cases.emptyStorage))))))).
Defined.

Lemma stored_keywords_are_read_back :
  Storage.parse Cases.stringArrays (Storage.stringify Cases.stringArrays ["bourbon"; "rye"])
  = Ok ["bourbon"; "rye"]
  /\ Storage.getKeywordRules Cases.stringArrays
       (Storage.setKeywordRules Cases.stringArrays ["bourbon"; "rye"] Cases.emptyStorage)
     = Ok ["bourbon"; "rye"].
Proof.
  split; [vm_compute; reflexivity |].
  apply (stored_settings_are_read_back
           Cases.stringArrays Cases.emptyStorage ["bourbon"; "rye"]
           ltac:(vm_compute; reflexivity) ltac:(vm_compute; discriminate)).
Defined.

Lemma slash_comes_back :
  PaymentForm.formatExpiryDate "12" = "12/"
  /\ PaymentForm.formatExpiryDate "12/" = "12/".
Proof.
  destruct (formatExpiryDate_idempotent "12/") as [_ [_ [_ H]]].
  destruct (H eq_refl) as [H1 H2].
  split; [rewrite H1 in H2; exact H2 | exact H1].
Defined.

Lemma toggled_rule_is_the_saved_rule :
  let st := KeywordManager.step RuleCases.freshRules
              (KeywordManager.ToggleRule "1700000000000") RuleCases.oneRule in
  KeywordManager.inSync RuleCases.freshRules RuleCases.oneRule
  /\ KeywordManager.inSync RuleCases.freshRules st.
Proof.
  assert (H0 : KeywordManager.inSync RuleCases.freshRules RuleCases.oneRule).
  { eexists. split; [vm_compute; reflexivity | reflexivity]. }
  split; [exact H0 |].
  apply (shown_rules_are_the_saved_rules RuleCases.freshRules
           (KeywordManager.ToggleRule "1700000000000") RuleCases.oneRule H0).
  split; [vm_compute; reflexivity | vm_compute; discriminate].
Defined.

Lemma edited_bourbon_keeps_its_place :
  KeywordManager.isCreating RuleCases.bourbonPage = false
  /\ map KeywordManager.r_id
         (KeywordManager.rules
            (KeywordManager.handleSaveRule RuleCases.freshRules
               (KeywordManager.withKeywords RuleCases.bourbon ["bourbon"])
               RuleCases.bourbonPage))
     = ["1700000000001"].
Proof.
  split; [reflexivity |].
  apply (proj1 (saving_an_edit_keeps_the_ids RuleCases.freshRules
                  (KeywordManager.withKeywords RuleCases.bourbon ["bourbon"])
                  RuleCases.bourbonPage eq_refl)).
Defined.

Lemma bourbon_page_stays_complete :
  Forall KeywordManager.complete (KeywordManager.rules RuleCases.bourbonPage)
  /\ Forall KeywordManager.complete
            (KeywordManager.rules
               (KeywordManager.step RuleCases.freshRules
                  (KeywordManager.Submit RuleCases.bourbonEditor)
                  RuleCases.bourbonPage)).
Proof.
  assert (H0 : Forall KeywordManager.complete
                      (KeywordManager.rules RuleCases.bourbonPage)).
  { repeat constructor; vm_compute; discriminate. }
  split; [exact H0 |].
  apply (listed_rules_stay_complete RuleCases.freshRules
           (KeywordManager.Submit RuleCases.bourbonEditor) RuleCases.bourbonPage H0).
Defined.

(** White space outside ASCII is white space: a banner text between
    no-break spaces and a line separator is reported without them, a
    rule whose name is a no-break space is refused, and a keyword that
    is one is not added. *)
Lemma no_break_space_is_white_space :
  JS.trim (RuleCases.noBreakSpace ++ " Card declined " ++ RuleCases.noBreakSpace
           ++ RuleCases.lineSeparator) = "Card declined"
  /\ KeywordManager.handleSubmit RuleCases.blankEditor
     = KeywordManager.Alert "Please enter a rule name"
  /\ KeywordManager.addKeyword JS.toLowerCase RuleCases.blankEditor
     = RuleCases.blankEditor.
Proof. vm_compute. repeat split. Qed.

Lemma pappy_is_added_in_lower_case :
  NoDup (KeywordManager.r_keywords (KeywordManager.editedRule RuleCases.bourbonEditor))
  /\ NoDup (KeywordManager.r_keywords
              (KeywordManager.editedRule
                 (KeywordManager.addKeyword JS.toLowerCase RuleCases.bourbonEditor)))
  /\ In "pappy" (KeywordManager.r_keywords
                   (KeywordManager.editedRule
                      (KeywordManager.addKeyword JS.toLowerCase
                                                 RuleCases.bourbonEditor))).
Proof.
  assert (Hn : NoDup (KeywordManager.r_keywords
                        (KeywordManager.editedRule RuleCases.bourbonEditor))).
  { repeat constructor; cbn; intuition discriminate. }
  assert (Hf : Forall (KeywordManager.normalized JS.toLowerCase)
                      (KeywordManager.r_keywords
                         (KeywordManager.editedRule RuleCases.bourbonEditor))).
  { repeat constructor;
      [exists "bourbon" | exists "rye"];
      (split; [discriminate | split; [vm_compute; reflexivity | reflexivity]]). }
  split; [exact Hn |].
  destruct (editor_keywords_stay_normalized JS.toLowerCase RuleCases.bourbonEditor
              "rye" Hn Hf) as [[Ha _] _].
  split; [exact Ha |]. vm_compute. right. right. left. reflexivity.
Defined.
